(** * Economy and progression engine: embedding and verification

    Shallow embedding of [backend/game/engine.py] (class [GameEngine]) and of
    the leaderboard query [Database.get_user_rank] of
    [backend/database/db.py], with the properties of the specification
    settled against them.

    Python numbers are modelled as the interpreter has them: [int] is an
    unbounded integer ([Z]); [float] is an IEEE-754 binary64 value, the
    sum, the product and the quotient being the exact rational result
    rounded to nearest, ties to even.  A power of a float is what the C
    library's [pow] returns, which IEEE-754 does not fix: the library is a
    parameter, and what is proved of a power is proved from a stated bound
    on its error.  Python exceptions are values of an error type. *)

From Stdlib Require Import ZArith QArith Qround Qabs Qminmax Qpower Lia Lqa Bool.
From Stdlib Require Import Floats.SpecFloat.
From stdpp Require Import base option strings gmap pretty.

Local Open Scope Z_scope.

(** ** IEEE-754 binary64 *)

Module B64.

(** Every finite double is an integer multiple of [2^-1074]; a finite value
    is stored as its sign and that multiple. *)
Inductive float64 : Type :=
| Fin (neg : bool) (mag : N)
| Inf (neg : bool)
| NaN.

(** [2^1074], the number of smallest subnormals in one unit. *)
Definition scale : positive := 2 ^ 1074.

(** [2^1024] in units of [2^-1074]: rounded magnitudes from here on overflow. *)
Definition overflow_threshold : Z := 2 ^ 2098.

Definition signed (neg : bool) (m : Z) : Z := if neg then - m else m.

(** The rational value of a finite double (0 for the others). *)
Definition F2Q (x : float64) : Q :=
  match x with
  | Fin s m => Qmake (signed s (Z.of_N m)) scale
  | _ => 0%Q
  end.

(** Round to the nearest integer, ties to the even one. *)
Definition RNE (x : Q) : Z :=
  let f := Qfloor x in
  match Qcompare (x - inject_Z f) (1 # 2) with
  | Lt => f
  | Gt => f + 1
  | Eq => if Z.even f then f else f + 1
  end.

(** Exponent of the unit in the last place of a magnitude [x] given in units
    of [2^-1074]: 0 up to [2^53], then one more per binade. *)
Definition ulp_exp (x : Q) : Z := Z.max 0 (Z.log2 (Qfloor x) - 52).

(** Round a non-negative magnitude (in units of [2^-1074]) to 53 significant
    bits. *)
Definition round_mag (x : Q) : Z :=
  let e := ulp_exp x in
  RNE (x / inject_Z (2 ^ e)) * 2 ^ e.

Definition Qneg (q : Q) (zero_sign : bool) : bool :=
  match Qcompare q 0 with
  | Lt => true
  | Gt => false
  | Eq => zero_sign
  end.

(** Rounding of an exact result [q] to binary64; [zero_sign] is the sign
    given to an exact zero. *)
Definition round_Q (zero_sign : bool) (q : Q) : float64 :=
  let k := round_mag (Qabs q * inject_Z (Zpos scale)) in
  if overflow_threshold <=? k then Inf (Qneg q zero_sign)
  else Fin (Qneg q zero_sign) (Z.to_N k).

(** A decimal literal of the source text, [n / 10^d]. *)
Definition literal (n : Z) (d : N) : float64 :=
  round_Q false (inject_Z n / inject_Z (10 ^ Z.of_N d)).

Definition is_zero (x : float64) : bool :=
  match x with Fin _ 0%N => true | _ => false end.

Definition is_finite (x : float64) : bool :=
  match x with Fin _ _ => true | _ => false end.

Definition sign_bit (x : float64) : bool :=
  match x with Fin s _ | Inf s => s | NaN => false end.

Definition fneg (x : float64) : float64 :=
  match x with
  | Fin s m => Fin (negb s) m
  | Inf s => Inf (negb s)
  | NaN => NaN
  end.

Definition fmul (x y : float64) : float64 :=
  match x, y with
  | NaN, _ | _, NaN => NaN
  | Inf s, Inf t => Inf (xorb s t)
  | Inf s, Fin t m | Fin t m, Inf s =>
      if (m =? 0)%N then NaN else Inf (xorb s t)
  | Fin s _, Fin t _ => round_Q (xorb s t) (F2Q x * F2Q y)
  end.

Definition fadd (x y : float64) : float64 :=
  match x, y with
  | NaN, _ | _, NaN => NaN
  | Inf s, Inf t => if eqb s t then Inf s else NaN
  | Inf s, Fin _ _ | Fin _ _, Inf s => Inf s
  | Fin s _, Fin t _ => round_Q (s && t) (F2Q x + F2Q y)
  end.

Definition fsub (x y : float64) : float64 := fadd x (fneg y).

(** IEEE division; the divisor is not a zero (Python raises before). *)
Definition fdiv (x y : float64) : float64 :=
  match x, y with
  | NaN, _ | _, NaN => NaN
  | Inf _, Inf _ => NaN
  | Inf s, Fin t _ => Inf (xorb s t)
  | Fin s _, Inf t => Fin (xorb s t) 0
  | Fin s _, Fin t _ => round_Q (xorb s t) (F2Q x / F2Q y)
  end.

(** Comparison of two doubles; [None] when unordered (a NaN is involved). *)
Definition fcompare (x y : float64) : option comparison :=
  match x, y with
  | NaN, _ | _, NaN => None
  | Inf s, Inf t =>
      Some (if eqb s t then Eq else if s then Lt else Gt)
  | Inf s, Fin _ _ => Some (if s then Lt else Gt)
  | Fin _ _, Inf t => Some (if t then Gt else Lt)
  | Fin _ _, Fin _ _ => Some (Qcompare (F2Q x) (F2Q y))
  end.

Definition flt (x y : float64) : bool :=
  match fcompare x y with Some Lt => true | _ => false end.

Definition fle (x y : float64) : bool :=
  match fcompare x y with Some Lt | Some Eq => true | _ => false end.

Definition feq (x y : float64) : bool :=
  match fcompare x y with Some Eq => true | _ => false end.

(** The double [2^e] or [-2^e], for [-1074 <= e < 1024]. *)
Definition two_pow (neg : bool) (e : Z) : float64 :=
  Fin neg (Z.to_N (2 ^ (e + 1074))).

Definition zero : float64 := Fin false 0.

(** A finite double below the overflow threshold. *)
Definition bounded (x : float64) : bool :=
  match x with
  | Fin _ m => Z.of_N m <? overflow_threshold
  | _ => true
  end.

(** A datum of the type really is a double: a finite one has at most 53
    significant bits and is below the overflow threshold. *)
Definition valid (x : float64) : bool :=
  match x with
  | Fin _ m =>
      (Z.of_N m <? overflow_threshold) &&
      (round_mag (inject_Z (Z.of_N m)) =? Z.of_N m)
  | _ => true
  end.

(** The position of a double on the extended line, in units of [2^-1074],
    the infinities sitting at the overflow threshold. *)
Definition ext (x : float64) : Z :=
  match x with
  | Fin s m => signed s (Z.of_N m)
  | Inf s => signed s overflow_threshold
  | NaN => 0
  end.

(** The same value in the Standard Library's specification format. *)
Definition to_spec (x : float64) : spec_float :=
  match x with
  | NaN => S754_nan
  | Inf s => S754_infinity s
  | Fin s 0%N => S754_zero s
  | Fin s (Npos m) =>
      match binary_normalize 53 1024 (Zpos m) (-1074) s with
      | S754_finite _ m' e' => S754_finite s m' e'
      | other => other
      end
  end.

End B64.

(** ** Python values, exceptions and arithmetic *)

Module Py.
Import B64.

(** The exceptions the arithmetic of the engine can raise. *)
Inductive exn : Type := OverflowError | ZeroDivisionError | ValueError.

Inductive result (A : Type) : Type :=
| Ok (a : A)
| Raise (e : exn).
Arguments Ok {A} a.
Arguments Raise {A} e.

Definition bind {A B : Type} (r : result A) (k : A -> result B) : result B :=
  match r with
  | Ok a => k a
  | Raise e => Raise e
  end.

Declare Scope py_scope.
Delimit Scope py_scope with py.
Notation "x <- r ;; k" := (bind r (fun x => k))
  (at level 100, r at next level, right associativity) : py_scope.
Local Open Scope py_scope.

(** A computation that raises nothing but [OverflowError]. *)
Definition overflow_only {A : Type} (r : result A) : Prop :=
  match r with
  | Ok _ => True
  | Raise e => e = OverflowError
  end.

(** A number is an [int] or a [float]; a parameter annotated [float] accepts
    both. *)
Inductive pynum : Type :=
| PyInt (n : Z)
| PyFloat (x : float64).

(** [float(n)]: correctly rounded, [OverflowError] beyond the largest
    double. *)
Definition int_to_float (n : Z) : result float64 :=
  match round_Q false (inject_Z n) with
  | Inf _ => Raise OverflowError
  | x => Ok x
  end.

Definition to_float (a : pynum) : result float64 :=
  match a with
  | PyInt n => int_to_float n
  | PyFloat x => Ok x
  end.

(** [a * b] *)
Definition num_mul (a b : pynum) : result pynum :=
  match a, b with
  | PyInt m, PyInt n => Ok (PyInt (m * n))
  | _, _ => x <- to_float a ;; y <- to_float b ;; Ok (PyFloat (fmul x y))
  end.

(** [a + b] *)
Definition num_add (a b : pynum) : result pynum :=
  match a, b with
  | PyInt m, PyInt n => Ok (PyInt (m + n))
  | _, _ => x <- to_float a ;; y <- to_float b ;; Ok (PyFloat (fadd x y))
  end.

(** [a - b] *)
Definition num_sub (a b : pynum) : result pynum :=
  match a, b with
  | PyInt m, PyInt n => Ok (PyInt (m - n))
  | _, _ => x <- to_float a ;; y <- to_float b ;; Ok (PyFloat (fsub x y))
  end.

(** [m / n] on two ints: the correctly rounded quotient. *)
Definition int_truediv (m n : Z) : result float64 :=
  if n =? 0 then Raise ZeroDivisionError
  else match round_Q (xorb (m <? 0) (n <? 0)) (inject_Z m / inject_Z n) with
       | Inf _ => Raise OverflowError
       | x => Ok x
       end.

(** [a / b] *)
Definition num_truediv (a b : pynum) : result float64 :=
  match a, b with
  | PyInt m, PyInt n => int_truediv m n
  | _, _ =>
      x <- to_float a ;; y <- to_float b ;;
      if is_zero y then Raise ZeroDivisionError else Ok (fdiv x y)
  end.

(** Comparison of an int with a double is exact. *)
Definition int_float_compare (n : Z) (x : float64) : option comparison :=
  match x with
  | NaN => None
  | Inf s => Some (if s then Gt else Lt)
  | Fin _ _ => Some (Qcompare (inject_Z n) (F2Q x))
  end.

Definition num_compare (a b : pynum) : option comparison :=
  match a, b with
  | PyInt m, PyInt n => Some (m ?= n)
  | PyInt m, PyFloat y => int_float_compare m y
  | PyFloat x, PyInt n => CompOpp <$> int_float_compare n x
  | PyFloat x, PyFloat y => fcompare x y
  end.

(** [a < b], [a > b], [a >= b] *)
Definition num_lt (a b : pynum) : bool :=
  match num_compare a b with Some Lt => true | _ => false end.
Definition num_gt (a b : pynum) : bool := num_lt b a.
Definition num_le (a b : pynum) : bool :=
  match num_compare a b with Some Lt | Some Eq => true | _ => false end.
Definition num_ge (a b : pynum) : bool := num_le b a.

(** [min(a, b)]: the first argument unless the second is smaller. *)
Definition py_min (a b : pynum) : pynum := if num_lt b a then b else a.

Definition one : float64 := Fin false (Npos scale).

(** *** The C library *)

(** [errno] after a call that was entered with [errno = 0]: left at 0, set
    to [ERANGE], or set to anything else. *)
Inductive errno : Type := ENone | ERANGE | EOther.

(** What the interpreter takes from the C library: [pow] of [math.h], with
    the [errno] it leaves behind.  Which library that is depends on the
    platform, so it is a parameter of everything that raises a float to a
    power. *)
Class Libm : Type := {
  libm_pow : float64 -> float64 -> float64 * errno
}.

(** [_Py_ADJUST_ERANGE1]: an infinite result counts as a range error even
    when the library did not report one, an underflow to zero does not count
    although it did. *)
Definition Py_ADJUST_ERANGE1 (x : float64) (e : errno) : errno :=
  match e with
  | ENone => match x with Inf _ => ERANGE | _ => ENone end
  | ERANGE => if is_zero x then ENone else ERANGE
  | EOther => EOther
  end.

(** [x ** n] for a float [x] and an int [n] ([float_pow] of CPython): the
    exponent is converted to a double [iw]; the special cases come first;
    what is left, a finite positive base other than 1.0 and a finite
    exponent other than 0, goes to the C library's [pow], whose [errno]
    decides between the result, OverflowError and ValueError. *)
Definition float_pow_int {L : Libm} (x : float64) (n : Z) : result float64 :=
  iw <- int_to_float n ;;
  let w := Qfloor (F2Q iw) in
  if w =? 0 then Ok one
  else match x with
       | NaN => Ok NaN
       | Inf s =>
           Ok (if 0 <? w then (if Z.odd w then x else Inf false)
               else (if Z.odd w then Fin s 0 else Fin false 0))
       | Fin s 0%N =>
           if w <? 0 then Raise ZeroDivisionError
           else Ok (if Z.odd w then x else Fin false 0)
       | Fin s m =>
           let negate_result := s && Z.odd w in
           if (m =? Npos scale)%N then Ok (Fin negate_result (Npos scale))
           else
             let (ix, e) := libm_pow (Fin false m) iw in
             let e := Py_ADJUST_ERANGE1 ix e in
             let ix := if negate_result then fneg ix else ix in
             match e with
             | ENone => Ok ix
             | ERANGE => Raise OverflowError
             | EOther => Raise ValueError
             end
       end.

(** [a ** n] with an int exponent. *)
Definition py_pow {L : Libm} (a : pynum) (n : Z) : result pynum :=
  match a with
  | PyInt b =>
      if 0 <=? n then Ok (PyInt (b ^ n))
      else x <- int_to_float b ;; r <- float_pow_int x n ;; Ok (PyFloat r)
  | PyFloat x => r <- float_pow_int x n ;; Ok (PyFloat r)
  end.

(** A double whose value is a whole number. *)
Definition is_integer (x : float64) : bool :=
  match x with
  | Fin _ m => Z.of_N m mod Zpos scale =? 0
  | _ => false
  end.

(** The relative error allowed to [pow]: [2^-52], which one unit in the
    last place never exceeds. *)
Definition pow_tolerance : Q := 1 # (2 ^ 52).

(** The two ends of what an accurate [pow] may return for an exact power
    [q]: the doubles nearest to [q] lessened and to [q] enlarged by the
    tolerance. *)
Definition pow_low (q : Q) : float64 := round_Q false (q * (1 - pow_tolerance)).
Definition pow_high (q : Q) : float64 := round_Q false (q * (1 + pow_tolerance)).

(** The accuracy asked of the library where the cost formula uses it, a
    base above 1 raised to a whole exponent of at least 1: the result is a
    double, not a NaN, between the two ends above (an error of one unit in
    the last place, which the GNU C library documents for [pow], stays
    within them); and [errno] is left at 0 or reports the range error of an
    infinite result. *)
Definition pow_accurate (L : Libm) : Prop :=
  forall x y : float64,
    valid x = true -> is_finite x = true -> (1 < F2Q x)%Q ->
    valid y = true -> is_integer y = true -> (1 <= F2Q y)%Q ->
    let q := Qpower (F2Q x) (Qfloor (F2Q y)) in
    let r := fst (libm_pow x y) in
    let e := snd (libm_pow x y) in
    valid r = true /\ r <> NaN /\
    ext (pow_low q) <= ext r <= ext (pow_high q) /\
    (e = ENone \/ (e = ERANGE /\ is_finite r = false)).

(** A library whose [pow] is correctly rounded on whole exponents. *)
Definition correctly_rounded : Libm :=
  {| libm_pow := fun x y =>
       (round_Q false (Qpower (F2Q x) (Qfloor (F2Q y))), ENone) |}.

(** A library whose [pow] errs upwards, by half of the tolerance. *)
Definition rounded_above : Libm :=
  {| libm_pow := fun x y =>
       (round_Q false (Qpower (F2Q x) (Qfloor (F2Q y)) *
                       (1 + pow_tolerance / 2)), ENone) |}.

(** [math.ceil(a)] *)
Definition math_ceil (a : pynum) : result Z :=
  match a with
  | PyInt n => Ok n
  | PyFloat NaN => Raise ValueError
  | PyFloat (Inf _) => Raise OverflowError
  | PyFloat x => Ok (Qceiling (F2Q x))
  end.

(** [int(x)]: truncation towards zero. *)
Definition py_int (a : pynum) : result Z :=
  match a with
  | PyInt n => Ok n
  | PyFloat NaN => Raise ValueError
  | PyFloat (Inf _) => Raise OverflowError
  | PyFloat (Fin s m) => Ok (signed s (Z.of_N m / Zpos scale))
  end.

(** [round(x, 2)] on a float: the decimal with two fractional digits nearest
    to [x] (ties to even), read back as a double. *)
Definition float_round2 (x : float64) : result float64 :=
  match x with
  | Fin s _ =>
      let n := RNE (Qabs (F2Q x) * 100) in
      match round_Q s (inject_Z (signed s n) / 100) with
      | Inf _ => Raise OverflowError
      | r => Ok r
      end
  | other => Ok other
  end.

(** [round(a, 2)] *)
Definition py_round2 (a : pynum) : result pynum :=
  match a with
  | PyInt n => Ok (PyInt n)
  | PyFloat x => r <- float_round2 x ;; Ok (PyFloat r)
  end.

(** *** Text *)

Fixpoint zeros (n : nat) : string :=
  match n with
  | O => EmptyString
  | S k => "0" +:+ zeros k
  end.

(** Left-pad with zeros to [width] characters. *)
Definition zfill (width : nat) (s : string) : string :=
  zeros (width - String.length s) +:+ s.

(** [f"{x:.<digits>f}"] on a float. *)
Definition float_format_fixed (digits : nat) (x : float64) : string :=
  match x with
  | NaN => "nan"
  | Inf s => if s then "-inf" else "inf"
  | Fin s _ =>
      let p := 10 ^ Z.of_nat digits in
      let n := RNE (Qabs (F2Q x) * inject_Z p) in
      (if s then "-" else EmptyString) +:+ pretty (n / p) +:+ "." +:+
      zfill digits (pretty (n mod p))
  end.

(** [f"{a:.<digits>f}"]: an int is converted to a float first. *)
Definition format_fixed (digits : nat) (a : pynum) : result string :=
  x <- to_float a ;; Ok (float_format_fixed digits x).

(** [str(n)] of an int. *)
Definition str_int (n : Z) : string := pretty n.

(** The rational value of a number. *)
Definition num_Q (a : pynum) : Q :=
  match a with
  | PyInt n => inject_Z n
  | PyFloat x => F2Q x
  end.

Definition valid_num (a : pynum) : bool :=
  match a with
  | PyInt _ => true
  | PyFloat x => valid x
  end.

(** *** Time *)

(** A naive [datetime], as its count of microseconds since 0001-01-01. *)
Definition datetime : Type := Z.

(** [(t1 - t0).total_seconds()]: the microseconds of the difference divided
    by [10**6]. *)
Definition total_seconds_between (t0 t1 : datetime) : result float64 :=
  int_truediv (t1 - t0) (10 ^ 6).

(** The elapsed time in fractional hours, [total_seconds() / 3600]. *)
Definition elapsed_hours (t0 t1 : datetime) : result float64 :=
  seconds <- total_seconds_between t0 t1 ;;
  num_truediv (PyFloat seconds) (PyInt 3600).

(** The range of [datetime]: years 1 to 9999. *)
Definition valid_datetime (t : datetime) : bool :=
  (0 <=? t) && (t <? 315537897600000000).

End Py.

(** ** Configuration ([backend/config/settings.py]) *)

Record Settings : Type := {
  INITIAL_INCOME_PER_HOUR : Z;
  INITIAL_GUESTS_PER_HOUR : Z;
  OFFLINE_INCOME_MAX_HOURS : Z
}.

(** The values of the class when the environment overrides none. *)
Definition default_settings : Settings :=
  {| INITIAL_INCOME_PER_HOUR := 10;
     INITIAL_GUESTS_PER_HOUR := 2;
     OFFLINE_INCOME_MAX_HOURS := 24 |}.

(** ** The engine ([backend/game/engine.py]) *)

Module GameEngine.
Import B64 Py.
Local Open Scope py_scope.

(** What a method can read besides its arguments: the wall clock behind
    [datetime.now()] and the module-level [settings] object. *)
Record World : Type := {
  clock : datetime;
  settings : Settings
}.

(** A method of the engine: a computation that may read the world and may
    raise. *)
Definition Eng (A : Type) : Type := World -> result A.

Definition eret {A : Type} (a : A) : Eng A := fun _ => Ok a.

Definition ebind {A B : Type} (m : Eng A) (k : A -> Eng B) : Eng B :=
  fun w => bind (m w) (fun a => k a w).

Definition lift {A : Type} (r : result A) : Eng A := fun _ => r.

(** [datetime.now()] *)
Definition datetime_now : Eng datetime := fun w => Ok (clock w).

(** Attribute access on the global [settings]. *)
Definition setting (field : Settings -> Z) : Eng Z :=
  fun w => Ok (field (settings w)).

Declare Scope eng_scope.
Delimit Scope eng_scope with eng.
Notation "x <- m ;; k" := (ebind m (fun x => k))
  (at level 100, m at next level, right associativity) : eng_scope.

(** [d.get(key, default)] *)
Definition dict_get (d : gmap string pynum) (key : string) (default : pynum)
  : pynum :=
  match d !! key with
  | Some v => v
  | None => default
  end.

Definition calculate_offline_income
    (income_per_hour : pynum) (last_collected : datetime)
    (max_hours : option Z) : Eng (pynum * pynum) :=
  (max_hours <- match max_hours with
                | None => setting OFFLINE_INCOME_MAX_HOURS
                | Some h => eret h
                end ;;
   now <- datetime_now ;;
   seconds <- lift (total_seconds_between last_collected now) ;;
   hours <- lift (num_truediv (PyFloat seconds) (PyInt 3600)) ;;
   let hours := py_min (PyFloat hours) (PyInt max_hours) in
   income <- lift (num_mul income_per_hour hours) ;;
   eret (income, hours))%eng.

Definition calculate_upgrade_cost {L : Libm}
    (base_cost : pynum) (current_level : Z) (multiplier : pynum) : Eng Z :=
  lift (p <- py_pow multiplier current_level ;;
        c <- num_mul base_cost p ;;
        math_ceil c).

(** The default of the [multiplier] parameter, [1.15]. *)
Definition default_multiplier : pynum := PyFloat (literal 115 2).

(** The [for] loop of [calculate_total_income], on its two accumulators. *)
Fixpoint total_income_loop (upgrades : list (gmap string pynum))
    (total_income_bonus total_guests_bonus : pynum)
  : result (pynum * pynum) :=
  match upgrades with
  | [] => Ok (total_income_bonus, total_guests_bonus)
  | upgrade :: rest =>
      let level := dict_get upgrade "level" (PyInt 0) in
      let income_bonus := dict_get upgrade "income_bonus" (PyInt 0) in
      let guests_bonus := dict_get upgrade "guests_bonus" (PyInt 0) in
      di <- num_mul income_bonus level ;;
      total_income_bonus <- num_add total_income_bonus di ;;
      dg <- num_mul guests_bonus level ;;
      total_guests_bonus <- num_add total_guests_bonus dg ;;
      total_income_loop rest total_income_bonus total_guests_bonus
  end.

Definition calculate_total_income
    (base_income : pynum) (upgrades : list (gmap string pynum))
  : Eng (pynum * pynum) :=
  (totals <- lift (total_income_loop upgrades (PyInt 0) (PyInt 0)) ;;
   income_per_hour <- lift (num_add base_income (fst totals)) ;;
   initial_guests <- setting INITIAL_GUESTS_PER_HOUR ;;
   guests_per_hour <- lift (num_add (PyInt initial_guests) (snd totals)) ;;
   eret (income_per_hour, guests_per_hour))%eng.

(** The [multipliers] table of [calculate_minigame_reward]. *)
Definition multipliers : gmap string float64 :=
  <["burger_flip" := literal 5 1]>
  (<["speed_tap" := literal 3 1]>
  (<["memory" := literal 10 1]> ∅)).

Definition calculate_minigame_reward (score : Z) (game_type : string)
  : Eng pynum :=
  lift (let multiplier := default (literal 5 1) (multipliers !! game_type) in
        reward <- num_mul (PyInt score) (PyFloat multiplier) ;;
        reward <- (if 50 <? score
                   then num_mul reward (PyFloat (literal 15 1))
                   else if 100 <? score
                   then num_mul reward (PyFloat (literal 20 1))
                   else Ok reward) ;;
        py_round2 reward).

(** A row of the [achievements] table, as far as the engine reads it. *)
Record Achievement : Type := {
  condition_type : string;
  condition_value : pynum
}.

Definition check_achievement_progress
    (progress_data : gmap string pynum) (achievement : Achievement)
  : Eng bool :=
  let condition_type := condition_type achievement in
  let condition_value := condition_value achievement in
  if String.eqb condition_type "total_earned" then
    eret (num_ge (dict_get progress_data "total_earned" (PyInt 0))
                 condition_value)
  else if String.eqb condition_type "upgrades_count" then
    eret (num_ge (dict_get progress_data "upgrades_count" (PyInt 0))
                 condition_value)
  else if String.eqb condition_type "guests_served" then
    eret false
  else
    eret false.

Definition format_number (number : pynum) : Eng string :=
  lift (if num_lt number (PyInt 1000) then
          format_fixed 2 number
        else if num_lt number (PyInt 1000000) then
          q <- num_truediv number (PyInt 1000) ;;
          Ok (float_format_fixed 1 q +:+ "K")
        else if num_lt number (PyInt 1000000000) then
          q <- num_truediv number (PyInt 1000000) ;;
          Ok (float_format_fixed 1 q +:+ "M")
        else
          q <- num_truediv number (PyInt 1000000000) ;;
          Ok (float_format_fixed 1 q +:+ "B")).

Definition format_time (hours : pynum) : Eng string :=
  lift (if num_lt hours (PyInt 1) then
          m <- num_mul hours (PyInt 60) ;;
          minutes <- py_int m ;;
          Ok (str_int minutes +:+ "м")
        else
          full_hours <- py_int hours ;;
          rest <- num_sub hours (PyInt full_hours) ;;
          m <- num_mul rest (PyInt 60) ;;
          minutes <- py_int m ;;
          if minutes =? 0 then Ok (str_int full_hours +:+ "ч")
          else Ok (str_int full_hours +:+ "ч " +:+ str_int minutes +:+ "м")).

End GameEngine.

(** ** The leaderboard query ([backend/database/db.py]) *)

Module Database.
Import B64.

(** A row of [user_progress], as far as the rank query reads it.  [user_id]
    is the primary key; [total_earned] is a nullable REAL. *)
Record progress_row : Type := {
  user_id : Z;
  total_earned : option float64
}.

(** SQL [a > b]: NULL when an operand is NULL. *)
Definition sql_gt (a b : option float64) : option bool :=
  match a, b with
  | Some x, Some y => Some (flt y x)
  | _, _ => None
  end.

(** A WHERE clause keeps the rows whose condition is true, not NULL. *)
Definition sql_true (c : option bool) : bool :=
  match c with
  | Some true => true
  | _ => false
  end.

(** [(SELECT total_earned FROM user_progress WHERE user_id = ?)] used as a
    value: the first row's column, NULL when there is no row. *)
Definition select_total_earned (user_progress : list progress_row)
    (uid : Z) : option float64 :=
  match List.filter (fun r => user_id r =? uid) user_progress with
  | [] => None
  | r :: _ => total_earned r
  end.

(** The statement of [get_user_rank].  An aggregate without GROUP BY yields
    exactly one row, here holding the column [rank]. *)
Definition rank_query (user_progress : list progress_row) (uid : Z)
  : list Z :=
  let target := select_total_earned user_progress uid in
  let above :=
    List.filter (fun r => sql_true (sql_gt (total_earned r) target))
                user_progress in
  [Z.of_nat (length above) + 1].

(** [fetchone]: the first row of the result, [None] when it has none. *)
Definition fetchone {A : Type} (rows : list A) : option A :=
  match rows with
  | [] => None
  | row :: _ => Some row
  end.

Definition get_user_rank (user_progress : list progress_row) (uid : Z)
  : option Z :=
  let result := fetchone (rank_query user_progress uid) in
  match result with
  | Some rank => Some rank
  | None => None
  end.

End Database.

(** ** The formulas of the specification

    The contracts of the specification that are given as formulas, written
    after its words and evaluated in the arithmetic of the program; the
    embedding of the source is compared with them below. *)

Module Spec.
Import B64 Py GameEngine.
Local Open Scope py_scope.

(** [acc + Σ (level_i * bonus_i)], the terms added in list order. *)
Fixpoint weighted_sum_from (acc : pynum) (bonus : string)
    (owned : list (gmap string pynum)) : result pynum :=
  match owned with
  | [] => Ok acc
  | u :: rest =>
      term <- num_mul (dict_get u "level" (PyInt 0))
                      (dict_get u bonus (PyInt 0)) ;;
      acc <- num_add acc term ;;
      weighted_sum_from acc bonus rest
  end.

(** [Σ (level_i * bonus_i)] *)
Definition weighted_sum (bonus : string) (owned : list (gmap string pynum))
  : result pynum :=
  weighted_sum_from (PyInt 0) bonus owned.

(** [aggregate(baseIncome, baseGuests, ownedUpgrades)] *)
Definition aggregate_spec (baseIncome : pynum) (baseGuests : Z)
    (owned : list (gmap string pynum)) : result (pynum * pynum) :=
  income_sum <- weighted_sum "income_bonus" owned ;;
  incomePerHour <- num_add baseIncome income_sum ;;
  guests_sum <- weighted_sum "guests_bonus" owned ;;
  guestsPerHour <- num_add (PyInt baseGuests) guests_sum ;;
  Ok (incomePerHour, guestsPerHour).

(** The same sum over the integers, for upgrades whose level and bonus are
    ints. *)
Definition int_of (a : pynum) : Z :=
  match a with
  | PyInt n => n
  | PyFloat _ => 0
  end.

Definition is_int (a : pynum) : bool :=
  match a with
  | PyInt _ => true
  | PyFloat _ => false
  end.

Fixpoint int_weighted_sum (bonus : string)
    (owned : list (gmap string pynum)) : Z :=
  match owned with
  | [] => 0
  | u :: rest =>
      int_of (dict_get u "level" (PyInt 0)) *
      int_of (dict_get u bonus (PyInt 0)) +
      int_weighted_sum bonus rest
  end.

(** The upgrades of the specification's example. *)
Definition example_upgrades : list (gmap string pynum) :=
  [ <["level" := PyInt 2]>
      (<["income_bonus" := PyFloat (literal 10 1)]>
      (<["guests_bonus" := PyInt 0]> ∅));
    <["level" := PyInt 1]>
      (<["income_bonus" := PyInt 0]>
      (<["guests_bonus" := PyInt 3]> ∅)) ].

(** The per-point multiplier [m] of a game type. *)
Definition per_point (gameType : string) : float64 :=
  if String.eqb gameType "burger_flip" then literal 5 1
  else if String.eqb gameType "speed_tap" then literal 3 1
  else if String.eqb gameType "memory" then literal 10 1
  else literal 5 1.

(** The bracket factor [b]: 1.5 above 50 points, 1 otherwise. *)
Definition bracket (score : Z) : pynum :=
  if 50 <? score then PyFloat (literal 15 1) else PyInt 1.

(** [round(score * m * b, 2)] *)
Definition computeReward_spec (score : Z) (gameType : string)
  : result pynum :=
  base <- num_mul (PyInt score) (PyFloat (per_point gameType)) ;;
  reward <- num_mul base (bracket score) ;;
  py_round2 reward.

End Spec.

(** ** Numbers with a value *)

Module PyOrder.
Import B64 Py.

(** A number with a rational value: an int or a finite float. *)
Definition has_value (a : pynum) : bool :=
  match a with
  | PyInt _ => true
  | PyFloat x => is_finite x
  end.

End PyOrder.

(** ** Constants of the time format *)

Module TimeFormat.
Import B64.

(** The largest double below 1, [1 - 2^-53]. *)
Definition below_one : float64 := Fin false (Z.to_N (2 ^ 1074 - 2 ^ 1021)).

(** The double [60.0]. *)
Definition sixty : float64 := Fin false (Z.to_N (60 * 2 ^ 1074)).

(** The largest double below 60, [60 - 2^-47]. *)
Definition below_sixty : float64 :=
  Fin false (Z.to_N (60 * 2 ^ 1074 - 2 ^ 1027)).

End TimeFormat.

(** ** Growing sets of upgrades *)

Module Growth.
Import B64 Py GameEngine.

(** A double that is a number of at least 0, plus infinity included. *)
Definition nonneg_float (x : float64) : Prop :=
  x <> NaN /\ bounded x = true /\ valid x = true /\ 0 <= ext x.

(** An owned upgrade as the tables give it: an int level from 0 on, a
    float income bonus of at least 0 and an int guests bonus of at least
    0. *)
Definition owned (u : gmap string pynum) (level : Z) (income_bonus : float64)
    (guests_bonus : Z) : Prop :=
  dict_get u "level" (PyInt 0) = PyInt level /\
  0 <= level <= 2 ^ 1023 /\
  dict_get u "income_bonus" (PyInt 0) = PyFloat income_bonus /\
  is_finite income_bonus = true /\ (0 <= F2Q income_bonus)%Q /\
  dict_get u "guests_bonus" (PyInt 0) = PyInt guests_bonus /\
  0 <= guests_bonus.

(** [grows before after]: the upgrades [after] are those of [before] with
    levels raised or kept, and possibly new upgrades among them. *)
Inductive grows
  : list (gmap string pynum) -> list (gmap string pynum) -> Prop :=
| grows_nil : grows [] []
| grows_level (u u' : gmap string pynum) (n n' : Z) (f : float64) (g : Z)
    (rest rest' : list (gmap string pynum)) :
    owned u n f g -> owned u' n' f g -> n <= n' ->
    grows rest rest' -> grows (u :: rest) (u' :: rest')
| grows_new (u' : gmap string pynum) (n' : Z) (f : float64) (g : Z)
    (rest rest' : list (gmap string pynum)) :
    owned u' n' f g -> grows rest rest' -> grows rest (u' :: rest').

(** The income accumulator of the loop on two such lists: the int 0 it
    starts with, or floats in order. *)
Inductive acc_le : pynum -> pynum -> Prop :=
| acc_start : acc_le (PyInt 0) (PyInt 0)
| acc_ahead (t' : float64) : nonneg_float t' -> acc_le (PyInt 0) (PyFloat t')
| acc_both (t t' : float64) :
    nonneg_float t -> nonneg_float t' -> ext t <= ext t' ->
    acc_le (PyFloat t) (PyFloat t').

(** A base income: an int from 0 to [2^53], or a finite float. *)
Definition base_income_ok (base : pynum) : Prop :=
  match base with
  | PyInt b => 0 <= b <= 2 ^ 53
  | PyFloat x => is_finite x = true /\ valid x = true
  end.

End Growth.

(** ** The Web App handlers ([backend/webapp/api.py]) *)

Module WebApp.
Import B64 Py GameEngine.

(** What a handler can end with instead of a response: an exception of the
    engine, the TypeError of a subscript on [None], or an exception that a
    method of the database layer raised. *)
Inductive error : Type :=
| EngineError (e : exn)
| TypeError
| DatabaseError (name : string).

Inductive outcome (A : Type) : Type :=
| Done (a : A)
| Failed (e : error).
Arguments Done {A} a.
Arguments Failed {A} e.

(** A row of [user_progress] as a dict, as far as the handlers read it. *)
Record Progress : Type := {
  balance : pynum;
  income_per_hour : pynum;
  guests_per_hour : pynum;
  total_earned : pynum;
  last_income_collected : datetime
}.

(** A row of [upgrades] as a dict, as far as the handlers read it. *)
Record Upgrade : Type := {
  name : string;
  base_cost : pynum;
  cost_multiplier : pynum
}.

(** The methods of the [db] object that the handlers await, over a database
    state [S].  Queries leave the state alone; every method but
    [purchase_upgrade], which catches what it raises, can fail. *)
Class Db (S : Type) : Type := {
  get_user_progress : Z -> S -> outcome (option Progress);
  fetch_upgrade : Z -> S -> outcome (option Upgrade);
  get_user_upgrade_level : Z -> Z -> S -> outcome Z;
  get_user_upgrades : Z -> S -> outcome (list (gmap string pynum));
  update_balance : Z -> pynum -> bool -> S -> S * outcome bool;
  update_last_income_collected : Z -> S -> S * outcome unit;
  db_purchase_upgrade : Z -> Z -> S -> S * bool;
  update_income_stats : Z -> pynum -> pynum -> S -> S * outcome unit;
  save_minigame_attempt : Z -> string -> Z -> pynum -> S -> S * outcome unit
}.

(** The data given to [web.json_response]. *)
#[warnings="-register-all"] Inductive json : Type :=
| JNumber (n : pynum)
| JString (s : string)
| JBool (b : bool)
| JObject (fields : list (string * json)).

Record Response : Type := {
  body : json;
  status : Z
}.

(** [web.json_response(data, status=...)], 200 when no status is given. *)
Definition json_response (fields : list (string * json)) (status : Z)
  : Response :=
  {| body := JObject fields; status := status |}.

(** A handler: a computation over the database state that may read the
    world and may fail; what was written before a failure stays written. *)
Definition Handler (S A : Type) : Type := S -> World -> S * outcome A.

Definition hret {S A : Type} (a : A) : Handler S A :=
  fun s _ => (s, Done a).

Definition fail {S A : Type} (e : error) : Handler S A :=
  fun s _ => (s, Failed e).

Definition hbind {S A B : Type} (m : Handler S A) (k : A -> Handler S B)
  : Handler S B :=
  fun s w =>
    match m s w with
    | (s', Done a) => k a s' w
    | (s', Failed e) => (s', Failed e)
    end.

(** Awaiting a query and awaiting a method that writes. *)
Definition query {S A : Type} (q : S -> outcome A) : Handler S A :=
  fun s _ => (s, q s).

Definition await {S A : Type} (m : S -> S * outcome A) : Handler S A :=
  fun s _ => m s.

(** A call of the engine. *)
Definition engine {S A : Type} (m : Eng A) : Handler S A :=
  fun s w =>
    match m w with
    | Ok a => (s, Done a)
    | Raise e => (s, Failed (EngineError e))
    end.

Declare Scope handler_scope.
Delimit Scope handler_scope with handler.
Notation "x <- m ;; k" := (hbind m (fun x => k))
  (at level 100, m at next level, right associativity) : handler_scope.

(** [not x] on the [upgrade_id] of a request body: absent, or 0. *)
Definition missing_id (upgrade_id : option Z) : bool :=
  match upgrade_id with
  | Some n => n =? 0
  | None => true
  end.

(** [not x] on the [game_type] of a request body: absent, or empty. *)
Definition missing_text (game_type : option string) : bool :=
  match game_type with
  | Some t => String.eqb t EmptyString
  | None => true
  end.

Section Handlers.
Context {S : Type} {db : Db S} {L : Libm}.

(** POST [/api/user/{user_id}/collect-income] *)
Definition collect_income (user_id : Z) : Handler S Response :=
  (progress <- query (get_user_progress user_id) ;;
   match progress with
   | None => hret (json_response [("error", JString "User not found")] 404)
   | Some progress =>
       let last_collected := last_income_collected progress in
       result <- engine (calculate_offline_income
                           (income_per_hour progress) last_collected None) ;;
       let income := fst result in
       let hours := snd result in
       if num_lt income (PyFloat (literal 1 2)) then
         hret (json_response
                 [("collected", JNumber (PyInt 0));
                  ("message", JString "No income to collect yet")] 200)
       else
         _ <- await (update_balance user_id income true) ;;
         _ <- await (update_last_income_collected user_id) ;;
         new_progress <- query (get_user_progress user_id) ;;
         match new_progress with
         | None => fail TypeError
         | Some new_progress =>
             hret (json_response
                     [("collected", JNumber income);
                      ("hours", JNumber hours);
                      ("new_balance", JNumber (balance new_progress));
                      ("total_earned", JNumber (total_earned new_progress))]
                     200)
         end
   end)%handler.

(** POST [/api/user/{user_id}/purchase-upgrade]; [upgrade_id] is the field
    of that name in the request body, when it has one. *)
Definition purchase_upgrade (user_id : Z) (upgrade_id : option Z)
  : Handler S Response :=
  if missing_id upgrade_id then
    hret (json_response [("error", JString "upgrade_id is required")] 400)
  else
    let upgrade_id := default 0 upgrade_id in
    (progress <- query (get_user_progress user_id) ;;
     upgrade <- query (fetch_upgrade upgrade_id) ;;
     match upgrade with
     | None =>
         hret (json_response [("error", JString "Upgrade not found")] 404)
     | Some upgrade =>
         current_level <- query (get_user_upgrade_level user_id upgrade_id) ;;
         cost <- engine (calculate_upgrade_cost (base_cost upgrade)
                           current_level (cost_multiplier upgrade)) ;;
         match progress with
         | None => fail TypeError
         | Some progress =>
             if num_lt (balance progress) (PyInt cost) then
               hret (json_response
                       [("error", JString "Insufficient balance")] 400)
             else
               _ <- await (fun s =>
                             let r := db_purchase_upgrade user_id upgrade_id s
                             in (fst r, Done (snd r))) ;;
               _ <- await (update_balance user_id (PyInt (- cost)) false) ;;
               user_upgrades <- query (get_user_upgrades user_id) ;;
               totals <- engine (initial <- setting INITIAL_INCOME_PER_HOUR ;;
                                 calculate_total_income (PyInt initial)
                                   user_upgrades)%eng ;;
               let new_income := fst totals in
               let new_guests := snd totals in
               _ <- await (update_income_stats user_id new_income
                             new_guests) ;;
               new_progress <- query (get_user_progress user_id) ;;
               match new_progress with
               | None => fail TypeError
               | Some new_progress =>
                   hret (json_response
                           [("success", JBool true);
                            ("purchased",
                             JObject
                               [("upgrade_id", JNumber (PyInt upgrade_id));
                                ("name", JString (name upgrade));
                                ("new_level",
                                 JNumber (PyInt (current_level + 1)));
                                ("cost", JNumber (PyInt cost))]);
                            ("new_balance", JNumber (balance new_progress));
                            ("new_income_per_hour",
                             JNumber (income_per_hour new_progress));
                            ("new_guests_per_hour",
                             JNumber (guests_per_hour new_progress))] 200)
               end
         end
     end)%handler.

(** POST [/api/user/{user_id}/minigame-result]; [game_type] and [score] are
    the fields of those names in the request body, when it has them. *)
Definition save_minigame_result (user_id : Z) (game_type : option string)
    (score : option Z) : Handler S Response :=
  let score := default 0 score in
  if missing_text game_type then
    hret (json_response [("error", JString "game_type is required")] 400)
  else
    let game_type := default EmptyString game_type in
    (reward <- engine (calculate_minigame_reward score game_type) ;;
     _ <- await (save_minigame_attempt user_id game_type score reward) ;;
     _ <- await (update_balance user_id reward true) ;;
     progress <- query (get_user_progress user_id) ;;
     match progress with
     | None => fail TypeError
     | Some progress =>
         hret (json_response
                 [("score", JNumber (PyInt score));
                  ("reward", JNumber reward);
                  ("new_balance", JNumber (balance progress))] 200)
     end)%handler.

End Handlers.

(** A database for examples: one answer to every query, and every write
    accepted without a trace. *)
Definition example_db (progress : option Progress) (upgrade : option Upgrade)
    (level : Z) : Db unit :=
  {| get_user_progress := fun _ _ => Done progress;
     fetch_upgrade := fun _ _ => Done upgrade;
     get_user_upgrade_level := fun _ _ _ => Done level;
     get_user_upgrades := fun _ _ => Done [];
     update_balance := fun _ _ _ s => (s, Done true);
     update_last_income_collected := fun _ s => (s, Done tt);
     db_purchase_upgrade := fun _ _ s => (s, true);
     update_income_stats := fun _ _ _ s => (s, Done tt);
     save_minigame_attempt := fun _ _ _ _ s => (s, Done tt) |}.

(** A player with 100.0 on the balance, last seen one hour after the
    epoch of the clock, and the first upgrade of the initial data. *)
Definition example_progress : Progress :=
  {| balance := PyFloat (literal 100 0);
     income_per_hour := PyFloat (literal 10 0);
     guests_per_hour := PyInt 2;
     total_earned := PyFloat (literal 100 0);
     last_income_collected := 3600000000 |}.

Definition example_upgrade : Upgrade :=
  {| name := "grill";
     base_cost := PyFloat (literal 50 0);
     cost_multiplier := PyFloat (literal 115 2) |}.

End WebApp.

(** * Properties *)

Import B64 Py GameEngine Database PyOrder TimeFormat Growth.
Local Open Scope py_scope.

(** ** Rounding to nearest *)

Lemma RNE_cases (x : Q) :
  (RNE x = Qfloor x /\ (x - inject_Z (Qfloor x) <= 1 # 2)%Q) \/
  (RNE x = Qfloor x + 1 /\ (1 # 2 <= x - inject_Z (Qfloor x))%Q).
Proof.
  unfold RNE.
  destruct (Qcompare_spec (x - inject_Z (Qfloor x)) (1 # 2)) as [H|H|H].
  - destruct (Z.even (Qfloor x)); [left | right]; split; auto; rewrite H; lra.
  - left; split; auto; lra.
  - right; split; auto; lra.
Qed.

Lemma Qfloor_bounds (x : Q) :
  (inject_Z (Qfloor x) <= x /\ x < inject_Z (Qfloor x + 1))%Q.
Proof. split; [apply Qfloor_le | apply Qlt_floor]. Qed.

Lemma RNE_mono (x y : Q) : (x <= y)%Q -> RNE x <= RNE y.
Proof.
  intros Hxy.
  pose proof (Qfloor_resp_le _ _ Hxy) as Hf.
  destruct (Z.eq_dec (Qfloor x) (Qfloor y)) as [E|NE].
  - unfold RNE. rewrite <- E.
    destruct (Qcompare_spec (x - inject_Z (Qfloor x)) (1 # 2)) as [H|H|H];
    destruct (Qcompare_spec (y - inject_Z (Qfloor x)) (1 # 2)) as [H'|H'|H'];
      try lia; try (exfalso; lra); destruct (Z.even (Qfloor x)); try lia;
      exfalso; lra.
  - destruct (RNE_cases x) as [[-> _]|[-> _]], (RNE_cases y) as [[-> _]|[-> _]];
      lia.
Qed.

Lemma RNE_Z (n : Z) : RNE (inject_Z n) = n.
Proof.
  unfold RNE. rewrite Qfloor_Z.
  destruct (Qcompare_spec (inject_Z n - inject_Z n) (1 # 2)) as [H|H|H];
    try lia; exfalso; lra.
Qed.

Lemma RNE_comp (x y : Q) : (x == y)%Q -> RNE x = RNE y.
Proof.
  intros E. unfold RNE. rewrite (Qfloor_comp _ _ E).
  assert (E' : (x - inject_Z (Qfloor y) == y - inject_Z (Qfloor y))%Q)
    by (rewrite E; reflexivity).
  rewrite (Qcompare_comp _ _ E' (1 # 2) (1 # 2) (Qeq_refl _)). reflexivity.
Qed.

Lemma inject_pow2_pos (e : Z) : 0 <= e -> (0 < inject_Z (2 ^ e))%Q.
Proof.
  intros He. change 0%Q with (inject_Z 0). rewrite <- Zlt_Qlt.
  apply Z.pow_pos_nonneg; lia.
Qed.

Lemma Qdiv_pow2_le (x y : Q) (e : Z) :
  0 <= e -> (x <= y)%Q -> (x / inject_Z (2 ^ e) <= y / inject_Z (2 ^ e))%Q.
Proof.
  intros He Hxy. unfold Qdiv. apply Qmult_le_compat_r; auto.
  apply Qlt_le_weak, Qinv_lt_0_compat, inject_pow2_pos; auto.
Qed.

Lemma Qdiv_pow2_Z (m e : Z) :
  0 <= e -> (inject_Z (m * 2 ^ e) / inject_Z (2 ^ e) == inject_Z m)%Q.
Proof.
  intros He. rewrite inject_Z_mult. field.
  pose proof (inject_pow2_pos e He). lra.
Qed.

Lemma ulp_exp_nonneg (x : Q) : 0 <= ulp_exp x.
Proof. unfold ulp_exp. lia. Qed.

Lemma ulp_exp_mono (x y : Q) : (x <= y)%Q -> ulp_exp x <= ulp_exp y.
Proof.
  intros H. unfold ulp_exp.
  pose proof (Z.log2_le_mono _ _ (Qfloor_resp_le _ _ H)). lia.
Qed.

(** Below the next binade. *)
Lemma below_binade (x : Q) :
  (x < inject_Z (2 ^ 53 * 2 ^ ulp_exp x))%Q.
Proof.
  destruct (Qfloor_bounds x) as [_ Hlt].
  eapply Qlt_le_trans; [exact Hlt|]. rewrite <- Zle_Qle.
  unfold ulp_exp. set (a := Qfloor x).
  rewrite <- Z.pow_add_r by lia.
  destruct (Z.le_gt_cases a 0) as [Ha|Ha].
  - assert (1 <= 2 ^ (53 + Z.max 0 (Z.log2 a - 52))); [|lia].
    apply (Z.pow_le_mono_r 2 0); lia.
  - destruct (Z.log2_spec a Ha) as [_ Hup].
    assert (2 ^ Z.succ (Z.log2 a) <= 2 ^ (53 + Z.max 0 (Z.log2 a - 52))); [|lia].
    apply Z.pow_le_mono_r; lia.
Qed.

(** At or above the start of its binade, once past the first [2^53]. *)
Lemma above_binade (x : Q) :
  0 < ulp_exp x -> (inject_Z (2 ^ 52 * 2 ^ ulp_exp x) <= x)%Q.
Proof.
  intros He. destruct (Qfloor_bounds x) as [Hle _].
  eapply Qle_trans; [|exact Hle]. rewrite <- Zle_Qle.
  unfold ulp_exp in *. set (a := Qfloor x) in *.
  assert (Ha : 0 < a).
  { destruct (Z.le_gt_cases a 0) as [Ha|Ha]; auto.
    rewrite (Z.log2_nonpos a Ha) in He. lia. }
  destruct (Z.log2_spec a Ha) as [Hlo _].
  rewrite <- Z.pow_add_r by lia.
  replace (52 + Z.max 0 (Z.log2 a - 52)) with (Z.log2 a) by lia. exact Hlo.
Qed.

Lemma scaled_mantissa_le (x : Q) :
  RNE (x / inject_Z (2 ^ ulp_exp x)) <= 2 ^ 53.
Proof.
  rewrite <- (RNE_Z (2 ^ 53)). apply RNE_mono.
  pose proof (ulp_exp_nonneg x) as He.
  rewrite <- (Qdiv_pow2_Z (2 ^ 53) (ulp_exp x) He).
  apply Qdiv_pow2_le; auto. apply Qlt_le_weak, below_binade.
Qed.

Lemma scaled_mantissa_ge (x : Q) :
  0 < ulp_exp x -> 2 ^ 52 <= RNE (x / inject_Z (2 ^ ulp_exp x)).
Proof.
  intros He. rewrite <- (RNE_Z (2 ^ 52)) at 1. apply RNE_mono.
  rewrite <- (Qdiv_pow2_Z (2 ^ 52) (ulp_exp x)) by lia.
  apply Qdiv_pow2_le; [lia|]. apply above_binade; auto.
Qed.

Lemma scaled_mantissa_nonneg (x : Q) :
  (0 <= x)%Q -> 0 <= RNE (x / inject_Z (2 ^ ulp_exp x)).
Proof.
  intros Hx. rewrite <- (RNE_Z 0) at 1. apply RNE_mono.
  apply Qle_shift_div_l; [apply inject_pow2_pos, ulp_exp_nonneg|].
  change (inject_Z 0) with 0%Q. lra.
Qed.

Lemma round_mag_nonneg (x : Q) : (0 <= x)%Q -> 0 <= round_mag x.
Proof.
  intros Hx. unfold round_mag.
  pose proof (scaled_mantissa_nonneg x Hx).
  pose proof (Z.pow_pos_nonneg 2 (ulp_exp x) ltac:(lia) (ulp_exp_nonneg x)).
  nia.
Qed.

Lemma round_mag_mono (x y : Q) :
  (x <= y)%Q -> round_mag x <= round_mag y.
Proof.
  intros Hxy. unfold round_mag.
  pose proof (ulp_exp_mono x y Hxy) as He.
  pose proof (ulp_exp_nonneg x) as Hex.
  destruct (Z.eq_dec (ulp_exp x) (ulp_exp y)) as [E|NE].
  - rewrite <- E. apply Z.mul_le_mono_nonneg_r.
    + apply Z.pow_nonneg; lia.
    + apply RNE_mono, Qdiv_pow2_le; auto.
  - assert (Hlt : ulp_exp x < ulp_exp y) by lia.
    pose proof (scaled_mantissa_le x) as Hup.
    pose proof (scaled_mantissa_ge y ltac:(lia)) as Hlo.
    pose proof (Z.pow_pos_nonneg 2 (ulp_exp x) ltac:(lia) Hex) as Hpx.
    assert (Hpow : 2 * 2 ^ ulp_exp x <= 2 ^ ulp_exp y).
    { rewrite <- Z.pow_succ_r by lia. apply Z.pow_le_mono_r; lia. }
    transitivity (2 ^ 53 * 2 ^ ulp_exp x); [nia|].
    transitivity (2 ^ 52 * 2 ^ ulp_exp y); [|nia].
    change (2 ^ 53) with (2 ^ 52 * 2). nia.
Qed.

Lemma round_mag_comp (x y : Q) : (x == y)%Q -> round_mag x = round_mag y.
Proof.
  intros E. unfold round_mag, ulp_exp. rewrite (Qfloor_comp _ _ E).
  f_equal. apply RNE_comp. rewrite E. reflexivity.
Qed.

(** A mantissa of at most 53 bits times a power of two is its own rounding. *)
Lemma round_mag_exact (m e : Z) :
  0 <= e -> 0 <= m <= 2 ^ 53 -> (0 < e -> 2 ^ 52 <= m) ->
  round_mag (inject_Z (m * 2 ^ e)) = m * 2 ^ e.
Proof.
  intros He Hm Hlo. unfold round_mag, ulp_exp. rewrite Qfloor_Z.
  pose proof (Z.pow_pos_nonneg 2 e ltac:(lia) He) as Hpe.
  assert (H52 : 0 < 2 ^ 52) by reflexivity.
  assert (H53 : 2 ^ 53 = 2 ^ 52 * 2) by reflexivity.
  destruct (Z.eq_dec m 0) as [->|Hm0].
  { assert (e = 0) by lia. subst e. reflexivity. }
  rewrite Z.log2_mul_pow2 by lia.
  destruct (Z.eq_dec m (2 ^ 53)) as [->|Hm53].
  - rewrite Z.log2_pow2 by lia.
    replace (Z.max 0 (e + 53 - 52)) with (e + 1) by lia.
    replace (2 ^ 53 * 2 ^ e) with (2 ^ 52 * 2 ^ (e + 1))
      by (rewrite Z.pow_add_r by lia; change (2 ^ 53) with (2 ^ 52 * 2); ring).
    assert (He1 : 0 <= e + 1) by lia.
    rewrite (RNE_comp _ _ (Qdiv_pow2_Z (2 ^ 52) (e + 1) He1)), RNE_Z.
    reflexivity.
  - assert (Hl : Z.log2 m < 53) by (apply Z.log2_lt_pow2; lia).
    assert (Hl' : 0 < e -> 52 <= Z.log2 m).
    { intros H. apply Z.log2_le_pow2; [lia|]. auto. }
    replace (Z.max 0 (e + Z.log2 m - 52)) with e by lia.
    rewrite (RNE_comp _ _ (Qdiv_pow2_Z _ _ He)), RNE_Z. reflexivity.
Qed.

Lemma round_mag_idem (x : Q) :
  (0 <= x)%Q -> round_mag (inject_Z (round_mag x)) = round_mag x.
Proof.
  intros Hx. unfold round_mag at 2 3.
  apply round_mag_exact.
  - apply ulp_exp_nonneg.
  - split; [apply scaled_mantissa_nonneg; auto | apply scaled_mantissa_le].
  - apply scaled_mantissa_ge.
Qed.

Lemma threshold_pos : 0 < overflow_threshold.
Proof. reflexivity. Qed.

Lemma scale_pos : (0 < inject_Z (Zpos scale))%Q.
Proof. reflexivity. Qed.

Lemma mag_nonneg (q : Q) : (0 <= Qabs q * inject_Z (Zpos scale))%Q.
Proof.
  apply Qmult_le_0_compat; [apply Qabs_nonneg | apply Qlt_le_weak, scale_pos].
Qed.

Lemma mag_mono (p q : Q) :
  (Qabs p <= Qabs q)%Q ->
  round_mag (Qabs p * inject_Z (Zpos scale)) <=
  round_mag (Qabs q * inject_Z (Zpos scale)).
Proof.
  intros H. apply round_mag_mono, Qmult_le_compat_r; auto.
  apply Qlt_le_weak, scale_pos.
Qed.

Lemma mag_zero (q : Q) :
  (q == 0)%Q -> round_mag (Qabs q * inject_Z (Zpos scale)) = 0.
Proof.
  intros E.
  assert (E' : (Qabs q * inject_Z (Zpos scale) == inject_Z 0)%Q).
  { rewrite E. reflexivity. }
  rewrite (round_mag_comp _ _ E'). reflexivity.
Qed.

Lemma ext_round_Q (z : bool) (q : Q) :
  ext (round_Q z q) =
  signed (Qneg q z)
         (Z.min overflow_threshold
                (round_mag (Qabs q * inject_Z (Zpos scale)))).
Proof.
  unfold round_Q.
  pose proof (round_mag_nonneg _ (mag_nonneg q)) as H0.
  destruct (Z.leb_spec overflow_threshold
              (round_mag (Qabs q * inject_Z (Zpos scale)))) as [H|H]; simpl.
  - rewrite Z.min_l by lia. reflexivity.
  - rewrite Z.min_r by lia. rewrite Z2N.id by lia. reflexivity.
Qed.

Lemma round_Q_not_nan (z : bool) (q : Q) : round_Q z q <> NaN.
Proof. unfold round_Q. destruct (_ <=? _); discriminate. Qed.

Lemma round_Q_bounded (z : bool) (q : Q) : bounded (round_Q z q) = true.
Proof.
  unfold round_Q.
  pose proof (round_mag_nonneg _ (mag_nonneg q)) as H0.
  destruct (Z.leb_spec overflow_threshold
              (round_mag (Qabs q * inject_Z (Zpos scale)))) as [H|H]; simpl; auto.
  rewrite Z2N.id by lia. apply Z.ltb_lt; auto.
Qed.

Lemma round_Q_valid (z : bool) (q : Q) : valid (round_Q z q) = true.
Proof.
  unfold round_Q.
  pose proof (round_mag_nonneg _ (mag_nonneg q)) as H0.
  destruct (Z.leb_spec overflow_threshold
              (round_mag (Qabs q * inject_Z (Zpos scale)))) as [H|H]; simpl; auto.
  rewrite Z2N.id by lia. apply andb_true_intro; split.
  - apply Z.ltb_lt; auto.
  - apply Z.eqb_eq, round_mag_idem, mag_nonneg.
Qed.

(** Rounding is monotone on the extended line. *)
Lemma ext_round_Q_mono (z1 z2 : bool) (q1 q2 : Q) :
  (q1 <= q2)%Q -> ext (round_Q z1 q1) <= ext (round_Q z2 q2).
Proof.
  intros Hq. rewrite !ext_round_Q.
  pose proof (round_mag_nonneg _ (mag_nonneg q1)) as H1.
  pose proof (round_mag_nonneg _ (mag_nonneg q2)) as H2.
  pose proof threshold_pos as Ht.
  unfold Qneg.
  destruct (Qcompare_spec q1 0) as [E1|L1|G1];
  destruct (Qcompare_spec q2 0) as [E2|L2|G2];
    try (exfalso; lra).
  - rewrite (mag_zero q1 E1), (mag_zero q2 E2).
    rewrite Z.min_r by lia. destruct z1, z2; simpl; lia.
  - rewrite (mag_zero q1 E1). rewrite Z.min_r by lia.
    destruct z1; simpl; lia.
  - rewrite (mag_zero q2 E2). rewrite (Z.min_r _ 0) by lia.
    destruct z2; simpl; lia.
  - assert (Ha : (Qabs q2 <= Qabs q1)%Q).
    { rewrite (Qabs_neg q1), (Qabs_neg q2) by lra. lra. }
    pose proof (mag_mono q2 q1 Ha). simpl. lia.
  - simpl. lia.
  - assert (Ha : (Qabs q1 <= Qabs q2)%Q).
    { rewrite (Qabs_pos q1), (Qabs_pos q2) by lra. lra. }
    pose proof (mag_mono q1 q2 Ha). simpl. lia.
Qed.

Lemma Qcompare_same_den (a b : Z) (d : positive) :
  Qcompare (Qmake a d) (Qmake b d) = (a ?= b).
Proof.
  unfold Qcompare; simpl.
  destruct (Z.compare_spec a b) as [->|H|H].
  - apply Z.compare_refl.
  - apply Z.compare_lt_iff. nia.
  - apply Z.compare_gt_iff. nia.
Qed.

(** On doubles below the threshold, [<=] is the order of the extended line. *)
Lemma fle_ext (x y : float64) :
  bounded x = true -> bounded y = true -> x <> NaN -> y <> NaN ->
  fle x y = (ext x <=? ext y).
Proof.
  pose proof threshold_pos as Ht.
  intros Bx By Nx Ny. unfold fle, fcompare.
  destruct x as [s m|s|], y as [t n|t|]; try congruence; simpl in *.
  - rewrite Qcompare_same_den.
    destruct (Z.compare_spec (signed s (Z.of_N m)) (signed t (Z.of_N n)));
      symmetry; [apply Z.leb_le|apply Z.leb_le|apply Z.leb_gt]; lia.
  - apply Z.ltb_lt in Bx. destruct s, t; simpl; symmetry;
      try (apply Z.leb_le; lia); apply Z.leb_gt; lia.
  - apply Z.ltb_lt in By. destruct s, t; simpl; symmetry;
      try (apply Z.leb_le; lia); apply Z.leb_gt; lia.
  - destruct s, t; simpl; symmetry;
      try (apply Z.leb_le; lia); apply Z.leb_gt; lia.
Qed.

Lemma round_Q_mono (z1 z2 : bool) (q1 q2 : Q) :
  (q1 <= q2)%Q -> fle (round_Q z1 q1) (round_Q z2 q2) = true.
Proof.
  intros H.
  rewrite fle_ext; auto using round_Q_bounded, round_Q_not_nan.
  apply Z.leb_le, ext_round_Q_mono; auto.
Qed.

(** A valid finite double is the rounding of its own value. *)
Lemma round_Q_exact (s : bool) (m : N) :
  valid (Fin s m) = true -> round_Q s (F2Q (Fin s m)) = Fin s m.
Proof.
  simpl. intros H. apply andb_prop in H as [Hb Hr].
  apply Z.ltb_lt in Hb. apply Z.eqb_eq in Hr.
  unfold round_Q.
  assert (E : (Qabs (signed s (Z.of_N m) # scale) * inject_Z (Zpos scale)
               == inject_Z (Z.of_N m))%Q).
  { assert (Ea : (Qabs (signed s (Z.of_N m) # scale)
                  == Z.of_N m # scale)%Q).
    { destruct s; unfold Qeq, Qabs, signed; simpl; lia. }
    rewrite Ea. unfold Qeq, Qmult, inject_Z; simpl. lia. }
  rewrite (round_mag_comp _ _ E), Hr.
  destruct (Z.leb_spec overflow_threshold (Z.of_N m)); [lia|].
  rewrite N2Z.id. f_equal.
  unfold Qneg. destruct (Qcompare_spec (signed s (Z.of_N m) # scale) 0) as [H0|H0|H0];
    auto; unfold Qlt in H0; simpl in H0; destruct s; simpl in *; lia.
Qed.

(** ** Arithmetic of doubles and of Python numbers *)

Lemma Qneg_comp (p q : Q) (z : bool) : (p == q)%Q -> Qneg p z = Qneg q z.
Proof.
  intros E. unfold Qneg.
  rewrite (Qcompare_comp _ _ E 0%Q 0%Q (Qeq_refl _)). reflexivity.
Qed.

Lemma round_Q_comp (z : bool) (p q : Q) :
  (p == q)%Q -> round_Q z p = round_Q z q.
Proof.
  intros E. unfold round_Q.
  assert (E' : (Qabs p * inject_Z (Zpos scale) ==
                Qabs q * inject_Z (Zpos scale))%Q) by (rewrite E; reflexivity).
  rewrite (round_mag_comp _ _ E'), (Qneg_comp _ _ z E). reflexivity.
Qed.

Lemma fmul_comm (x y : float64) : fmul x y = fmul y x.
Proof.
  destruct x as [s m|s|], y as [t n|t|]; simpl; auto;
    rewrite (xorb_comm s t); auto.
  apply round_Q_comp, Qmult_comm.
Qed.

Lemma fmul_valid (x y : float64) : valid (fmul x y) = true.
Proof.
  destruct x as [s m|s|], y as [t n|t|]; simpl; auto;
    try (destruct (_ =? _)%N; reflexivity).
  apply round_Q_valid.
Qed.

Lemma F2Q_one : (F2Q one == 1)%Q.
Proof. reflexivity. Qed.

(** Multiplying a double by 1.0 changes nothing. *)
Lemma fmul_one_r (x : float64) : valid x = true -> fmul x one = x.
Proof.
  intros V. destruct x as [s m|s|]; auto.
  - unfold fmul, one. rewrite xorb_false_r.
    rewrite <- (round_Q_exact s m V) at 2.
    apply round_Q_comp. rewrite F2Q_one. ring.
  - simpl. rewrite xorb_false_r. reflexivity.
Qed.

Lemma Ok_inj {A : Type} (a b : A) : Ok a = Ok b -> a = b.
Proof. intros H. injection H. auto. Qed.

Lemma int_to_float_1 : int_to_float 1 = Ok one.
Proof. vm_compute. reflexivity. Qed.

(** The conversions and the operations [*] and [+] raise nothing but
    [OverflowError]. *)
Lemma int_to_float_overflow_only (n : Z) : overflow_only (int_to_float n).
Proof. unfold int_to_float. destruct (round_Q _ _); simpl; auto. Qed.

Lemma to_float_overflow_only (a : pynum) : overflow_only (to_float a).
Proof. destruct a; simpl; auto. apply int_to_float_overflow_only. Qed.

Lemma num_mul_overflow_only (a b : pynum) : overflow_only (num_mul a b).
Proof.
  pose proof (to_float_overflow_only a) as Ha.
  pose proof (to_float_overflow_only b) as Hb.
  destruct a, b; simpl in *; auto;
    repeat match goal with
           | |- context [int_to_float ?n] =>
               destruct (int_to_float n); simpl in *; auto
           end.
Qed.

Lemma num_add_overflow_only (a b : pynum) : overflow_only (num_add a b).
Proof.
  pose proof (to_float_overflow_only a) as Ha.
  pose proof (to_float_overflow_only b) as Hb.
  destruct a, b; simpl in *; auto;
    repeat match goal with
           | |- context [int_to_float ?n] =>
               destruct (int_to_float n); simpl in *; auto
           end.
Qed.

Lemma num_mul_comm (a b : pynum) : num_mul a b = num_mul b a.
Proof.
  pose proof (to_float_overflow_only a) as Ha.
  pose proof (to_float_overflow_only b) as Hb.
  destruct a as [m|x], b as [n|y]; simpl in *.
  - rewrite Z.mul_comm. reflexivity.
  - destruct (int_to_float m); simpl in *; [rewrite fmul_comm|]; auto.
  - destruct (int_to_float n); simpl in *; [rewrite fmul_comm|]; auto.
  - rewrite fmul_comm. reflexivity.
Qed.

(** ** Finite results and their order *)

Lemma F2Q_ext (s : bool) (m : N) : F2Q (Fin s m) = Qmake (ext (Fin s m)) scale.
Proof. reflexivity. Qed.

Lemma Qle_same_den (a b : Z) (d : positive) :
  (Qmake a d <= Qmake b d)%Q <-> a <= b.
Proof. unfold Qle; simpl. nia. Qed.

Lemma Qlt_same_den (a b : Z) (d : positive) :
  (Qmake a d < Qmake b d)%Q <-> a < b.
Proof. unfold Qlt; simpl. nia. Qed.

Lemma ext_exact (s : bool) (m : N) :
  valid (Fin s m) = true -> ext (round_Q s (F2Q (Fin s m))) = ext (Fin s m).
Proof. intros V. rewrite (round_Q_exact s m V). reflexivity. Qed.

Lemma valid_bounded (x : float64) : valid x = true -> bounded x = true.
Proof.
  destruct x; simpl; auto. intros H. apply andb_prop in H as [H _]. exact H.
Qed.

Lemma bounded_ext (s : bool) (m : N) :
  bounded (Fin s m) = true ->
  - overflow_threshold < ext (Fin s m) < overflow_threshold.
Proof.
  simpl. intros H. apply Z.ltb_lt in H. destruct s; simpl; lia.
Qed.

(** A result between two doubles is finite and stays between them. *)
Lemma round_Q_between (z : bool) (q : Q) (lo hi : float64) :
  valid lo = true -> valid hi = true ->
  is_finite lo = true -> is_finite hi = true ->
  (F2Q lo <= q)%Q -> (q <= F2Q hi)%Q ->
  exists s m, round_Q z q = Fin s m /\
              (F2Q lo <= F2Q (Fin s m))%Q /\ (F2Q (Fin s m) <= F2Q hi)%Q.
Proof.
  intros Vlo Vhi Flo Fhi Hlo Hhi.
  destruct lo as [sl ml| |]; try discriminate.
  destruct hi as [sh mh| |]; try discriminate.
  pose proof (ext_round_Q_mono sl z _ _ Hlo) as H1.
  pose proof (ext_round_Q_mono z sh _ _ Hhi) as H2.
  rewrite (ext_exact _ _ Vlo) in H1. rewrite (ext_exact _ _ Vhi) in H2.
  pose proof (bounded_ext _ _ (valid_bounded _ Vlo)) as Bl.
  pose proof (bounded_ext _ _ (valid_bounded _ Vhi)) as Bh.
  pose proof (round_Q_not_nan z q) as Hn.
  destruct (round_Q z q) as [s m|s|]; [|exfalso|congruence].
  - exists s, m. rewrite !F2Q_ext, !Qle_same_den. auto.
  - unfold ext in *. destruct s; unfold signed at 2 in H1;
      unfold signed at 1 in H2; lia.
Qed.

(** Rounding is monotone on finite results. *)
Lemma round_Q_le (z1 z2 : bool) (q1 q2 : Q) (x1 x2 : float64) :
  round_Q z1 q1 = x1 -> round_Q z2 q2 = x2 ->
  is_finite x1 = true -> is_finite x2 = true ->
  (q1 <= q2)%Q -> (F2Q x1 <= F2Q x2)%Q.
Proof.
  intros E1 E2 F1 F2 H.
  pose proof (ext_round_Q_mono z1 z2 _ _ H) as Hm. rewrite E1, E2 in Hm.
  destruct x1 as [s1 m1| |]; try discriminate.
  destruct x2 as [s2 m2| |]; try discriminate.
  rewrite !F2Q_ext, Qle_same_den. exact Hm.
Qed.

Lemma round_Q_sign_nonneg (q : Q) (s : bool) (m : N) :
  (0 <= q)%Q -> round_Q false q = Fin s m -> s = false.
Proof.
  intros Hq. unfold round_Q, Qneg.
  destruct (Qcompare_spec q 0) as [E|L|G]; try (exfalso; lra);
    destruct (_ <=? _); congruence.
Qed.

Lemma fle_finite (x y : float64) :
  is_finite x = true -> is_finite y = true ->
  fle x y = true <-> (F2Q x <= F2Q y)%Q.
Proof.
  destruct x as [s m| |], y as [t n| |]; try discriminate. intros _ _.
  unfold fle, fcompare.
  destruct (Qcompare_spec (F2Q (Fin s m)) (F2Q (Fin t n))) as [E|L|G];
    split; intros H; auto; try discriminate; try lra.
Qed.

Lemma flt_ext (x y : float64) :
  bounded x = true -> bounded y = true -> x <> NaN -> y <> NaN ->
  flt x y = (ext x <? ext y).
Proof.
  pose proof threshold_pos as Ht.
  intros Bx By Nx Ny. unfold flt, fcompare.
  destruct x as [s m|s|], y as [t n|t|]; try congruence; simpl in *.
  - rewrite Qcompare_same_den.
    destruct (Z.compare_spec (signed s (Z.of_N m)) (signed t (Z.of_N n)));
      symmetry; [apply Z.ltb_ge|apply Z.ltb_lt|apply Z.ltb_ge]; lia.
  - apply Z.ltb_lt in Bx. destruct s, t; simpl; symmetry;
      try (apply Z.ltb_lt; lia); apply Z.ltb_ge; lia.
  - apply Z.ltb_lt in By. destruct s, t; simpl; symmetry;
      try (apply Z.ltb_lt; lia); apply Z.ltb_ge; lia.
  - destruct s, t; simpl; symmetry;
      try (apply Z.ltb_lt; lia); apply Z.ltb_ge; lia.
Qed.

(** A result is at most any double its exact value is at most. *)
Lemma round_Q_upper (z : bool) (q : Q) (hi : float64) :
  valid hi = true -> is_finite hi = true -> (q <= F2Q hi)%Q ->
  ext (round_Q z q) <= ext hi.
Proof.
  intros V F H. destruct hi as [s m| |]; try discriminate.
  rewrite <- (ext_exact s m V). apply ext_round_Q_mono; auto.
Qed.

Lemma round_Q_lower (z : bool) (q : Q) (lo : float64) :
  valid lo = true -> is_finite lo = true -> (F2Q lo <= q)%Q ->
  ext lo <= ext (round_Q z q).
Proof.
  intros V F H. destruct lo as [s m| |]; try discriminate.
  rewrite <- (ext_exact s m V). apply ext_round_Q_mono; auto.
Qed.

Lemma F2Q_le_ext (x y : float64) :
  is_finite x = true -> is_finite y = true ->
  (F2Q x <= F2Q y)%Q <-> ext x <= ext y.
Proof.
  destruct x as [s m| |], y as [t n| |]; try discriminate. intros _ _.
  rewrite !F2Q_ext. apply Qle_same_den.
Qed.

(** Two valid doubles of the same sign and value are the same datum. *)
Lemma F2Q_inj (s : bool) (m n : N) :
  (F2Q (Fin s m) == F2Q (Fin s n))%Q -> Fin s m = Fin s n.
Proof.
  unfold F2Q, Qeq; simpl. intros H. f_equal.
  destruct s; simpl in H; nia.
Qed.

(** ** Agreement with the Standard Library's IEEE-754 operations

    On sample operands, among them ties, subnormal results, underflow and
    overflow, the operations above give bit for bit what [SFmul], [SFadd]
    and [SFdiv] of [SpecFloat] give at precision 53 and maximal exponent
    1024. *)

Example fmul_agrees :
  let both (f : float64 * float64 -> spec_float) := map f
    [ (literal 50 0, literal 115 2); (literal 3 1, literal 7 0);
      (literal 1 1, literal 1 1); (fneg (literal 10 0), literal 27 1);
      (two_pow false 1000, two_pow false 100);
      (two_pow false (-1000), two_pow true (-100));
      (two_pow false (-1000), literal 3 1);
      (Fin false 3, literal 5 1); (Fin false 1, literal 5 1);
      (literal 123456789 0, literal 987654321 3) ] in
  both (fun '(x, y) => to_spec (fmul x y)) =
  both (fun '(x, y) => SFmul 53 1024 (to_spec x) (to_spec y)).
Proof. vm_compute. reflexivity. Qed.

Example fadd_agrees :
  let both (f : float64 * float64 -> spec_float) := map f
    [ (literal 1 1, literal 2 1); (literal 10 0, literal 2 0);
      (two_pow false 53, literal 1 0); (two_pow false 53, literal 3 0);
      (two_pow false 1023, two_pow false 1023);
      (literal 1 0, two_pow true (-60)); (Fin false 3, Fin true 1);
      (literal 666 0, fneg (literal 125 3)) ] in
  both (fun '(x, y) => to_spec (fadd x y)) =
  both (fun '(x, y) => SFadd 53 1024 (to_spec x) (to_spec y)).
Proof. vm_compute. reflexivity. Qed.

Example fdiv_agrees :
  let both (f : float64 * float64 -> spec_float) := map f
    [ (literal 1 0, literal 3 0); (literal 3600 0, literal 3600 0);
      (literal 86399999999 6, literal 3600 0);
      (fneg (literal 1 6), literal 3600 0);
      (literal 12345678 2, literal 1000 0);
      (Fin false 1, literal 2 0); (Fin false 3, literal 2 0);
      (two_pow false 1023, two_pow false (-10)) ] in
  both (fun '(x, y) => to_spec (fdiv x y)) =
  both (fun '(x, y) => SFdiv 53 1024 (to_spec x) (to_spec y)).
Proof. vm_compute. reflexivity. Qed.

Example literal_bits :
  to_spec (literal 115 2) = S754_finite false 5179139571476070 (-52) /\
  to_spec (literal 3 1) = S754_finite false 5404319552844595 (-54) /\
  to_spec (literal 15 1) = S754_finite false 6755399441055744 (-52).
Proof. split; [|split]; vm_compute; reflexivity. Qed.

(** ** Sample runs of the formatters *)

Example format_number_samples (w : World) :
  format_number (PyFloat (literal 1234567 2)) w = Ok "12.3K" /\
  format_number (PyFloat (literal 999999 3)) w = Ok "1000.00" /\
  format_number (PyInt 5) w = Ok "5.00" /\
  format_number (PyFloat (Fin true 0)) w = Ok "-0.00" /\
  format_number (PyInt 123456789012) w = Ok "123.5B".
Proof. split; [|split; [|split; [|split]]]; vm_compute; reflexivity. Qed.

Example format_time_samples (w : World) :
  format_time (PyFloat (literal 25 1)) w = Ok "2ч 30м" /\
  format_time (PyFloat (literal 75 2)) w = Ok "45м" /\
  format_time (PyInt 3) w = Ok "3ч".
Proof. split; [|split]; vm_compute; reflexivity. Qed.

(** ** Sample values

    The values CPython 3.11 prints for the same expressions. *)

Example pow_samples :
  float_pow_int (L := correctly_rounded) (literal 115 2) 2 =
    Ok (literal 13224999999999998 16) /\
  float_pow_int (L := correctly_rounded) (literal 115 2) 5 =
    Ok (literal 20113571874999994 16) /\
  float_pow_int (L := correctly_rounded) (literal 11 1) 3 =
    Ok (literal 13310000000000004 16).
Proof. split; [|split]; vm_compute; reflexivity. Qed.

(** Where the exact power lies halfway between two doubles the libraries
    part: [1.28125 ** 10] is [13422659310152401 / 2^50] exactly, which
    rounds to the even [13422659310152400 / 2^50]; the GNU C library
    returns [13422659310152402 / 2^50], as the library that errs upwards
    does.  With a base cost of [2^50] these are the costs. *)
Example pow_at_a_tie (w : World) :
  (F2Q (literal 128125 5) == 41 # 32)%Q /\
  (Qpower (41 # 32) 10 == 13422659310152401 # (2 ^ 50))%Q /\
  float_pow_int (L := correctly_rounded) (literal 128125 5) 10 =
    Ok (Fin false (Z.to_N (13422659310152400 * 2 ^ 1024))) /\
  float_pow_int (L := rounded_above) (literal 128125 5) 10 =
    Ok (Fin false (Z.to_N (13422659310152402 * 2 ^ 1024))) /\
  calculate_upgrade_cost (L := correctly_rounded) (PyFloat (two_pow false 50))
    10 (PyFloat (literal 128125 5)) w = Ok 13422659310152400 /\
  calculate_upgrade_cost (L := rounded_above) (PyFloat (two_pow false 50))
    10 (PyFloat (literal 128125 5)) w = Ok 13422659310152402.
Proof.
  split; [vm_compute; reflexivity|]. split; [vm_compute; reflexivity|].
  split; [vm_compute; reflexivity|]. split; [vm_compute; reflexivity|].
  split; vm_compute; reflexivity.
Qed.

Example round_samples :
  float_round2 (literal 125 3) = Ok (literal 12 2) /\
  float_round2 (literal 2675 3) = Ok (literal 267 2) /\
  float_round2 (fneg (literal 1 3)) = Ok (Fin true 0) /\
  float_round2 (literal 1005 3) = Ok (literal 1 0).
Proof. split; [|split; [|split]]; vm_compute; reflexivity. Qed.

Example reward_samples (w : World) :
  calculate_minigame_reward 33 "speed_tap" w = Ok (PyFloat (literal 99 1)) /\
  calculate_minigame_reward 57 "speed_tap" w =
    Ok (PyFloat (literal 2565 2)) /\
  calculate_minigame_reward 101 "speed_tap" w =
    Ok (PyFloat (literal 4545 2)) /\
  calculate_minigame_reward 120 "memory" w = Ok (PyFloat (literal 180 0)).
Proof. split; [|split; [|split]]; vm_compute; reflexivity. Qed.

(** ** Achievement conditions *)

Lemma check_total_earned (progress : gmap string pynum) (a : Achievement)
    (w : World) :
  condition_type a = "total_earned" ->
  check_achievement_progress progress a w =
  Ok (num_ge (dict_get progress "total_earned" (PyInt 0)) (condition_value a)).
Proof. intros E. unfold check_achievement_progress. rewrite E. reflexivity. Qed.

Lemma check_upgrades_count (progress : gmap string pynum) (a : Achievement)
    (w : World) :
  condition_type a = "upgrades_count" ->
  check_achievement_progress progress a w =
  Ok (num_ge (dict_get progress "upgrades_count" (PyInt 0))
             (condition_value a)).
Proof. intros E. unfold check_achievement_progress. rewrite E. reflexivity. Qed.

(** C3, as the code has it: an achievement of type [guests_served] is
    answered with the plain boolean [False], whatever the progress and the
    threshold; the result type has no third outcome. *)
Theorem guests_served_is_plain_false (progress : gmap string pynum)
    (a : Achievement) (w : World) :
  condition_type a = "guests_served" ->
  check_achievement_progress progress a w = Ok false.
Proof. intros E. unfold check_achievement_progress. rewrite E. reflexivity. Qed.

Lemma guests_served_is_plain_false_witness :
  check_achievement_progress
    (<["total_earned" := PyFloat (literal 150 0)]> ∅)
    {| condition_type := "guests_served";
       condition_value := PyFloat (literal 10 0) |}
    {| clock := 0; settings := default_settings |} = Ok false.
Proof.
  apply (guests_served_is_plain_false
           (<["total_earned" := PyFloat (literal 150 0)]> ∅)
           {| condition_type := "guests_served";
              condition_value := PyFloat (literal 10 0) |}
           {| clock := 0; settings := default_settings |}).
  reflexivity.
Defined.

(** C3 refuted as stated: with 150 earned, the unsupported condition
    [guests_served >= 10] and the unmet condition [total_earned >= 1000] give
    the same answer, so a caller cannot tell them apart. *)
Lemma guests_served_indistinguishable :
  let progress : gmap string pynum :=
    <["total_earned" := PyFloat (literal 150 0)]> ∅ in
  let w := {| clock := 0; settings := default_settings |} in
  check_achievement_progress progress
    {| condition_type := "guests_served";
       condition_value := PyFloat (literal 10 0) |} w = Ok false /\
  check_achievement_progress progress
    {| condition_type := "total_earned";
       condition_value := PyFloat (literal 1000 0) |} w = Ok false /\
  ~ (check_achievement_progress progress
       {| condition_type := "guests_served";
          condition_value := PyFloat (literal 10 0) |} w <>
     check_achievement_progress progress
       {| condition_type := "total_earned";
          condition_value := PyFloat (literal 1000 0) |} w).
Proof.
  assert (H1 : check_achievement_progress
                 (<["total_earned" := PyFloat (literal 150 0)]> ∅)
                 {| condition_type := "guests_served";
                    condition_value := PyFloat (literal 10 0) |}
                 {| clock := 0; settings := default_settings |} = Ok false)
    by reflexivity.
  assert (H2 : check_achievement_progress
                 (<["total_earned" := PyFloat (literal 150 0)]> ∅)
                 {| condition_type := "total_earned";
                    condition_value := PyFloat (literal 1000 0) |}
                 {| clock := 0; settings := default_settings |} = Ok false)
    by (vm_compute; reflexivity).
  cbv zeta. rewrite H1, H2. split; [|split]; auto.
Qed.

(** C10: when the progress snapshot lacks the field a [total_earned] or
    [upgrades_count] condition reads, the check raises nothing and answers
    [0 >= condition_value]: true exactly when the threshold is at most 0. *)
Theorem missing_progress_field_counts_as_zero
    (progress : gmap string pynum) (a : Achievement) (w : World) :
  (condition_type a = "total_earned" \/
   condition_type a = "upgrades_count") ->
  progress !! condition_type a = None ->
  check_achievement_progress progress a w =
    Ok (num_le (condition_value a) (PyInt 0)) /\
  (forall n, condition_value a = PyInt n ->
     check_achievement_progress progress a w = Ok (n <=? 0)) /\
  (forall s m, condition_value a = PyFloat (Fin s m) ->
     check_achievement_progress progress a w =
       Ok (Qle_bool (F2Q (Fin s m)) 0)).
Proof.
  intros Ht Hnone.
  assert (E : check_achievement_progress progress a w =
              Ok (num_le (condition_value a) (PyInt 0))).
  { destruct Ht as [Ht|Ht]; rewrite Ht in Hnone.
    - rewrite (check_total_earned _ _ _ Ht). unfold dict_get.
      rewrite Hnone. reflexivity.
    - rewrite (check_upgrades_count _ _ _ Ht). unfold dict_get.
      rewrite Hnone. reflexivity. }
  split; [exact E|]. split.
  - intros n Hn. rewrite E, Hn. reflexivity.
  - intros s m Hv. rewrite E, Hv. unfold num_le, num_compare. f_equal.
    unfold int_float_compare.
    change (CompOpp <$> Some (inject_Z 0 ?= F2Q (Fin s m))%Q)
      with (Some (CompOpp (inject_Z 0 ?= F2Q (Fin s m))%Q)).
    unfold Qle_bool, Qcompare. rewrite <- Z.compare_antisym. unfold Z.leb.
    destruct (_ ?= _); reflexivity.
Qed.

Lemma missing_progress_field_counts_as_zero_witness :
  check_achievement_progress ∅
    {| condition_type := "upgrades_count"; condition_value := PyInt 1 |}
    {| clock := 0; settings := default_settings |} = Ok false.
Proof.
  destruct (missing_progress_field_counts_as_zero ∅
              {| condition_type := "upgrades_count";
                 condition_value := PyInt 1 |}
              {| clock := 0; settings := default_settings |})
    as [H _].
  - right. reflexivity.
  - reflexivity.
  - exact H.
Defined.

(** ** Leaderboard rank *)

(** The rank query always yields its single row, so [get_user_rank] always
    returns an integer: one more than the number of rows strictly above the
    target's [total_earned]. *)
Lemma get_user_rank_some (user_progress : list progress_row) (uid : Z) :
  get_user_rank user_progress uid =
  Some (Z.of_nat
          (length
             (List.filter
                (fun r =>
                   sql_true
                     (sql_gt (total_earned r)
                             (select_total_earned user_progress uid)))
                user_progress)) + 1).
Proof. reflexivity. Qed.

Lemma select_total_earned_absent (user_progress : list progress_row)
    (uid : Z) :
  Forall (fun r => user_id r <> uid) user_progress ->
  select_total_earned user_progress uid = None.
Proof.
  intros H. unfold select_total_earned.
  replace (List.filter (fun r => user_id r =? uid) user_progress)
    with (@nil progress_row); auto.
  induction H as [|r rest Hr _ IH]; simpl; auto.
  destruct (Z.eqb_spec (user_id r) uid); [contradiction|auto].
Qed.

Lemma nothing_above_null (rows : list progress_row) :
  List.filter (fun r => sql_true (sql_gt (total_earned r) None)) rows = [].
Proof.
  induction rows as [|r rest IH]; simpl; auto.
  destruct (total_earned r); simpl; auto.
Qed.

(** A player without a progress record is ranked first: the subquery is
    NULL, no row compares above NULL, and the count plus one is 1. *)
Lemma get_user_rank_absent (user_progress : list progress_row) (uid : Z) :
  Forall (fun r => user_id r <> uid) user_progress ->
  get_user_rank user_progress uid = Some 1.
Proof.
  intros H. rewrite get_user_rank_some, (select_total_earned_absent _ _ H).
  rewrite nothing_above_null. reflexivity.
Qed.

(** C4, at the failing input: two players hold progress records, player 3
    holds none, and [get_user_rank] answers rank 1 for player 3 instead of
    [None]; for a recorded player it answers the integer rank. *)
Theorem get_user_rank_unrecorded_player :
  let user_progress :=
    [ {| user_id := 1; total_earned := Some (literal 100 0) |};
      {| user_id := 2; total_earned := Some (literal 50 0) |} ] in
  get_user_rank user_progress 3 = Some 1 /\
  get_user_rank [] 3 = Some 1 /\
  get_user_rank user_progress 1 = Some 1 /\
  get_user_rank user_progress 2 = Some 2.
Proof. vm_compute. auto. Qed.

(** ** Minigame reward *)

Lemma multipliers_lookup (game_type : string) :
  default (literal 5 1) (multipliers !! game_type) = Spec.per_point game_type.
Proof.
  unfold multipliers, Spec.per_point.
  destruct (String.eqb_spec game_type "burger_flip") as [->|N1].
  { rewrite lookup_insert_eq. reflexivity. }
  rewrite lookup_insert_ne by congruence.
  destruct (String.eqb_spec game_type "speed_tap") as [->|N2].
  { rewrite lookup_insert_eq. reflexivity. }
  rewrite lookup_insert_ne by congruence.
  destruct (String.eqb_spec game_type "memory") as [->|N3].
  { rewrite lookup_insert_eq. reflexivity. }
  rewrite lookup_insert_ne by congruence.
  rewrite lookup_empty. reflexivity.
Qed.

Lemma num_mul_int_float (n : Z) (y : float64) :
  num_mul (PyInt n) (PyFloat y) =
  (x <- int_to_float n ;; Ok (PyFloat (fmul x y))).
Proof. reflexivity. Qed.

Lemma num_mul_float_float (x y : float64) :
  num_mul (PyFloat x) (PyFloat y) = Ok (PyFloat (fmul x y)).
Proof. reflexivity. Qed.

Lemma num_mul_float_one (x : float64) :
  valid x = true -> num_mul (PyFloat x) (PyInt 1) = Ok (PyFloat x).
Proof.
  intros V. unfold num_mul, to_float. rewrite int_to_float_1.
  unfold bind. rewrite (fmul_one_r x V). reflexivity.
Qed.

Lemma reward_above_50 (w : World) (score : Z) (game_type : string) :
  50 < score ->
  calculate_minigame_reward score game_type w =
  (base <- num_mul (PyInt score) (PyFloat (Spec.per_point game_type)) ;;
   reward <- num_mul base (PyFloat (literal 15 1)) ;;
   py_round2 reward).
Proof.
  intros H. unfold calculate_minigame_reward, lift.
  rewrite multipliers_lookup.
  destruct (Z.ltb_spec 50 score); [reflexivity | lia].
Qed.

Lemma reward_up_to_50 (w : World) (score : Z) (game_type : string) :
  score <= 50 ->
  calculate_minigame_reward score game_type w =
  (base <- num_mul (PyInt score) (PyFloat (Spec.per_point game_type)) ;;
   py_round2 base).
Proof.
  intros H. unfold calculate_minigame_reward, lift.
  rewrite multipliers_lookup.
  destruct (Z.ltb_spec 50 score); [lia|].
  destruct (Z.ltb_spec 100 score); [lia|].
  unfold bind. destruct (num_mul _ _); reflexivity.
Qed.

(** C8: the reward is [round(score * m * b, 2)] with [m] looked up by game
    type (0.5 for an unknown one) and [b] 1.5 above 50 points, 1 otherwise;
    above 100 points the factor is still 1.5, the [* 2.0] branch being
    unreachable; and 60 points at burger_flip pay 45.0. *)
Theorem minigame_reward_formula (w : World) (score : Z)
    (game_type : string) :
  calculate_minigame_reward score game_type w =
    Spec.computeReward_spec score game_type /\
  (100 < score ->
   calculate_minigame_reward score game_type w =
   (base <- num_mul (PyInt score) (PyFloat (Spec.per_point game_type)) ;;
    reward <- num_mul base (PyFloat (literal 15 1)) ;;
    py_round2 reward)) /\
  calculate_minigame_reward 60 "burger_flip" w = Ok (PyFloat (literal 45 0)).
Proof.
  split; [|split].
  - unfold Spec.computeReward_spec, Spec.bracket.
    destruct (Z.ltb_spec 50 score) as [H|H].
    + apply reward_above_50; auto.
    + rewrite (reward_up_to_50 w score game_type H).
      rewrite num_mul_int_float. unfold bind.
      destruct (int_to_float score) as [x|e]; [|reflexivity].
      rewrite (num_mul_float_one _ (fmul_valid x _)). reflexivity.
  - intros H. apply reward_above_50. lia.
  - vm_compute. reflexivity.
Qed.

Lemma minigame_reward_formula_witness :
  calculate_minigame_reward 120 "memory"
    {| clock := 0; settings := default_settings |} =
  Ok (PyFloat (literal 180 0)).
Proof.
  destruct (minigame_reward_formula
              {| clock := 0; settings := default_settings |} 120 "memory")
    as [_ [H _]].
  rewrite H.
  - vm_compute. reflexivity.
  - lia.
Defined.

(** ** Income aggregation *)

Lemma weighted_sum_from_overflow_only (bonus : string)
    (owned : list (gmap string pynum)) (acc : pynum) :
  overflow_only (Spec.weighted_sum_from acc bonus owned).
Proof.
  revert acc. induction owned as [|u rest IH]; intros acc; simpl; auto.
  pose proof (num_mul_overflow_only (dict_get u "level" (PyInt 0))
                                    (dict_get u bonus (PyInt 0))) as Hm.
  destruct (num_mul _ _) as [t|e]; simpl in *; auto.
  pose proof (num_add_overflow_only acc t) as Ha.
  destruct (num_add acc t) as [acc'|e]; simpl in *; auto.
Qed.

Ltac overflow_cases :=
  repeat match goal with
         | H : overflow_only (Raise _) |- _ => simpl in H; subst
         | H : overflow_only (Ok _) |- _ => clear H
         end.

(** The loop on two accumulators computes the two sums. *)
Lemma total_income_loop_sums (owned : list (gmap string pynum))
    (income_acc guests_acc : pynum) :
  total_income_loop owned income_acc guests_acc =
  (i <- Spec.weighted_sum_from income_acc "income_bonus" owned ;;
   g <- Spec.weighted_sum_from guests_acc "guests_bonus" owned ;;
   Ok (i, g)).
Proof.
  revert income_acc guests_acc.
  induction owned as [|u rest IH]; intros income_acc guests_acc.
  { reflexivity. }
  cbn [total_income_loop Spec.weighted_sum_from].
  rewrite (num_mul_comm (dict_get u "income_bonus" (PyInt 0))).
  rewrite (num_mul_comm (dict_get u "guests_bonus" (PyInt 0))).
  pose proof (num_mul_overflow_only (dict_get u "level" (PyInt 0))
                (dict_get u "income_bonus" (PyInt 0))) as H1.
  pose proof (num_mul_overflow_only (dict_get u "level" (PyInt 0))
                (dict_get u "guests_bonus" (PyInt 0))) as H2.
  destruct (num_mul (dict_get u "level" (PyInt 0))
                    (dict_get u "income_bonus" (PyInt 0))) as [di|e1];
    [|reflexivity].
  cbn [bind].
  pose proof (num_add_overflow_only income_acc di) as H3.
  destruct (num_add income_acc di) as [i1|e3]; [|reflexivity].
  cbn [bind].
  pose proof (weighted_sum_from_overflow_only "income_bonus" rest i1) as H5.
  destruct (num_mul (dict_get u "level" (PyInt 0))
                    (dict_get u "guests_bonus" (PyInt 0))) as [dg|e2].
  - cbn [bind].
    pose proof (num_add_overflow_only guests_acc dg) as H4.
    destruct (num_add guests_acc dg) as [g1|e4].
    + cbn [bind]. apply IH.
    + cbn [bind].
      destruct (Spec.weighted_sum_from i1 "income_bonus" rest);
        overflow_cases; reflexivity.
  - cbn [bind].
    destruct (Spec.weighted_sum_from i1 "income_bonus" rest);
      overflow_cases; reflexivity.
Qed.

(** On upgrades whose level and bonus are ints the sum is the exact
    integer sum. *)
Lemma weighted_sum_from_int (bonus : string)
    (owned : list (gmap string pynum)) (acc : Z) :
  Forall (fun u => Spec.is_int (dict_get u "level" (PyInt 0)) = true /\
                   Spec.is_int (dict_get u bonus (PyInt 0)) = true) owned ->
  Spec.weighted_sum_from (PyInt acc) bonus owned =
  Ok (PyInt (acc + Spec.int_weighted_sum bonus owned)).
Proof.
  intros H. revert acc.
  induction H as [|u rest [Hl Hb] _ IH]; intros acc; simpl.
  { rewrite Z.add_0_r. reflexivity. }
  destruct (dict_get u "level" (PyInt 0)) as [l|]; [|discriminate].
  destruct (dict_get u bonus (PyInt 0)) as [b|]; [|discriminate].
  simpl. rewrite IH. do 2 f_equal. lia.
Qed.

(** C7: the totals are the base values plus the sums of [level * bonus]
    over the owned upgrades, the base guests being the configured
    [INITIAL_GUESTS_PER_HOUR]; with int levels and int guest bonuses the
    guest total is the exact integer sum; and the example of the
    specification gives (12.0, 5). *)
Theorem total_income_is_base_plus_sums (w : World) (base_income : pynum)
    (upgrades : list (gmap string pynum)) :
  calculate_total_income base_income upgrades w =
    Spec.aggregate_spec base_income
      (INITIAL_GUESTS_PER_HOUR (settings w)) upgrades /\
  (Forall (fun u =>
             Spec.is_int (dict_get u "level" (PyInt 0)) = true /\
             Spec.is_int (dict_get u "guests_bonus" (PyInt 0)) = true)
          upgrades ->
   forall income guests,
     calculate_total_income base_income upgrades w = Ok (income, guests) ->
     guests = PyInt (INITIAL_GUESTS_PER_HOUR (settings w) +
                     Spec.int_weighted_sum "guests_bonus" upgrades)) /\
  calculate_total_income (PyInt 10) Spec.example_upgrades
    {| clock := clock w; settings := default_settings |} =
    Ok (PyFloat (literal 12 0), PyInt 5).
Proof.
  assert (E : calculate_total_income base_income upgrades w =
              Spec.aggregate_spec base_income
                (INITIAL_GUESTS_PER_HOUR (settings w)) upgrades).
  { unfold calculate_total_income, Spec.aggregate_spec, Spec.weighted_sum,
      ebind, lift, eret, setting.
    rewrite total_income_loop_sums.
    pose proof (weighted_sum_from_overflow_only "income_bonus" upgrades
                  (PyInt 0)) as H1.
    pose proof (weighted_sum_from_overflow_only "guests_bonus" upgrades
                  (PyInt 0)) as H2.
    destruct (Spec.weighted_sum_from (PyInt 0) "income_bonus" upgrades)
      as [si|e1]; [|reflexivity].
    cbn [bind].
    pose proof (num_add_overflow_only base_income si) as H3.
    destruct (Spec.weighted_sum_from (PyInt 0) "guests_bonus" upgrades)
      as [sg|e2]; cbn [bind fst snd].
    - reflexivity.
    - destruct (num_add base_income si); overflow_cases; reflexivity. }
  split; [exact E|]. split.
  - intros Hint income guests Hok. rewrite E in Hok.
    unfold Spec.aggregate_spec, Spec.weighted_sum in Hok.
    rewrite (weighted_sum_from_int "guests_bonus" upgrades 0 Hint) in Hok.
    destruct (Spec.weighted_sum_from (PyInt 0) "income_bonus" upgrades);
      [|discriminate].
    cbn [bind] in Hok.
    destruct (num_add base_income a); [|discriminate].
    cbn [bind num_add] in Hok. injection Hok as _ <-.
    rewrite Z.add_0_l. reflexivity.
  - vm_compute. reflexivity.
Qed.

Lemma total_income_is_base_plus_sums_witness :
  PyInt 5 =
  PyInt (2 + Spec.int_weighted_sum "guests_bonus" Spec.example_upgrades).
Proof.
  destruct (total_income_is_base_plus_sums
              {| clock := 0; settings := default_settings |}
              (PyInt 10) Spec.example_upgrades) as [_ [H E]].
  apply (H ltac:(repeat constructor) (PyFloat (literal 12 0)) (PyInt 5)).
  exact E.
Defined.

(** ** What the results depend on *)

(** C2 refuted as stated: the same arguments (10 per hour, collected at
    instant 0, at most 24 hours) give 10.0 for one hour when the clock
    stands at one hour and 20.0 for two hours when it stands at two. *)
Lemma offline_income_reads_the_clock :
  calculate_offline_income (PyFloat (literal 10 0)) 0 (Some 24)
    {| clock := 3600000000; settings := default_settings |} =
    Ok (PyFloat (literal 10 0), PyFloat (literal 1 0)) /\
  calculate_offline_income (PyFloat (literal 10 0)) 0 (Some 24)
    {| clock := 7200000000; settings := default_settings |} =
    Ok (PyFloat (literal 20 0), PyFloat (literal 2 0)) /\
  calculate_offline_income (PyFloat (literal 10 0)) 0 (Some 24)
    {| clock := 3600000000; settings := default_settings |} <>
  calculate_offline_income (PyFloat (literal 10 0)) 0 (Some 24)
    {| clock := 7200000000; settings := default_settings |}.
Proof. vm_compute. repeat split; auto. discriminate. Qed.

(** C2, as the code has it: the cost, the achievement check, the minigame
    reward and the two formatters are functions of their arguments alone;
    the income totals depend besides on the configured
    [INITIAL_GUESTS_PER_HOUR], and the offline income on the clock that
    [datetime.now()] reads and, when [max_hours] is not passed, on the
    configured [OFFLINE_INCOME_MAX_HOURS]. *)
Theorem engine_dependencies {L : Libm} (w1 w2 : World) :
  (forall base_cost level multiplier,
     calculate_upgrade_cost base_cost level multiplier w1 =
     calculate_upgrade_cost base_cost level multiplier w2) /\
  (forall progress achievement,
     check_achievement_progress progress achievement w1 =
     check_achievement_progress progress achievement w2) /\
  (forall score game_type,
     calculate_minigame_reward score game_type w1 =
     calculate_minigame_reward score game_type w2) /\
  (forall number, format_number number w1 = format_number number w2) /\
  (forall hours, format_time hours w1 = format_time hours w2) /\
  (INITIAL_GUESTS_PER_HOUR (settings w1) =
   INITIAL_GUESTS_PER_HOUR (settings w2) ->
   forall base_income upgrades,
     calculate_total_income base_income upgrades w1 =
     calculate_total_income base_income upgrades w2) /\
  (clock w1 = clock w2 ->
   forall income_per_hour last_collected max_hours,
     calculate_offline_income income_per_hour last_collected
       (Some max_hours) w1 =
     calculate_offline_income income_per_hour last_collected
       (Some max_hours) w2) /\
  (clock w1 = clock w2 ->
   OFFLINE_INCOME_MAX_HOURS (settings w1) =
   OFFLINE_INCOME_MAX_HOURS (settings w2) ->
   forall income_per_hour last_collected,
     calculate_offline_income income_per_hour last_collected None w1 =
     calculate_offline_income income_per_hour last_collected None w2).
Proof.
  split; [reflexivity|].
  split.
  { intros progress achievement. unfold check_achievement_progress.
    repeat match goal with
           | |- context [if ?b then _ else _] => destruct b
           end; reflexivity. }
  split; [reflexivity|].
  split; [reflexivity|].
  split; [reflexivity|].
  split.
  { intros Hg base_income upgrades.
    unfold calculate_total_income, ebind, setting. rewrite Hg. reflexivity. }
  split.
  { intros Hc income_per_hour last_collected max_hours.
    unfold calculate_offline_income, ebind, datetime_now. rewrite Hc.
    reflexivity. }
  intros Hc Hm income_per_hour last_collected.
  unfold calculate_offline_income, ebind, datetime_now, setting.
  rewrite Hc, Hm. reflexivity.
Qed.

Lemma engine_dependencies_witness :
  calculate_offline_income (PyFloat (literal 10 0)) 0 (Some 24)
    {| clock := 3600000000; settings := default_settings |} =
  calculate_offline_income (PyFloat (literal 10 0)) 0 (Some 24)
    {| clock := 3600000000;
       settings := {| INITIAL_INCOME_PER_HOUR := 10;
                      INITIAL_GUESTS_PER_HOUR := 7;
                      OFFLINE_INCOME_MAX_HOURS := 48 |} |} /\
  calculate_offline_income (PyFloat (literal 10 0)) 0 None
    {| clock := 3600000000; settings := default_settings |} =
  calculate_offline_income (PyFloat (literal 10 0)) 0 None
    {| clock := 3600000000;
       settings := {| INITIAL_INCOME_PER_HOUR := 10;
                      INITIAL_GUESTS_PER_HOUR := 7;
                      OFFLINE_INCOME_MAX_HOURS := 24 |} |} /\
  calculate_total_income (PyInt 10) Spec.example_upgrades
    {| clock := 0; settings := default_settings |} =
  calculate_total_income (PyInt 10) Spec.example_upgrades
    {| clock := 5;
       settings := {| INITIAL_INCOME_PER_HOUR := 10;
                      INITIAL_GUESTS_PER_HOUR := 2;
                      OFFLINE_INCOME_MAX_HOURS := 48 |} |}.
Proof.
  destruct (engine_dependencies (L := correctly_rounded)
              {| clock := 3600000000; settings := default_settings |}
              {| clock := 3600000000;
                 settings := {| INITIAL_INCOME_PER_HOUR := 10;
                                INITIAL_GUESTS_PER_HOUR := 7;
                                OFFLINE_INCOME_MAX_HOURS := 48 |} |})
    as (_ & _ & _ & _ & _ & _ & H1 & _).
  destruct (engine_dependencies (L := correctly_rounded)
              {| clock := 3600000000; settings := default_settings |}
              {| clock := 3600000000;
                 settings := {| INITIAL_INCOME_PER_HOUR := 10;
                                INITIAL_GUESTS_PER_HOUR := 7;
                                OFFLINE_INCOME_MAX_HOURS := 24 |} |})
    as (_ & _ & _ & _ & _ & _ & _ & H2).
  destruct (engine_dependencies (L := correctly_rounded)
              {| clock := 0; settings := default_settings |}
              {| clock := 5;
                 settings := {| INITIAL_INCOME_PER_HOUR := 10;
                                INITIAL_GUESTS_PER_HOUR := 2;
                                OFFLINE_INCOME_MAX_HOURS := 48 |} |})
    as (_ & _ & _ & _ & _ & H3 & _).
  split; [|split].
  - exact (H1 eq_refl _ _ _).
  - exact (H2 eq_refl eq_refl _ _).
  - exact (H3 eq_refl _ _).
Defined.

(** ** Elapsed time *)

Lemma Qdiv_Z_pos (a : Z) (p : positive) :
  (inject_Z a / inject_Z (Zpos p) == Qmake a p)%Q.
Proof. symmetry. apply Qmake_Qdiv. Qed.

Lemma valid_datetime_range (t : datetime) :
  valid_datetime t = true -> 0 <= t < 315537897600000000.
Proof.
  unfold valid_datetime. intros H. apply andb_prop in H as [H1 H2].
  apply Z.leb_le in H1. apply Z.ltb_lt in H2. lia.
Qed.

Lemma two_pow_40 :
  valid (two_pow false 40) = true /\ valid (two_pow true 40) = true /\
  (F2Q (two_pow false 40) == inject_Z (2 ^ 40))%Q /\
  (F2Q (two_pow true 40) == - inject_Z (2 ^ 40))%Q.
Proof. split; [|split; [|split]]; vm_compute; reflexivity. Qed.

Lemma two_pow_small :
  valid (two_pow true (-20)) = true /\ valid (two_pow true (-32)) = true /\
  (F2Q (two_pow true (-20)) == - (1 # 2 ^ 20))%Q /\
  (F2Q (two_pow true (-32)) == - (1 # 2 ^ 32))%Q.
Proof. split; [|split; [|split]]; vm_compute; reflexivity. Qed.

Lemma zero_valid : valid zero = true /\ (F2Q zero == 0)%Q.
Proof. split; vm_compute; reflexivity. Qed.

Lemma int_to_float_3600 :
  int_to_float 3600 = Ok (Fin false (3600 * Npos scale)).
Proof. vm_compute. reflexivity. Qed.

Lemma F2Q_3600 : (F2Q (Fin false (3600 * Npos scale)) == 3600)%Q.
Proof. vm_compute. reflexivity. Qed.

(** [total_seconds()] of a difference of two datetimes: the microseconds
    over a million, rounded once. *)
Lemma total_seconds_between_eq (t0 t1 : datetime) :
  valid_datetime t0 = true -> valid_datetime t1 = true ->
  exists s m,
    total_seconds_between t0 t1 = Ok (Fin s m) /\
    round_Q (t1 - t0 <? 0) (Qmake (t1 - t0) 1000000) = Fin s m /\
    (- inject_Z (2 ^ 40) <= F2Q (Fin s m) <= inject_Z (2 ^ 40))%Q.
Proof.
  intros V0 V1.
  apply valid_datetime_range in V0. apply valid_datetime_range in V1.
  destruct two_pow_40 as (Vp & Vn & Ep & En).
  destruct (round_Q_between (t1 - t0 <? 0) (Qmake (t1 - t0) 1000000)
              (two_pow true 40) (two_pow false 40))
    as (s & m & E & Hlo & Hhi); auto.
  - rewrite En. unfold Qle; simpl. lia.
  - rewrite Ep. unfold Qle; simpl. lia.
  - exists s, m. split; [|split; [exact E|]].
    + unfold total_seconds_between, int_truediv.
      change (10 ^ 6) with 1000000. change (1000000 =? 0) with false.
      change (1000000 <? 0) with false. rewrite xorb_false_r.
      rewrite (round_Q_comp _ _ _ (Qdiv_Z_pos (t1 - t0) 1000000)), E.
      reflexivity.
    + rewrite Ep in Hhi. rewrite En in Hlo. auto.
Qed.

Lemma hours_of_seconds (s : bool) (m : N) :
  num_truediv (PyFloat (Fin s m)) (PyInt 3600) =
  Ok (round_Q s (F2Q (Fin s m) / 3600)).
Proof.
  unfold num_truediv, to_float. rewrite int_to_float_3600.
  cbn [bind is_zero N.mul]. unfold fdiv. rewrite xorb_false_r.
  f_equal. apply round_Q_comp. rewrite F2Q_3600. reflexivity.
Qed.

(** The elapsed hours exist for any two datetimes, as a finite double
    obtained by two roundings. *)
Lemma elapsed_hours_eq (t0 t1 : datetime) :
  valid_datetime t0 = true -> valid_datetime t1 = true ->
  exists s m e,
    round_Q (t1 - t0 <? 0) (Qmake (t1 - t0) 1000000) = Fin s m /\
    round_Q s (F2Q (Fin s m) / 3600) = e /\
    elapsed_hours t0 t1 = Ok e /\ is_finite e = true /\ valid e = true.
Proof.
  intros V0 V1.
  destruct (total_seconds_between_eq t0 t1 V0 V1) as (s & m & E & R & Hlo & Hhi).
  destruct two_pow_40 as (Vp & Vn & Ep & En).
  destruct (round_Q_between s (F2Q (Fin s m) / 3600)
              (two_pow true 40) (two_pow false 40))
    as (s' & m' & E' & _); auto.
  - rewrite En. apply Qle_shift_div_l; [reflexivity|].
    assert (0 <= inject_Z (2 ^ 40))%Q by (vm_compute; discriminate). lra.
  - rewrite Ep. apply Qle_shift_div_r; [reflexivity|].
    assert (0 <= inject_Z (2 ^ 40))%Q by (vm_compute; discriminate). lra.
  - exists s, m, (Fin s' m'). split; [exact R|]. split; [exact E'|].
    split; [|split; [reflexivity|]].
    + unfold elapsed_hours. rewrite E. cbn [bind].
      rewrite hours_of_seconds, E'. reflexivity.
    + rewrite <- E'. apply round_Q_valid.
Qed.

Lemma F2Q_nonneg_of_sign (m : N) : (0 <= F2Q (Fin false m))%Q.
Proof. unfold F2Q, Qle; simpl. lia. Qed.

(** Elapsed hours are non-negative, with a cleared sign bit, when the
    second instant is not before the first. *)
Lemma elapsed_hours_nonneg (t0 t1 : datetime) (e : float64) :
  valid_datetime t0 = true -> valid_datetime t1 = true -> t0 <= t1 ->
  elapsed_hours t0 t1 = Ok e ->
  exists m, e = Fin false m.
Proof.
  intros V0 V1 Hle He.
  destruct (elapsed_hours_eq t0 t1 V0 V1) as (s & m & e' & R1 & R2 & E & F & V).
  rewrite E in He. injection He as <-.
  destruct (Z.ltb_spec (t1 - t0) 0) as [H|H]; [lia|].
  assert (Hs : s = false).
  { assert (Hq : (0 <= Qmake (t1 - t0) 1000000)%Q)
      by (unfold Qle; simpl; lia).
    exact (round_Q_sign_nonneg _ _ _ Hq R1). }
  subst s. destruct e' as [s' m'| |]; try discriminate.
  exists m'. f_equal.
  apply (round_Q_sign_nonneg (F2Q (Fin false m) / 3600) s' m'); auto.
  apply Qle_shift_div_l; [reflexivity|].
  pose proof (F2Q_nonneg_of_sign m). lra.
Qed.

(** Elapsed hours are monotone in the second instant. *)
Lemma elapsed_hours_mono (t0 t1 t2 : datetime) (e1 e2 : float64) :
  valid_datetime t0 = true -> valid_datetime t1 = true ->
  valid_datetime t2 = true -> t1 <= t2 ->
  elapsed_hours t0 t1 = Ok e1 -> elapsed_hours t0 t2 = Ok e2 ->
  (F2Q e1 <= F2Q e2)%Q.
Proof.
  intros V0 V1 V2 Hle H1 H2.
  destruct (elapsed_hours_eq t0 t1 V0 V1)
    as (s1 & m1 & e1' & R1 & R1' & E1 & F1 & _).
  destruct (elapsed_hours_eq t0 t2 V0 V2)
    as (s2 & m2 & e2' & R2 & R2' & E2 & F2 & _).
  rewrite E1 in H1. injection H1 as <-.
  rewrite E2 in H2. injection H2 as <-.
  assert (Hs : (F2Q (Fin s1 m1) <= F2Q (Fin s2 m2))%Q).
  { apply (round_Q_le _ _ _ _ _ _ R1 R2); auto.
    unfold Qle; simpl. lia. }
  apply (round_Q_le _ _ _ _ _ _ R1' R2'); auto.
  apply Qmult_le_compat_r; [exact Hs | vm_compute; discriminate].
Qed.

(** When the second instant is before the first, the elapsed hours are
    negative: at most [-2^-32]. *)
Lemma elapsed_hours_negative (t0 t1 : datetime) (e : float64) :
  valid_datetime t0 = true -> valid_datetime t1 = true -> t1 < t0 ->
  elapsed_hours t0 t1 = Ok e ->
  (F2Q e <= - (1 # 2 ^ 32))%Q.
Proof.
  intros V0 V1 Hlt He.
  destruct (elapsed_hours_eq t0 t1 V0 V1) as (s & m & e' & R1 & R2 & E & F & V).
  rewrite E in He. injection He as <-.
  destruct two_pow_small as (V20 & V32 & E20 & E32).
  assert (Hs : (F2Q (Fin s m) <= - (1 # 2 ^ 20))%Q).
  { rewrite <- E20. apply F2Q_le_ext; auto.
    rewrite <- R1. apply round_Q_upper; auto.
    rewrite E20. unfold Qle; simpl. lia. }
  rewrite <- E32. apply F2Q_le_ext; auto.
  rewrite <- R2. apply round_Q_upper; auto.
  rewrite E32. apply Qle_shift_div_r; [reflexivity|].
  eapply Qle_trans; [exact Hs|]. vm_compute. discriminate.
Qed.

(** ** Offline income *)

Lemma offline_income_unfold (income_per_hour : pynum)
    (last_collected : datetime) (max_hours : Z) (w : World) (e : float64) :
  elapsed_hours last_collected (clock w) = Ok e ->
  calculate_offline_income income_per_hour last_collected (Some max_hours) w =
  (income <- num_mul income_per_hour
                     (py_min (PyFloat e) (PyInt max_hours)) ;;
   Ok (income, py_min (PyFloat e) (PyInt max_hours))).
Proof.
  unfold elapsed_hours, calculate_offline_income, ebind, eret, lift,
    datetime_now.
  intros E. cbn [bind].
  destruct (total_seconds_between last_collected (clock w)) as [secs|];
    [|discriminate].
  cbn [bind] in *. rewrite E. reflexivity.
Qed.

Lemma offline_income_default_cap (income_per_hour : pynum)
    (last_collected : datetime) (w : World) :
  calculate_offline_income income_per_hour last_collected None w =
  calculate_offline_income income_per_hour last_collected
    (Some (OFFLINE_INCOME_MAX_HOURS (settings w))) w.
Proof. reflexivity. Qed.

(** [min(hours, max_hours)] on a finite [hours]. *)
Lemma py_min_cases (s : bool) (m : N) (max_hours : Z) :
  ((inject_Z max_hours < F2Q (Fin s m))%Q /\
   py_min (PyFloat (Fin s m)) (PyInt max_hours) = PyInt max_hours) \/
  ((F2Q (Fin s m) <= inject_Z max_hours)%Q /\
   py_min (PyFloat (Fin s m)) (PyInt max_hours) = PyFloat (Fin s m)).
Proof.
  unfold py_min, num_lt, num_compare, int_float_compare.
  destruct (Qcompare_spec (inject_Z max_hours) (F2Q (Fin s m))) as [E|L|G].
  - right. split; [rewrite E; apply Qle_refl | reflexivity].
  - left. split; [exact L | reflexivity].
  - right. split; [apply Qlt_le_weak; exact G | reflexivity].
Qed.

Lemma py_min_value (s : bool) (m : N) (max_hours : Z) :
  (num_Q (py_min (PyFloat (Fin s m)) (PyInt max_hours)) ==
   Qmin (F2Q (Fin s m)) (inject_Z max_hours))%Q.
Proof.
  destruct (py_min_cases s m max_hours) as [[H ->]|[H ->]]; simpl num_Q.
  - rewrite Q.min_r; [reflexivity | apply Qlt_le_weak; exact H].
  - rewrite Q.min_l; [reflexivity | exact H].
Qed.

Lemma two_pow_1023 :
  valid (two_pow false 1023) = true /\ valid (two_pow true 1023) = true /\
  (F2Q (two_pow false 1023) == inject_Z (2 ^ 1023))%Q /\
  (F2Q (two_pow true 1023) == - inject_Z (2 ^ 1023))%Q.
Proof. split; [|split; [|split]]; vm_compute; reflexivity. Qed.

(** [float(n)] exists for an int within the range of doubles. *)
Lemma int_to_float_finite (n : Z) :
  - 2 ^ 1023 <= n <= 2 ^ 1023 ->
  exists s m, int_to_float n = Ok (Fin s m) /\
              round_Q false (inject_Z n) = Fin s m.
Proof.
  intros H. destruct two_pow_1023 as (Vp & Vn & Ep & En).
  destruct (round_Q_between false (inject_Z n)
              (two_pow true 1023) (two_pow false 1023))
    as (s & m & E & _); auto.
  - rewrite En, <- inject_Z_opp, <- Zle_Qle. lia.
  - rewrite Ep, <- Zle_Qle. lia.
  - exists s, m. split; auto. unfold int_to_float. rewrite E. reflexivity.
Qed.

(** Multiplication by a finite non-negative double is monotone. *)
Lemma fmul_mono (r : float64) (s : bool) (m : N) (t : bool) (n : N) :
  is_finite r = true -> (0 <= F2Q r)%Q ->
  (F2Q (Fin s m) <= F2Q (Fin t n))%Q ->
  fle (fmul r (Fin s m)) (fmul r (Fin t n)) = true.
Proof.
  intros F H0 H. destruct r as [sr mr| |]; try discriminate.
  unfold fmul. apply round_Q_mono.
  rewrite !(Qmult_comm (F2Q (Fin sr mr))).
  apply Qmult_le_compat_r; auto.
Qed.

Lemma round_Q_zero : round_Q false 0 = zero.
Proof. vm_compute. reflexivity. Qed.

(** The product of a non-negative and a non-positive finite double is not
    positive. *)
Lemma fmul_nonpos (r e : float64) :
  is_finite r = true -> is_finite e = true ->
  (0 <= F2Q r)%Q -> (F2Q e <= 0)%Q -> fle (fmul r e) zero = true.
Proof.
  intros Fr Fe Hr He.
  destruct r as [sr mr| |], e as [se me| |]; try discriminate.
  unfold fmul. rewrite <- round_Q_zero. apply round_Q_mono.
  rewrite <- (Qmult_0_r (F2Q (Fin sr mr))).
  rewrite !(Qmult_comm (F2Q (Fin sr mr))).
  apply Qmult_le_compat_r; auto.
Qed.

Lemma two_pow_tiny :
  valid (two_pow true (-1032)) = true /\
  (F2Q (two_pow true (-1032)) == - (1 # 2 ^ 1032))%Q /\
  ext (two_pow true (-1032)) < ext zero.
Proof. split; [|split]; vm_compute; reflexivity. Qed.

(** It is negative when the factors are not so small that the product
    underflows. *)
Lemma fmul_negative (r e : float64) :
  is_finite r = true -> is_finite e = true ->
  (1 # 2 ^ 1000 <= F2Q r)%Q -> (F2Q e <= - (1 # 2 ^ 32))%Q ->
  flt (fmul r e) zero = true.
Proof.
  intros Fr Fe Hr He.
  destruct r as [sr mr| |], e as [se me| |]; try discriminate.
  destruct two_pow_tiny as (V & E & Hlt).
  unfold fmul.
  rewrite flt_ext; auto using round_Q_bounded, round_Q_not_nan;
    try discriminate.
  apply Z.ltb_lt. eapply Z.le_lt_trans; [|exact Hlt].
  apply round_Q_upper; auto. rewrite E.
  assert (H1 : (F2Q (Fin sr mr) * F2Q (Fin se me) <=
                F2Q (Fin sr mr) * - (1 # 2 ^ 32))%Q).
  { rewrite !(Qmult_comm (F2Q (Fin sr mr))).
    apply Qmult_le_compat_r; auto.
    eapply Qle_trans; [|exact Hr]. vm_compute. discriminate. }
  eapply Qle_trans; [exact H1|].
  assert (H2 : ((1 # 2 ^ 1000) * (1 # 2 ^ 32) <=
                F2Q (Fin sr mr) * (1 # 2 ^ 32))%Q).
  { apply Qmult_le_compat_r; auto. vm_compute. discriminate. }
  assert (H3 : ((1 # 2 ^ 1000) * (1 # 2 ^ 32) == 1 # 2 ^ 1032)%Q)
    by (vm_compute; reflexivity).
  rewrite H3 in H2. lra.
Qed.

(** The result on a world whose clock gives finite elapsed hours: the
    income is the rate times the capped hours, converted to a double [c]
    when the cap, an int, is taken. *)
Lemma offline_income_float (r : float64) (last_collected : datetime)
    (max_hours : Z) (w : World) (s : bool) (m : N) :
  - 2 ^ 1023 <= max_hours ->
  elapsed_hours last_collected (clock w) = Ok (Fin s m) ->
  (F2Q (Fin s m) <= inject_Z (2 ^ 1023))%Q ->
  exists (c : float64),
    is_finite c = true /\
    ((F2Q (Fin s m) <= inject_Z max_hours)%Q -> c = Fin s m) /\
    ((inject_Z max_hours < F2Q (Fin s m))%Q ->
     round_Q false (inject_Z max_hours) = c) /\
    num_mul (PyFloat r) (py_min (PyFloat (Fin s m)) (PyInt max_hours)) =
      Ok (PyFloat (fmul r c)) /\
    calculate_offline_income (PyFloat r) last_collected (Some max_hours) w =
      Ok (PyFloat (fmul r c), py_min (PyFloat (Fin s m)) (PyInt max_hours)).
Proof.
  intros Hmax He Hub.
  rewrite (offline_income_unfold _ _ _ _ _ He).
  destruct (py_min_cases s m max_hours) as [[H Hmin]|[H Hmin]]; rewrite Hmin.
  - assert (Hr : - 2 ^ 1023 <= max_hours <= 2 ^ 1023).
    { split; auto. rewrite Zle_Qle. apply Qlt_le_weak.
      eapply Qlt_le_trans; [exact H | exact Hub]. }
    destruct (int_to_float_finite max_hours Hr) as (t & n & Ei & Er).
    exists (Fin t n). split; [reflexivity|]. split; [|split; [|split]].
    + intros H'. exfalso. lra.
    + intros _. exact Er.
    + unfold num_mul, to_float. rewrite Ei. reflexivity.
    + unfold num_mul, to_float. rewrite Ei. reflexivity.
  - exists (Fin s m). split; [reflexivity|]. split; [|split; [|split]].
    + reflexivity.
    + intros H'. exfalso. lra.
    + reflexivity.
    + reflexivity.
Qed.

Lemma elapsed_below_2_1023 (t0 t1 : datetime) (e : float64) :
  valid_datetime t0 = true -> valid_datetime t1 = true ->
  elapsed_hours t0 t1 = Ok e -> (F2Q e <= inject_Z (2 ^ 1023))%Q.
Proof.
  intros V0 V1 He.
  destruct (elapsed_hours_eq t0 t1 V0 V1) as (s & m & e' & R1 & R2 & E & F & V).
  rewrite E in He. injection He as <-.
  destruct (total_seconds_between_eq t0 t1 V0 V1)
    as (s' & m' & _ & R1' & _ & Hhi).
  rewrite R1 in R1'. injection R1' as <- <-.
  destruct two_pow_40 as (Vp & _ & Ep & _).
  apply Qle_trans with (inject_Z (2 ^ 40)); [|vm_compute; discriminate].
  rewrite <- Ep. apply F2Q_le_ext; auto.
  rewrite <- R2. apply round_Q_upper; auto. rewrite Ep.
  apply Qle_shift_div_r; [reflexivity|].
  eapply Qle_trans; [exact Hhi|]. vm_compute. discriminate.
Qed.

(** C9: with a finite rate [r >= 0] and the last collection not after the
    clock, the call returns the capped hours [min(elapsed, max_hours)] and
    the income [r * min(elapsed, max_hours)]; a later clock never gives a
    smaller income, and once the elapsed hours have reached [max_hours] the
    income no longer changes.  Without [max_hours] the configured
    [OFFLINE_INCOME_MAX_HOURS] is the cap. *)
Theorem offline_income_capped_and_monotone
    (r : float64) (last_collected now1 now2 : datetime) (max_hours : Z)
    (st : Settings) :
  is_finite r = true -> (0 <= F2Q r)%Q ->
  valid_datetime last_collected = true ->
  valid_datetime now1 = true -> valid_datetime now2 = true ->
  last_collected <= now1 <= now2 ->
  - 2 ^ 1023 <= max_hours ->
  exists (e1 e2 i1 i2 : float64),
    elapsed_hours last_collected now1 = Ok e1 /\
    elapsed_hours last_collected now2 = Ok e2 /\
    is_finite e1 = true /\ is_finite e2 = true /\
    (0 <= F2Q e1)%Q /\ (F2Q e1 <= F2Q e2)%Q /\
    calculate_offline_income (PyFloat r) last_collected (Some max_hours)
      {| clock := now1; settings := st |} =
      Ok (PyFloat i1, py_min (PyFloat e1) (PyInt max_hours)) /\
    calculate_offline_income (PyFloat r) last_collected (Some max_hours)
      {| clock := now2; settings := st |} =
      Ok (PyFloat i2, py_min (PyFloat e2) (PyInt max_hours)) /\
    (num_Q (py_min (PyFloat e1) (PyInt max_hours)) ==
     Qmin (F2Q e1) (inject_Z max_hours))%Q /\
    num_mul (PyFloat r) (py_min (PyFloat e1) (PyInt max_hours)) =
      Ok (PyFloat i1) /\
    fle i1 i2 = true /\
    ((inject_Z max_hours <= F2Q e1)%Q -> i1 = i2) /\
    calculate_offline_income (PyFloat r) last_collected None
      {| clock := now1;
         settings := {| INITIAL_INCOME_PER_HOUR := INITIAL_INCOME_PER_HOUR st;
                        INITIAL_GUESTS_PER_HOUR := INITIAL_GUESTS_PER_HOUR st;
                        OFFLINE_INCOME_MAX_HOURS := max_hours |} |} =
      Ok (PyFloat i1, py_min (PyFloat e1) (PyInt max_hours)).
Proof.
  intros Fr Hr V0 V1 V2 [Hle1 Hle2] Hmax.
  destruct (elapsed_hours_eq last_collected now1 V0 V1)
    as (_ & _ & e1 & _ & _ & E1 & F1 & Ve1).
  destruct (elapsed_hours_eq last_collected now2 V0 V2)
    as (_ & _ & e2 & _ & _ & E2 & F2 & Ve2).
  destruct (elapsed_hours_nonneg _ _ _ V0 V1 Hle1 E1) as [m1 ->].
  destruct (elapsed_hours_nonneg _ _ _ V0 V2 ltac:(lia) E2) as [m2 ->].
  pose proof (elapsed_hours_mono _ _ _ _ _ V0 V1 V2 Hle2 E1 E2) as Hmono.
  pose proof (elapsed_below_2_1023 _ _ _ V0 V1 E1) as Hb1.
  pose proof (elapsed_below_2_1023 _ _ _ V0 V2 E2) as Hb2.
  destruct (offline_income_float r last_collected max_hours
              {| clock := now1; settings := st |} false m1 Hmax E1 Hb1)
    as (c1 & Fc1 & Hc1a & Hc1b & M1 & C1).
  destruct (offline_income_float r last_collected max_hours
              {| clock := now2; settings := st |} false m2 Hmax E2 Hb2)
    as (c2 & Fc2 & Hc2a & Hc2b & M2 & C2).
  exists (Fin false m1), (Fin false m2), (fmul r c1), (fmul r c2).
  assert (Hc : (F2Q c1 <= F2Q c2)%Q /\
               ((inject_Z max_hours <= F2Q (Fin false m1))%Q -> c1 = c2)).
  { destruct (Qlt_le_dec (inject_Z max_hours) (F2Q (Fin false m1))) as [A1|A1];
    destruct (Qlt_le_dec (inject_Z max_hours) (F2Q (Fin false m2))) as [A2|A2].
    - rewrite <- (Hc1b A1), <- (Hc2b A2). split; [apply Qle_refl | reflexivity].
    - exfalso. lra.
    - rewrite (Hc1a A1) in *. specialize (Hc2b A2).
      assert (Hle : (F2Q (Fin false m1) <= F2Q c2)%Q).
      { apply F2Q_le_ext; auto. rewrite <- Hc2b.
        apply round_Q_lower; auto. }
      split; [exact Hle|]. intros B.
      assert (Heq : (inject_Z max_hours == F2Q (Fin false m1))%Q)
        by (apply Qle_antisym; auto).
      rewrite <- Hc2b, (round_Q_comp _ _ _ Heq).
      symmetry. apply round_Q_exact; auto.
    - rewrite (Hc1a A1), (Hc2a A2). split; [exact Hmono|]. intros B.
      apply F2Q_inj. apply Qle_antisym; [exact Hmono|]. lra. }
  destruct Hc as [Hc Hconst].
  split; [exact E1|]. split; [exact E2|].
  split; [reflexivity|]. split; [reflexivity|].
  split; [apply F2Q_nonneg_of_sign|]. split; [exact Hmono|].
  split; [exact C1|]. split; [exact C2|].
  split; [apply py_min_value|]. split; [exact M1|].
  split.
  { destruct c1 as [s1 n1| |]; try discriminate.
    destruct c2 as [s2 n2| |]; try discriminate.
    apply fmul_mono; auto. }
  split.
  { intros B. rewrite (Hconst B). reflexivity. }
  rewrite offline_income_default_cap. exact C1.
Qed.

Lemma offline_income_capped_and_monotone_witness :
  exists (i1 i2 : float64),
    calculate_offline_income (PyFloat (literal 10 0)) 0 (Some 24)
      {| clock := 3600000000; settings := default_settings |} =
      Ok (PyFloat i1, PyFloat (literal 1 0)) /\
    calculate_offline_income (PyFloat (literal 10 0)) 0 (Some 24)
      {| clock := 90000000000; settings := default_settings |} =
      Ok (PyFloat i2, PyInt 24) /\
    fle i1 i2 = true.
Proof.
  destruct (offline_income_capped_and_monotone (literal 10 0)
              0 3600000000 90000000000 24 default_settings)
    as (e1 & e2 & i1 & i2 & E1 & E2 & _ & _ & _ & _ & C1 & C2 & _ & _ & Hle & _).
  - vm_compute. reflexivity.
  - vm_compute. discriminate.
  - vm_compute. reflexivity.
  - vm_compute. reflexivity.
  - vm_compute. reflexivity.
  - lia.
  - vm_compute. discriminate.
  - exists i1, i2.
    assert (H1 : e1 = literal 1 0).
    { assert (H : elapsed_hours 0 3600000000 = Ok (literal 1 0))
        by (vm_compute; reflexivity).
      rewrite H in E1. symmetry. exact (Ok_inj _ _ E1). }
    assert (H2 : e2 = literal 25 0).
    { assert (H : elapsed_hours 0 90000000000 = Ok (literal 25 0))
        by (vm_compute; reflexivity).
      rewrite H in E2. symmetry. exact (Ok_inj _ _ E2). }
    subst e1 e2.
    assert (M1 : py_min (PyFloat (literal 1 0)) (PyInt 24) =
                 PyFloat (literal 1 0)) by (vm_compute; reflexivity).
    assert (M2 : py_min (PyFloat (literal 25 0)) (PyInt 24) = PyInt 24)
      by (vm_compute; reflexivity).
    rewrite M1 in C1. rewrite M2 in C2.
    split; [exact C1 | split; [exact C2 | exact Hle]].
Defined.

(** C1 refuted as stated: collecting at a rate of 10 per hour with the last
    collection one hour after the clock returns the income -10.0 for -1.0
    hours, not (0, 0). *)
Lemma offline_income_future_is_negative :
  calculate_offline_income (PyFloat (literal 10 0)) 3600000000 (Some 24)
    {| clock := 0; settings := default_settings |} =
    Ok (PyFloat (fneg (literal 10 0)), PyFloat (fneg (literal 1 0))) /\
  num_lt (PyFloat (fneg (literal 10 0))) (PyInt 0) = true /\
  num_lt (PyFloat (fneg (literal 1 0))) (PyInt 0) = true.
Proof. vm_compute. auto. Qed.

(** C1, as the code has it: when the last collection lies after the clock
    (and the cap is not negative), nothing is clamped: the capped hours are
    the negative elapsed hours themselves and the income is the rate times
    them, never positive, and negative unless the rate is so small
    (below [2^-1000]) that the product underflows. *)
Theorem offline_income_future_unclamped
    (r : float64) (last_collected now : datetime) (max_hours : Z)
    (st : Settings) :
  is_finite r = true -> (0 <= F2Q r)%Q ->
  valid_datetime last_collected = true -> valid_datetime now = true ->
  now < last_collected ->
  0 <= max_hours ->
  exists e : float64,
    elapsed_hours last_collected now = Ok e /\
    is_finite e = true /\ (F2Q e < 0)%Q /\
    calculate_offline_income (PyFloat r) last_collected (Some max_hours)
      {| clock := now; settings := st |} =
      Ok (PyFloat (fmul r e), PyFloat e) /\
    fle (fmul r e) zero = true /\
    ((1 # 2 ^ 1000 <= F2Q r)%Q -> flt (fmul r e) zero = true).
Proof.
  intros Fr Hr V0 V1 Hlt Hmax.
  destruct (elapsed_hours_eq last_collected now V0 V1)
    as (_ & _ & e & _ & _ & E & F & Ve).
  pose proof (elapsed_hours_negative _ _ _ V0 V1 Hlt E) as Hneg.
  assert (Hneg' : (F2Q e < 0)%Q).
  { eapply Qle_lt_trans; [exact Hneg|]. reflexivity. }
  exists e. split; [exact E|]. split; [exact F|]. split; [exact Hneg'|].
  destruct e as [s m| |]; try discriminate.
  assert (Hq : (0 <= inject_Z max_hours)%Q).
  { change 0%Q with (inject_Z 0). rewrite <- Zle_Qle. exact Hmax. }
  split; [|split].
  - rewrite (offline_income_unfold _ _ _
               {| clock := now; settings := st |} _ E).
    destruct (py_min_cases s m max_hours) as [[H _]|[_ ->]].
    + exfalso. lra.
    + reflexivity.
  - apply fmul_nonpos; auto. lra.
  - intros Hbig. apply fmul_negative; auto.
Qed.

Lemma offline_income_future_unclamped_witness :
  exists e : float64,
    calculate_offline_income (PyFloat (literal 10 0)) 3600000000 (Some 24)
      {| clock := 0; settings := default_settings |} =
      Ok (PyFloat (fmul (literal 10 0) e), PyFloat e) /\
    flt (fmul (literal 10 0) e) zero = true.
Proof.
  destruct (offline_income_future_unclamped (literal 10 0) 3600000000 0 24
              default_settings)
    as (e & _ & _ & _ & C & _ & Hneg).
  - vm_compute. reflexivity.
  - vm_compute. discriminate.
  - vm_compute. reflexivity.
  - vm_compute. reflexivity.
  - lia.
  - lia.
  - exists e. split; [exact C|]. apply Hneg. vm_compute. discriminate.
Defined.

(** ** Upgrade cost *)

(** A non-negative exact value below one whose rounding is finite has a
    finite rounding that is not greater. *)
Lemma round_Q_finite_below (z1 z2 : bool) (q1 q2 : Q) (s2 : bool) (m2 : N) :
  (0 <= q1)%Q -> (q1 <= q2)%Q -> round_Q z2 q2 = Fin s2 m2 ->
  exists s1 m1, round_Q z1 q1 = Fin s1 m1 /\
                (0 <= F2Q (Fin s1 m1))%Q /\
                (F2Q (Fin s1 m1) <= F2Q (Fin s2 m2))%Q.
Proof.
  intros H0 Hle E2.
  pose proof (ext_round_Q_mono z1 z2 _ _ Hle) as Hup. rewrite E2 in Hup.
  pose proof (ext_round_Q_mono false z1 _ _ H0) as Hlo.
  rewrite round_Q_zero in Hlo. change (ext zero) with 0 in Hlo.
  pose proof (round_Q_bounded z2 q2) as B2. rewrite E2 in B2.
  apply bounded_ext in B2.
  pose proof (round_Q_not_nan z1 q1) as Hn.
  pose proof threshold_pos as Ht.
  destruct (round_Q z1 q1) as [s1 m1|s1|]; [|exfalso|congruence].
  - exists s1, m1. split; [reflexivity|].
    rewrite !F2Q_ext. rewrite Qle_same_den. split; [|exact Hup].
    unfold Qle. cbn [Qnum Qden]. lia.
  - unfold ext in *. destruct s1; unfold signed at 1 in Hup;
      unfold signed in Hlo; lia.
Qed.

Lemma int_to_float_0 : int_to_float 0 = Ok zero.
Proof. vm_compute. reflexivity. Qed.

Lemma round_Q_one : round_Q false 1 = one.
Proof. vm_compute. reflexivity. Qed.

Lemma int_to_float_inv (n : Z) (y : float64) :
  int_to_float n = Ok y ->
  exists s m, y = Fin s m /\ round_Q false (inject_Z n) = Fin s m.
Proof.
  unfold int_to_float. pose proof (round_Q_not_nan false (inject_Z n)) as Hn.
  destruct (round_Q false (inject_Z n)) as [s m|s|]; try congruence.
  intros H. exists s, m. split; congruence.
Qed.

(** The exponent as the double it is converted to: not negative, and not
    decreasing with the level. *)
Lemma exponent_nonneg (n : Z) (y : float64) :
  0 <= n -> int_to_float n = Ok y -> 0 <= Qfloor (F2Q y).
Proof.
  intros Hn E. destruct (int_to_float_inv n y E) as (s & m & -> & R).
  assert (Hq : (0 <= inject_Z n)%Q).
  { change 0%Q with (inject_Z 0). rewrite <- Zle_Qle. exact Hn. }
  rewrite (round_Q_sign_nonneg _ _ _ Hq R).
  change 0 with (Qfloor 0). apply Qfloor_resp_le, F2Q_nonneg_of_sign.
Qed.

Lemma exponent_mono (n n' : Z) (y' : float64) :
  0 <= n <= n' -> int_to_float n' = Ok y' ->
  exists y, int_to_float n = Ok y /\
            Qfloor (F2Q y) <= Qfloor (F2Q y').
Proof.
  intros [H0 Hle] E'. destruct (int_to_float_inv n' y' E') as (s' & m' & -> & R').
  destruct (round_Q_finite_below false false (inject_Z n) (inject_Z n') s' m')
    as (s & m & R & _ & Hm); auto.
  - change 0%Q with (inject_Z 0). rewrite <- Zle_Qle. exact H0.
  - rewrite <- Zle_Qle. exact Hle.
  - exists (Fin s m). split.
    + unfold int_to_float. rewrite R. reflexivity.
    + apply Qfloor_resp_le. exact Hm.
Qed.

(** *** The two libraries of the examples are accurate *)

Lemma tolerance_bounds :
  (0 < pow_tolerance)%Q /\ (pow_tolerance < 1)%Q.
Proof. split; reflexivity. Qed.

Lemma correctly_rounded_accurate : pow_accurate correctly_rounded.
Proof.
  intros x y _ _ Hx _ _ _. cbv zeta. cbn [libm_pow correctly_rounded fst snd].
  assert (Hq : (0 < Qpower (F2Q x) (Qfloor (F2Q y)))%Q)
    by (apply Qpower_0_lt; lra).
  destruct tolerance_bounds as [T0 T1].
  split; [apply round_Q_valid|]. split; [apply round_Q_not_nan|].
  split; [|left; reflexivity].
  unfold pow_low, pow_high. split; apply ext_round_Q_mono; nra.
Qed.

Lemma rounded_above_accurate : pow_accurate rounded_above.
Proof.
  intros x y _ _ Hx _ _ _. cbv zeta. cbn [libm_pow rounded_above fst snd].
  assert (Hq : (0 < Qpower (F2Q x) (Qfloor (F2Q y)))%Q)
    by (apply Qpower_0_lt; lra).
  destruct tolerance_bounds as [T0 T1].
  assert (T2 : (pow_tolerance / 2 == pow_tolerance * (1 # 2))%Q)
    by reflexivity.
  split; [apply round_Q_valid|]. split; [apply round_Q_not_nan|].
  split; [|left; reflexivity].
  unfold pow_low, pow_high. split; apply ext_round_Q_mono; rewrite T2; nra.
Qed.

(** *** The exponent *)

(** Rounding keeps a magnitude a multiple of every power of two that
    divides it. *)
Lemma round_mag_multiple (k a : Z) :
  0 <= a -> 0 <= k ->
  (round_mag (inject_Z (k * 2 ^ a))) mod 2 ^ a = 0.
Proof.
  intros Ha Hk. unfold round_mag.
  set (e := ulp_exp (inject_Z (k * 2 ^ a))).
  pose proof (ulp_exp_nonneg (inject_Z (k * 2 ^ a))) as He. fold e in He.
  assert (Pa : 0 < 2 ^ a) by (apply Z.pow_pos_nonneg; lia).
  destruct (Z.le_gt_cases e a) as [Hle|Hgt].
  - assert (E : k * 2 ^ a = k * 2 ^ (a - e) * 2 ^ e).
    { rewrite <- Z.mul_assoc, <- Z.pow_add_r by lia. do 2 f_equal. lia. }
    rewrite E at 1.
    rewrite (RNE_comp _ _ (Qdiv_pow2_Z (k * 2 ^ (a - e)) e He)), RNE_Z.
    rewrite <- E. apply Z.mod_mul. lia.
  - replace (2 ^ e) with (2 ^ (e - a) * 2 ^ a)
      by (rewrite <- Z.pow_add_r by lia; f_equal; lia).
    rewrite Z.mul_assoc. apply Z.mod_mul. lia.
Qed.

(** [float(n)] is a whole number. *)
Lemma int_to_float_integer (n : Z) (y : float64) :
  int_to_float n = Ok y -> is_integer y = true.
Proof.
  intros E. destruct (int_to_float_inv n y E) as (s & m & -> & R).
  unfold round_Q in R.
  assert (Hq : (Qabs (inject_Z n) * inject_Z (Zpos scale) ==
                inject_Z (Z.abs n * 2 ^ 1074))%Q).
  { rewrite inject_Z_mult. reflexivity. }
  rewrite (round_mag_comp _ _ Hq) in R.
  pose proof (round_mag_multiple (Z.abs n) 1074 ltac:(lia) (Z.abs_nonneg n))
    as Hm.
  assert (H0 : 0 <= round_mag (inject_Z (Z.abs n * 2 ^ 1074))).
  { apply round_mag_nonneg. change 0%Q with (inject_Z 0).
    rewrite <- Zle_Qle. assert (0 < 2 ^ 1074) by reflexivity.
    pose proof (Z.abs_nonneg n). nia. }
  destruct (overflow_threshold <=? _); [discriminate R|].
  assert (Em : m = Z.to_N (round_mag (inject_Z (Z.abs n * 2 ^ 1074))))
    by congruence.
  unfold is_integer. rewrite Em, Z2N.id by exact H0.
  apply Z.eqb_eq. exact Hm.
Qed.

Lemma one_valid : valid one = true /\ is_finite one = true.
Proof. split; vm_compute; reflexivity. Qed.

(** [float(n)] is at least 1 when [n] is. *)
Lemma int_to_float_ge_1 (n : Z) (y : float64) :
  1 <= n -> int_to_float n = Ok y -> (1 <= F2Q y)%Q.
Proof.
  intros Hn E. destruct (int_to_float_inv n y E) as (s & m & -> & R).
  destruct one_valid as [V1 F1].
  assert (H1 : (F2Q one <= inject_Z n)%Q).
  { rewrite F2Q_one. change 1%Q with (inject_Z 1). rewrite <- Zle_Qle.
    exact Hn. }
  pose proof (round_Q_lower false (inject_Z n) one V1 F1 H1) as Hl.
  rewrite R in Hl. rewrite <- F2Q_one.
  apply F2Q_le_ext; [reflexivity | reflexivity | exact Hl].
Qed.

Lemma int_to_float_valid (n : Z) (y : float64) :
  int_to_float n = Ok y -> valid y = true.
Proof.
  intros E. destruct (int_to_float_inv n y E) as (s & m & -> & R).
  rewrite <- R. apply round_Q_valid.
Qed.

(** A whole double that is not negative is determined by its integer
    part. *)
Lemma integer_of_floor (y y' : float64) :
  is_integer y = true -> is_integer y' = true ->
  (0 <= F2Q y)%Q -> (0 <= F2Q y')%Q -> valid y = true -> valid y' = true ->
  Qfloor (F2Q y) = Qfloor (F2Q y') -> (F2Q y == F2Q y')%Q.
Proof.
  destruct y as [s m| |], y' as [s' m'| |]; try discriminate.
  unfold is_integer. intros I I' _ _ _ _ Hf.
  apply Z.eqb_eq in I. apply Z.eqb_eq in I'.
  assert (W : forall t k, Z.of_N k mod Zpos scale = 0 ->
            (F2Q (Fin t k) ==
             inject_Z (signed t (Z.of_N k / Zpos scale)))%Q).
  { intros t k Hk. apply Z.div_exact in Hk; [|discriminate].
    unfold F2Q, Qeq, inject_Z. cbn [Qnum Qden].
    destruct t; unfold signed; nia. }
  rewrite (Qfloor_comp _ _ (W s m I)), (Qfloor_comp _ _ (W s' m' I')) in Hf.
  rewrite !Qfloor_Z in Hf.
  rewrite (W s m I), (W s' m' I'), Hf. reflexivity.
Qed.

(** *** The power *)

Lemma float_pow_int_0 {L : Libm} (x : float64) : float_pow_int x 0 = Ok one.
Proof.
  unfold float_pow_int. rewrite int_to_float_0. reflexivity.
Qed.

(** What an accurate library returns for a base above 1 and the exponent
    [float(n)], [n >= 1]. *)
Lemma pow_accurate_at {L : Libm} (x y : float64) (n : Z) :
  pow_accurate L ->
  valid x = true -> is_finite x = true -> (1 < F2Q x)%Q ->
  1 <= n -> int_to_float n = Ok y ->
  let q := Qpower (F2Q x) (Qfloor (F2Q y)) in
  let r := fst (libm_pow x y) in
  let e := snd (libm_pow x y) in
  valid r = true /\ r <> NaN /\
  ext (pow_low q) <= ext r <= ext (pow_high q) /\
  (e = ENone \/ (e = ERANGE /\ is_finite r = false)).
Proof.
  intros A V F H1 Hn E.
  exact (A x y V F H1 (int_to_float_valid n y E) (int_to_float_integer n y E)
           (int_to_float_ge_1 n y Hn E)).
Qed.

(** [x ** n] for a finite [x > 1] and [n >= 1] with an accurate library:
    the library's result when it is finite, OverflowError when it is not. *)
Lemma float_pow_int_gt1 {L : Libm} (x : float64) (n : Z) :
  pow_accurate L ->
  valid x = true -> is_finite x = true -> (1 < F2Q x)%Q -> 1 <= n ->
  float_pow_int x n =
  (y <- int_to_float n ;;
   let r := fst (libm_pow x y) in
   if is_finite r then Ok r else Raise OverflowError).
Proof.
  intros A V F H1 Hn. unfold float_pow_int.
  destruct (int_to_float n) as [y|e] eqn:Ey; [|reflexivity].
  cbn [bind].
  pose proof (pow_accurate_at x y n A V F H1 Hn Ey) as HA. cbv zeta in HA.
  destruct HA as (Vr & Nr & _ & He).
  pose proof (int_to_float_ge_1 n y Hn Ey) as Hy.
  assert (Hw : 1 <= Qfloor (F2Q y)).
  { change 1 with (Qfloor 1). apply Qfloor_resp_le. exact Hy. }
  destruct (Z.eqb_spec (Qfloor (F2Q y)) 0) as [E0|N0]; [lia|].
  destruct x as [s m| |]; try discriminate.
  assert (Hs : s = false).
  { destruct s; auto. exfalso. unfold F2Q, Qlt in H1; simpl in H1. lia. }
  subst s.
  assert (Hm : m <> 0%N /\ m <> Npos scale).
  { split; intros ->; unfold F2Q, Qlt in H1; simpl in H1; lia. }
  destruct Hm as [Hm0 Hm1].
  destruct m as [|p]; [congruence|].
  destruct (N.eqb_spec (Npos p) (Npos scale)) as [E|_]; [congruence|].
  cbn [andb].
  destruct (libm_pow (Fin false (Npos p)) y) as [ix e].
  cbn [fst snd] in *.
  destruct He as [->|[-> Fr]].
  - destruct ix as [t k|t|]; [reflexivity | reflexivity | congruence].
  - destruct ix as [t k|t|]; [discriminate Fr | reflexivity | congruence].
Qed.

Lemma upgrade_cost_float {L : Libm} (b m : float64) (n : Z) (w : World) :
  calculate_upgrade_cost (PyFloat b) n (PyFloat m) w =
  (p <- float_pow_int m n ;; math_ceil (PyFloat (fmul b p))).
Proof.
  unfold calculate_upgrade_cost, lift, py_pow.
  destruct (float_pow_int m n); reflexivity.
Qed.

(** An int base cost is converted to a double for the product. *)
Lemma upgrade_cost_int_base {L : Libm} (k : Z) (b m : float64) (n : Z)
    (w : World) :
  int_to_float k = Ok b ->
  calculate_upgrade_cost (PyInt k) n (PyFloat m) w =
  calculate_upgrade_cost (PyFloat b) n (PyFloat m) w.
Proof.
  intros E. unfold calculate_upgrade_cost, lift, py_pow.
  destruct (float_pow_int m n) as [p|e]; [|reflexivity].
  cbn [bind]. rewrite num_mul_int_float, E. reflexivity.
Qed.

Lemma math_ceil_finite (x : float64) (c : Z) :
  math_ceil (PyFloat x) = Ok c ->
  is_finite x = true /\ c = Qceiling (F2Q x).
Proof.
  destruct x as [s m| |]; simpl; try discriminate.
  intros H. split; [reflexivity | congruence].
Qed.

(** With a multiplier of at least [1 + 3 * 2^-52] the upper end for one
    exponent is not above the lower end for the next. *)
Lemma pow_band_order (q q' m : Q) :
  (0 < q)%Q -> (1 + 3 * pow_tolerance <= m)%Q -> (q * m <= q')%Q ->
  (q * (1 + pow_tolerance) <= q' * (1 - pow_tolerance))%Q.
Proof.
  assert (T : (0 < pow_tolerance)%Q /\ (pow_tolerance <= 1 # 4)%Q).
  { split; [reflexivity | vm_compute; discriminate]. }
  destruct T as [T0 T1]. revert T0 T1.
  generalize pow_tolerance as t. intros t T0 T1 Hq Hm Hq'.
  apply Qle_trans with (q * m * (1 - t))%Q.
  - rewrite <- Qmult_assoc. rewrite !(Qmult_comm q).
    apply Qmult_le_compat_r; [nra | lra].
  - apply Qmult_le_compat_r; [exact Hq' | lra].
Qed.

Lemma multiplier_above_one (m : Q) :
  (1 + 3 * pow_tolerance <= m)%Q -> (1 < m)%Q.
Proof.
  intros H. apply Qlt_le_trans with (1 + 3 * pow_tolerance)%Q; [|exact H].
  reflexivity.
Qed.

Lemma multiplier_lower_end (m : Q) :
  (1 + 3 * pow_tolerance <= m)%Q -> (1 <= m * (1 - pow_tolerance))%Q.
Proof.
  assert (T : (0 < pow_tolerance)%Q /\ (pow_tolerance <= 1 # 4)%Q).
  { split; [reflexivity | vm_compute; discriminate]. }
  destruct T as [T0 T1]. revert T0 T1.
  generalize pow_tolerance as t. intros t T0 T1 Hm. nra.
Qed.

(** The result of an accurate library is not negative, and is finite as
    soon as it is not above a finite double. *)
Lemma pow_result_finite (r hi : float64) (q : Q) :
  valid r = true -> r <> NaN -> (0 <= q)%Q ->
  ext (pow_low q) <= ext r -> valid hi = true -> is_finite hi = true ->
  ext r <= ext hi ->
  is_finite r = true /\ (0 <= F2Q r)%Q /\ (F2Q r <= F2Q hi)%Q.
Proof.
  intros V N Hq Hlo Vh Fh Hhi.
  assert (H0 : 0 <= ext (pow_low q)).
  { unfold pow_low. change 0 with (ext zero). rewrite <- round_Q_zero.
    apply ext_round_Q_mono. destruct tolerance_bounds. nra. }
  destruct hi as [sh mh| |]; try discriminate.
  pose proof (bounded_ext sh mh (valid_bounded _ Vh)) as Bh.
  pose proof threshold_pos as Ht.
  destruct r as [s k|s|]; [|exfalso|congruence].
  - split; [reflexivity|]. split.
    + destruct zero_valid as [_ Ez]. rewrite <- Ez.
      apply F2Q_le_ext; [reflexivity | reflexivity|].
      change (ext zero) with 0. lia.
    + apply F2Q_le_ext; [reflexivity | reflexivity | exact Hhi].
  - destruct s; unfold ext, signed in *; lia.
Qed.

(** The power does not decrease from one exponent to the next. *)
Lemma float_pow_int_step {L : Libm} (m : float64) (n : Z) (p' : float64) :
  pow_accurate L ->
  valid m = true -> is_finite m = true ->
  (1 + 3 * pow_tolerance <= F2Q m)%Q -> 0 <= n ->
  float_pow_int m (n + 1) = Ok p' ->
  exists p, float_pow_int m n = Ok p /\
            is_finite p = true /\ is_finite p' = true /\
            (0 <= F2Q p)%Q /\ (F2Q p <= F2Q p')%Q.
Proof.
  intros A V F Hm3 Hn H'.
  pose proof (multiplier_above_one _ Hm3) as Hm.
  rewrite (float_pow_int_gt1 m (n + 1) A V F Hm ltac:(lia)) in H'.
  destruct (int_to_float (n + 1)) as [y'|e] eqn:Ey'; [|discriminate H'].
  cbn [bind] in H'. cbv zeta in H'.
  pose proof (pow_accurate_at m y' (n + 1) A V F Hm ltac:(lia) Ey') as HA'.
  cbv zeta in HA'. destruct HA' as (Vr' & Nr' & [Lo' Hi'] & _).
  destruct (is_finite (fst (libm_pow m y'))) eqn:Fr'; [|discriminate H'].
  apply Ok_inj in H'. subst p'.
  set (r' := fst (libm_pow m y')) in *.
  pose proof (int_to_float_ge_1 (n + 1) y' ltac:(lia) Ey') as Hy'.
  assert (Hw' : 1 <= Qfloor (F2Q y')).
  { change 1 with (Qfloor 1). apply Qfloor_resp_le. exact Hy'. }
  assert (Hq1 : (F2Q m <= Qpower (F2Q m) (Qfloor (F2Q y')))%Q).
  { change (F2Q m) with (Qpower (F2Q m) 1) at 1.
    apply Qpower_le_compat_l; [exact Hw' | lra]. }
  destruct (Z.eq_dec n 0) as [->|N0].
  - exists one. rewrite float_pow_int_0.
    destruct one_valid as [V1 F1].
    split; [reflexivity|]. split; [reflexivity|]. split; [exact Fr'|].
    split; [rewrite F2Q_one; lra|].
    apply F2Q_le_ext; [reflexivity | exact Fr'|].
    apply Z.le_trans with (2 := Lo'). unfold pow_low.
    apply round_Q_lower; [exact V1 | exact F1|].
    rewrite F2Q_one.
    apply Qle_trans with (F2Q m * (1 - pow_tolerance))%Q.
    + apply multiplier_lower_end. exact Hm3.
    + apply Qmult_le_compat_r; [exact Hq1|].
      destruct tolerance_bounds. lra.
  - assert (Hn1 : 1 <= n) by lia.
    destruct (exponent_mono n (n + 1) y' ltac:(lia) Ey') as (y & Ey & Hw).
    rewrite (float_pow_int_gt1 m n A V F Hm Hn1), Ey. cbn [bind]. cbv zeta.
    pose proof (pow_accurate_at m y n A V F Hm Hn1 Ey) as HA.
    cbv zeta in HA. destruct HA as (Vr & Nr & [Lo Hi] & _).
    set (r := fst (libm_pow m y)) in *.
    pose proof (int_to_float_ge_1 n y Hn1 Ey) as Hy.
    assert (Hq : (0 < Qpower (F2Q m) (Qfloor (F2Q y)))%Q)
      by (apply Qpower_0_lt; lra).
    assert (Hle : ext r <= ext r').
    { destruct (Z.eq_dec (Qfloor (F2Q y)) (Qfloor (F2Q y'))) as [Ew|Nw].
      - assert (Eq : (F2Q y == F2Q y')%Q).
        { apply integer_of_floor; try lra;
            eauto using int_to_float_integer, int_to_float_valid. }
        assert (Eyy : y = y').
        { destruct (int_to_float_inv n y Ey) as (s & k & -> & R).
          destruct (int_to_float_inv (n + 1) y' Ey') as (s' & k' & -> & R').
          assert (Hn0 : (0 <= inject_Z n)%Q)
            by (change 0%Q with (inject_Z 0); rewrite <- Zle_Qle; lia).
          assert (Hn0' : (0 <= inject_Z (n + 1))%Q)
            by (change 0%Q with (inject_Z 0); rewrite <- Zle_Qle; lia).
          rewrite (round_Q_sign_nonneg _ _ _ Hn0 R) in *.
          rewrite (round_Q_sign_nonneg _ _ _ Hn0' R') in *.
          apply F2Q_inj. exact Eq. }
        subst y'. apply Z.le_refl.
      - apply Z.le_trans with (1 := Hi). apply Z.le_trans with (2 := Lo').
        unfold pow_high, pow_low. apply ext_round_Q_mono.
        apply (pow_band_order _ _ (F2Q m)); [exact Hq | exact Hm3|].
        apply Qle_trans
          with (Qpower (F2Q m) (Qfloor (F2Q y) + 1)).
        + rewrite Qpower_plus by lra. apply Qle_refl.
        + apply Qpower_le_compat_l; [lia | lra]. }
    destruct (pow_result_finite r r' _ Vr Nr (Qlt_le_weak _ _ Hq) Lo Vr' Fr'
                Hle) as (Fr & Hr0 & Hrr).
    exists r. rewrite Fr. auto.
Qed.


(** An int of at most 53 bits converts to a double without rounding. *)
Lemma int_to_float_exact (n : Z) :
  0 <= n <= 2 ^ 53 ->
  exists m, int_to_float n = Ok (Fin false m) /\
            (F2Q (Fin false m) == inject_Z n)%Q /\
            valid (Fin false m) = true.
Proof.
  intros [H0 H53].
  assert (K : round_mag (inject_Z (n * 2 ^ 1074)) = n * 2 ^ 1074).
  { destruct (Z.eq_dec n 0) as [->|Hn]; [reflexivity|].
    assert (Hpos : 0 < n) by lia.
    destruct (Z.log2_spec n Hpos) as [Hlo Hhi].
    pose proof (Z.log2_nonneg n) as Hl0.
    destruct (Z.eq_dec n (2 ^ 53)) as [->|Hne].
    - apply round_mag_exact; [lia | split; [vm_compute; discriminate | lia] |].
      intros _. vm_compute. discriminate.
    - assert (Hl : Z.log2 n < 53) by (apply Z.log2_lt_pow2; lia).
      replace (n * 2 ^ 1074)
        with (n * 2 ^ (52 - Z.log2 n) * 2 ^ (1022 + Z.log2 n)).
      2:{ rewrite <- Z.mul_assoc, <- Z.pow_add_r by lia. do 2 f_equal. lia. }
      assert (Hm : 2 ^ 52 <= n * 2 ^ (52 - Z.log2 n) <= 2 ^ 53).
      { replace (2 ^ 52) with (2 ^ Z.log2 n * 2 ^ (52 - Z.log2 n))
          by (rewrite <- Z.pow_add_r by lia; f_equal; lia).
        replace (2 ^ 53) with (2 ^ Z.succ (Z.log2 n) * 2 ^ (52 - Z.log2 n))
          by (rewrite <- Z.pow_add_r by lia; f_equal; lia).
        pose proof (Z.pow_pos_nonneg 2 (52 - Z.log2 n) ltac:(lia) ltac:(lia)).
        nia. }
      apply round_mag_exact; [lia | | intros _; lia].
      assert (0 < 2 ^ 52) by reflexivity. lia. }
  assert (Hq : (Qabs (inject_Z n) * inject_Z (Zpos scale) ==
                inject_Z (n * 2 ^ 1074))%Q).
  { rewrite Qabs_pos by (change 0%Q with (inject_Z 0); rewrite <- Zle_Qle; lia).
    rewrite inject_Z_mult. reflexivity. }
  assert (Hsmall : n * 2 ^ 1074 < overflow_threshold).
  { assert (2 ^ 53 * 2 ^ 1074 < overflow_threshold) by reflexivity.
    assert (0 < 2 ^ 1074) by reflexivity. nia. }
  assert (R : round_Q false (inject_Z n) = Fin false (Z.to_N (n * 2 ^ 1074))).
  { unfold round_Q. rewrite (round_mag_comp _ _ Hq), K.
    destruct (Z.leb_spec overflow_threshold (n * 2 ^ 1074)); [lia|].
    f_equal. unfold Qneg.
    destruct (Qcompare_spec (inject_Z n) 0) as [E|L|G]; auto.
    exfalso. change 0%Q with (inject_Z 0) in L. rewrite <- Zlt_Qlt in L. lia. }
  exists (Z.to_N (n * 2 ^ 1074)). split; [|split].
  - unfold int_to_float. rewrite R. reflexivity.
  - unfold F2Q, signed. rewrite Z2N.id by (assert (0 < 2 ^ 1074) by reflexivity; nia).
    unfold Qeq, inject_Z; cbn [Qnum Qden]. change (Zpos scale) with (2 ^ 1074). lia.
  - rewrite <- R. apply round_Q_valid.
Qed.

Lemma cost_range_bounds :
  valid (two_pow false 501) = true /\ valid (two_pow false 1002) = true /\
  (F2Q (two_pow false 501) == inject_Z (2 ^ 501))%Q /\
  (F2Q (two_pow false 1002) == inject_Z (2 ^ 501) * inject_Z (2 ^ 501))%Q /\
  (inject_Z (2 ^ 500) * 2 == inject_Z (2 ^ 501))%Q.
Proof.
  split; [|split; [|split; [|split]]]; vm_compute; reflexivity.
Qed.

(** The exact power with the exponent as the library receives it. *)
Lemma exact_power_of_level (m : float64) (n : Z) (k : N) :
  (F2Q (Fin false k) == inject_Z n)%Q ->
  Qpower (F2Q m) (Qfloor (F2Q (Fin false k))) = Qpower (F2Q m) n.
Proof.
  intros Ek. rewrite (Qfloor_comp _ _ Ek), Qfloor_Z. reflexivity.
Qed.

(** The two ends for a power of at most [2^500] are finite. *)
Lemma pow_ends_in_range (q : Q) :
  (0 <= q)%Q -> (q <= inject_Z (2 ^ 500))%Q ->
  exists sl kl sh kh,
    pow_low q = Fin sl kl /\ pow_high q = Fin sh kh /\
    (0 <= F2Q (Fin sl kl))%Q /\
    (F2Q (Fin sl kl) <= F2Q (Fin sh kh))%Q /\
    (F2Q (Fin sh kh) <= inject_Z (2 ^ 501))%Q /\
    valid (Fin sh kh) = true.
Proof.
  intros H0 H5.
  destruct cost_range_bounds as (V1 & _ & E1 & _ & D).
  destruct zero_valid as (Vz & Ez).
  destruct tolerance_bounds as [T0 T1].
  assert (Hlo0 : (F2Q zero <= q * (1 - pow_tolerance))%Q)
    by (rewrite Ez; nra).
  assert (Hhi0 : (F2Q zero <= q * (1 + pow_tolerance))%Q)
    by (rewrite Ez; nra).
  assert (Hlo1 : (q * (1 - pow_tolerance) <= F2Q (two_pow false 501))%Q).
  { rewrite E1, <- D. nra. }
  assert (Hhi1 : (q * (1 + pow_tolerance) <= F2Q (two_pow false 501))%Q).
  { rewrite E1, <- D. nra. }
  destruct (round_Q_between false _ zero (two_pow false 501)
              Vz V1 eq_refl eq_refl Hlo0 Hlo1) as (sl & kl & Rl & Al & _).
  destruct (round_Q_between false _ zero (two_pow false 501)
              Vz V1 eq_refl eq_refl Hhi0 Hhi1) as (sh & kh & Rh & _ & Bh).
  exists sl, kl, sh, kh. unfold pow_low, pow_high.
  split; [exact Rl|]. split; [exact Rh|].
  split; [rewrite <- Ez; exact Al|].
  split.
  - apply (round_Q_le false false _ _ _ _ Rl Rh eq_refl eq_refl). nra.
  - split; [rewrite <- E1; exact Bh|].
    rewrite <- Rh. apply round_Q_valid.
Qed.

(** A product of a base cost of at most [2^500] with a factor of at most
    [2^501] is finite. *)
Lemma product_in_range (b : float64) (s : bool) (k : N) :
  is_finite b = true -> (0 < F2Q b)%Q -> (F2Q b <= inject_Z (2 ^ 500))%Q ->
  (0 <= F2Q (Fin s k))%Q -> (F2Q (Fin s k) <= inject_Z (2 ^ 501))%Q ->
  is_finite (fmul b (Fin s k)) = true.
Proof.
  intros Fb Hb Hb' H0 H1.
  destruct cost_range_bounds as (_ & V2 & _ & E2 & D).
  destruct zero_valid as (Vz & Ez).
  destruct b as [sb mb| |]; [|discriminate Fb|discriminate Fb].
  unfold fmul.
  assert (P5 : (0 < inject_Z (2 ^ 500))%Q) by reflexivity.
  assert (Hlo : (F2Q zero <= F2Q (Fin sb mb) * F2Q (Fin s k))%Q).
  { rewrite Ez. apply Qmult_le_0_compat; lra. }
  assert (Hhi : (F2Q (Fin sb mb) * F2Q (Fin s k) <=
                 F2Q (two_pow false 1002))%Q).
  { rewrite E2.
    apply Qle_trans with (inject_Z (2 ^ 501) * F2Q (Fin s k))%Q.
    - apply Qmult_le_compat_r; [|exact H0]. rewrite <- D. lra.
    - rewrite !(Qmult_comm (inject_Z (2 ^ 501))).
      apply Qmult_le_compat_r; [exact H1|]. vm_compute. discriminate. }
  destruct (round_Q_between (xorb sb s) _ zero (two_pow false 1002)
              Vz V2 eq_refl eq_refl Hlo Hhi) as (t & i & R & _ & _).
  rewrite R. reflexivity.
Qed.

(** Products with a positive base cost keep the order of the factors. *)
Lemma product_le (b : float64) (s s' : bool) (k k' : N) :
  is_finite b = true -> (0 < F2Q b)%Q ->
  is_finite (fmul b (Fin s k)) = true ->
  is_finite (fmul b (Fin s' k')) = true ->
  (F2Q (Fin s k) <= F2Q (Fin s' k'))%Q ->
  (F2Q (fmul b (Fin s k)) <= F2Q (fmul b (Fin s' k')))%Q.
Proof.
  intros Fb Hb F1 F2 H.
  destruct b as [sb mb| |]; [|discriminate Fb|discriminate Fb].
  unfold fmul in *.
  apply (round_Q_le (xorb sb s) (xorb sb s') _ _ _ _ eq_refl eq_refl F1 F2).
  rewrite !(Qmult_comm (F2Q (Fin sb mb))).
  apply Qmult_le_compat_r; [exact H | lra].
Qed.

(** Within a generous range and with an accurate library the cost exists:
    it is the ceiling of the product of the base cost with the library's
    power, and lies between the ceilings of the products with the two ends
    of what the power may be. *)
Lemma upgrade_cost_in_range {L : Libm} (b m : float64) (n : Z) (w : World) :
  pow_accurate L ->
  is_finite b = true -> (0 < F2Q b)%Q -> (F2Q b <= inject_Z (2 ^ 500))%Q ->
  valid m = true -> is_finite m = true -> (1 < F2Q m)%Q ->
  1 <= n <= 2 ^ 53 -> (Qpower (F2Q m) n <= inject_Z (2 ^ 500))%Q ->
  exists p,
    float_pow_int m n = Ok p /\ is_finite p = true /\
    ext (pow_low (Qpower (F2Q m) n)) <= ext p <=
      ext (pow_high (Qpower (F2Q m) n)) /\
    is_finite (fmul b p) = true /\
    calculate_upgrade_cost (PyFloat b) n (PyFloat m) w =
      Ok (Qceiling (F2Q (fmul b p))) /\
    Qceiling (F2Q (fmul b (pow_low (Qpower (F2Q m) n)))) <=
      Qceiling (F2Q (fmul b p)) <=
      Qceiling (F2Q (fmul b (pow_high (Qpower (F2Q m) n)))).
Proof.
  intros A Fb Hb Hb' Vm Fm Hm Hn Hp.
  destruct (int_to_float_exact n ltac:(lia)) as (k & Ei & Ek & _).
  pose proof (pow_accurate_at m _ n A Vm Fm Hm (proj1 Hn) Ei) as HA.
  cbv zeta in HA. rewrite (exact_power_of_level m n k Ek) in HA.
  destruct HA as (Vr & Nr & [Lo Hi] & _).
  assert (Hq : (0 <= Qpower (F2Q m) n)%Q) by (apply Qpower_0_le; lra).
  destruct (pow_ends_in_range _ Hq Hp)
    as (sl & kl & sh & kh & Rl & Rh & Hl0 & Hlh & Hh1 & Vh).
  assert (Hhi' := Hi). rewrite Rh in Hhi'.
  destruct (pow_result_finite _ (Fin sh kh) _ Vr Nr Hq Lo Vh eq_refl Hhi')
    as (Fr & Hr0 & Hrh).
  exists (fst (libm_pow m (Fin false k))).
  rewrite upgrade_cost_float.
  rewrite (float_pow_int_gt1 m n A Vm Fm Hm (proj1 Hn)), Ei.
  cbn [bind]. cbv zeta. rewrite Fr. cbn [bind].
  destruct (fst (libm_pow m (Fin false k))) as [s j| |] eqn:Er;
    [|discriminate Fr|discriminate Fr].
  assert (Hlr : (F2Q (Fin sl kl) <= F2Q (Fin s j))%Q).
  { apply F2Q_le_ext; [reflexivity | reflexivity|]. rewrite <- Rl. exact Lo. }
  assert (Fp : is_finite (fmul b (Fin s j)) = true).
  { apply product_in_range; auto. lra. }
  assert (Fl : is_finite (fmul b (Fin sl kl)) = true).
  { apply product_in_range; auto. lra. }
  assert (Fh : is_finite (fmul b (Fin sh kh)) = true).
  { apply product_in_range; auto. lra. }
  split; [reflexivity|]. split; [reflexivity|].
  split; [split; [exact Lo | exact Hi]|].
  split; [exact Fp|].
  split.
  { destruct (fmul b (Fin s j)) as [t i| |]; try discriminate Fp.
    reflexivity. }
  rewrite Rl, Rh. split; apply Qceiling_resp_le, product_le; auto.
Qed.

(** A cost is known as soon as both ends give it. *)
Lemma upgrade_cost_known {L : Libm} (b m : float64) (n c : Z) (w : World) :
  pow_accurate L ->
  is_finite b = true -> (0 < F2Q b)%Q -> (F2Q b <= inject_Z (2 ^ 500))%Q ->
  valid m = true -> is_finite m = true -> (1 < F2Q m)%Q ->
  1 <= n <= 2 ^ 53 -> (Qpower (F2Q m) n <= inject_Z (2 ^ 500))%Q ->
  Qceiling (F2Q (fmul b (pow_low (Qpower (F2Q m) n)))) = c ->
  Qceiling (F2Q (fmul b (pow_high (Qpower (F2Q m) n)))) = c ->
  calculate_upgrade_cost (PyFloat b) n (PyFloat m) w = Ok c.
Proof.
  intros A Fb Hb Hb' Vm Fm Hm Hn Hp El Eh.
  destruct (upgrade_cost_in_range b m n w A Fb Hb Hb' Vm Fm Hm Hn Hp)
    as (p & _ & _ & _ & _ & Ec & Hl & Hh).
  rewrite Ec. f_equal. lia.
Qed.

(** At level 0 the cost is the ceiling of the base cost. *)
Lemma upgrade_cost_level_0_float {L : Libm} (b : float64) (m : pynum)
    (w : World) :
  valid b = true -> is_finite b = true ->
  calculate_upgrade_cost (PyFloat b) 0 m w = Ok (Qceiling (F2Q b)).
Proof.
  intros V F. unfold calculate_upgrade_cost, lift.
  assert (E : bind (py_pow m 0) (fun p => num_mul (PyFloat b) p) =
              Ok (PyFloat b)).
  { destruct m as [k|x]; unfold py_pow.
    - change (0 <=? 0) with true. change (k ^ 0) with 1. cbn [bind].
      apply num_mul_float_one; auto.
    - rewrite float_pow_int_0. cbn [bind].
      rewrite num_mul_float_float, (fmul_one_r b V). reflexivity. }
  destruct (py_pow m 0) as [p|]; [|discriminate]. cbn [bind] in *.
  rewrite E. cbn [bind]. destruct b; try discriminate. reflexivity.
Qed.

Lemma upgrade_cost_level_0_int {L : Libm} (n : Z) (m : pynum) (w : World) :
  0 <= n <= 2 ^ 53 ->
  calculate_upgrade_cost (PyInt n) 0 m w = Ok n.
Proof.
  intros Hn. unfold calculate_upgrade_cost, lift.
  destruct m as [k|x]; unfold py_pow.
  - change (0 <=? 0) with true. change (k ^ 0) with 1. cbn [bind num_mul].
    rewrite Z.mul_1_r. reflexivity.
  - rewrite float_pow_int_0. cbn [bind].
    unfold num_mul, to_float.
    destruct (int_to_float_exact n Hn) as (k & Ei & Ek & Vk).
    rewrite Ei. cbn [bind]. rewrite (fmul_one_r _ Vk).
    cbn [math_ceil]. f_equal. unfold Qceiling.
    assert (E : (- F2Q (Fin false k) == inject_Z (- n))%Q)
      by (rewrite Ek, inject_Z_opp; reflexivity).
    rewrite (Qfloor_comp _ _ E), Qfloor_Z. lia.
Qed.
(** The cost at a level exists, and is not greater, whenever the cost at
    the next level exists. *)
Lemma upgrade_cost_step {L : Libm} (w : World) (b m : float64) (n c' : Z) :
  pow_accurate L ->
  is_finite b = true -> (0 < F2Q b)%Q ->
  valid m = true -> is_finite m = true ->
  (1 + 3 * pow_tolerance <= F2Q m)%Q -> 0 <= n ->
  calculate_upgrade_cost (PyFloat b) (n + 1) (PyFloat m) w = Ok c' ->
  exists c, calculate_upgrade_cost (PyFloat b) n (PyFloat m) w = Ok c /\
            c <= c'.
Proof.
  intros A Fb Hb Vm Fm Hm Hn Hc'. rewrite upgrade_cost_float in *.
  destruct (float_pow_int m (n + 1)) as [p'|e] eqn:E'; [|discriminate Hc'].
  destruct (float_pow_int_step m n p' A Vm Fm Hm Hn E')
    as (p & Ep & Fp & Fp' & Hp0 & Hpp).
  rewrite Ep. cbn [bind] in *.
  apply math_ceil_finite in Hc' as [Fc' ->].
  destruct p as [s k| |]; [|discriminate Fp|discriminate Fp].
  destruct p' as [s' k'| |]; [|discriminate Fp'|discriminate Fp'].
  destruct b as [sb mb| |]; [|discriminate Fb|discriminate Fb].
  unfold fmul in *.
  destruct (round_Q (xorb sb s') (F2Q (Fin sb mb) * F2Q (Fin s' k')))
    as [t' j'| |] eqn:P'; [|discriminate Fc'|discriminate Fc'].
  assert (Hprod0 : (0 <= F2Q (Fin sb mb) * F2Q (Fin s k))%Q).
  { apply Qmult_le_0_compat; [apply Qlt_le_weak; exact Hb | exact Hp0]. }
  assert (Hprod : (F2Q (Fin sb mb) * F2Q (Fin s k) <=
                   F2Q (Fin sb mb) * F2Q (Fin s' k'))%Q).
  { rewrite !(Qmult_comm (F2Q (Fin sb mb))).
    apply Qmult_le_compat_r; [exact Hpp | apply Qlt_le_weak; exact Hb]. }
  destruct (round_Q_finite_below (xorb sb s) (xorb sb s') _ _ t' j'
              Hprod0 Hprod P')
    as (t & j & P & _ & Hj).
  exists (Qceiling (F2Q (Fin t j))). split.
  - rewrite P. reflexivity.
  - apply Qceiling_resp_le. exact Hj.
Qed.

(** With base cost 1.0 and multiplier 1.15, levels 1 and 2 both cost 2,
    whatever the accurate library. *)
Lemma upgrade_cost_flat_levels {L : Libm} (w : World) :
  pow_accurate L ->
  calculate_upgrade_cost (PyFloat (literal 1 0)) 1 default_multiplier w =
    Ok 2 /\
  calculate_upgrade_cost (PyFloat (literal 1 0)) 2 default_multiplier w =
    Ok 2.
Proof.
  intros A. unfold default_multiplier.
  split; apply upgrade_cost_known; try exact A;
    try (vm_compute; reflexivity); try (vm_compute; discriminate);
    (split; [lia | vm_compute; discriminate]).
Qed.




(** C6 refuted as stated: with base cost 0.5 the first purchase costs 1,
    not 0.5 (no power is computed at level 0, whatever the library). *)
Lemma upgrade_cost_first_purchase_rounds_up :
  calculate_upgrade_cost (L := correctly_rounded) (PyFloat (literal 5 1)) 0
    default_multiplier {| clock := 0; settings := default_settings |} =
    Ok 1 /\
  calculate_upgrade_cost (L := rounded_above) (PyFloat (literal 5 1)) 0
    default_multiplier {| clock := 0; settings := default_settings |} =
    Ok 1 /\
  (F2Q (literal 5 1) == 1 # 2)%Q /\
  ~ (inject_Z 1 == F2Q (literal 5 1))%Q.
Proof.
  split; [vm_compute; reflexivity|]. split; [vm_compute; reflexivity|].
  split; [vm_compute; reflexivity|].
  vm_compute. discriminate.
Qed.

(** C6, as the code has it: the cost is the ceiling of the product, in
    doubles, of the base cost with the power that the C library's [pow]
    returns; when that is accurate to one unit in the last place the cost
    is returned for every input in the range stated and lies between the
    ceilings of the products with the two ends of what the power may be;
    at level 0, where no power is computed, it is the ceiling of the base
    cost, hence the base cost itself when that is a whole number; and base
    50 with multiplier 1.15 costs 50 at level 0 and 58 at level 1. *)
Theorem upgrade_cost_is_ceiling {L : Libm} (w : World) :
  pow_accurate L ->
  (forall (b m : float64) (n : Z),
     is_finite b = true -> (0 < F2Q b)%Q ->
     (F2Q b <= inject_Z (2 ^ 500))%Q ->
     valid m = true -> is_finite m = true -> (1 < F2Q m)%Q ->
     1 <= n <= 2 ^ 53 -> (Qpower (F2Q m) n <= inject_Z (2 ^ 500))%Q ->
     exists p,
       float_pow_int m n = Ok p /\ is_finite p = true /\
       ext (pow_low (Qpower (F2Q m) n)) <= ext p <=
         ext (pow_high (Qpower (F2Q m) n)) /\
       is_finite (fmul b p) = true /\
       calculate_upgrade_cost (PyFloat b) n (PyFloat m) w =
         Ok (Qceiling (F2Q (fmul b p))) /\
       Qceiling (F2Q (fmul b (pow_low (Qpower (F2Q m) n)))) <=
         Qceiling (F2Q (fmul b p)) <=
         Qceiling (F2Q (fmul b (pow_high (Qpower (F2Q m) n))))) /\
  (forall (b : float64) (m : pynum),
     valid b = true -> is_finite b = true ->
     calculate_upgrade_cost (PyFloat b) 0 m w = Ok (Qceiling (F2Q b))) /\
  (forall (n : Z) (m : pynum),
     0 <= n <= 2 ^ 53 ->
     calculate_upgrade_cost (PyInt n) 0 m w = Ok n) /\
  calculate_upgrade_cost (PyInt 50) 0 default_multiplier w = Ok 50 /\
  calculate_upgrade_cost (PyInt 50) 1 default_multiplier w = Ok 58 /\
  calculate_upgrade_cost (PyFloat (literal 50 0)) 0 default_multiplier w =
    Ok 50 /\
  calculate_upgrade_cost (PyFloat (literal 50 0)) 1 default_multiplier w =
    Ok 58.
Proof.
  intros A.
  assert (H58 : calculate_upgrade_cost (PyFloat (literal 50 0)) 1
                  default_multiplier w = Ok 58).
  { unfold default_multiplier.
    apply upgrade_cost_known; try exact A;
      try (vm_compute; reflexivity); try (vm_compute; discriminate).
    split; [lia | vm_compute; discriminate]. }
  split.
  { intros b m n. apply upgrade_cost_in_range. exact A. }
  split.
  { intros b m. apply upgrade_cost_level_0_float. }
  split.
  { intros n m. apply upgrade_cost_level_0_int. }
  split.
  { apply upgrade_cost_level_0_int. split; [lia | vm_compute; discriminate]. }
  split.
  { unfold default_multiplier.
    rewrite (upgrade_cost_int_base 50 (literal 50 0))
      by (vm_compute; reflexivity).
    exact H58. }
  split; [|exact H58].
  rewrite upgrade_cost_level_0_float by (vm_compute; reflexivity).
  vm_compute. reflexivity.
Qed.

Lemma upgrade_cost_is_ceiling_witness :
  calculate_upgrade_cost (L := correctly_rounded) (PyFloat (literal 5 1)) 0
    (PyInt 2) {| clock := 0; settings := default_settings |} =
    Ok (Qceiling (F2Q (literal 5 1))) /\
  calculate_upgrade_cost (L := correctly_rounded) (PyInt 50) 0 (PyInt 2)
    {| clock := 0; settings := default_settings |} = Ok 50 /\
  calculate_upgrade_cost (L := correctly_rounded) (PyFloat (literal 50 0)) 1
    default_multiplier {| clock := 0; settings := default_settings |} =
    Ok 58.
Proof.
  destruct (upgrade_cost_is_ceiling (L := correctly_rounded)
              {| clock := 0; settings := default_settings |}
              correctly_rounded_accurate)
    as (_ & Hb & Hc & _ & _ & _ & H58).
  split; [|split].
  - apply Hb; vm_compute; reflexivity.
  - apply Hc. split; [lia | vm_compute; discriminate].
  - exact H58.
Defined.

(** Sample costs, the same with every accurate library: the values CPython
    3.11 prints. *)
Example cost_samples {L : Libm} (w : World) :
  pow_accurate L ->
  calculate_upgrade_cost (PyFloat (literal 50 0)) 4 default_multiplier w =
    Ok 88 /\
  calculate_upgrade_cost (PyFloat (literal 50 0)) 5 default_multiplier w =
    Ok 101 /\
  calculate_upgrade_cost (PyFloat (literal 200 0)) 3 default_multiplier w =
    Ok 305.
Proof.
  intros A. unfold default_multiplier.
  split; [|split]; apply upgrade_cost_known; try exact A;
    try (vm_compute; reflexivity); try (vm_compute; discriminate);
    (split; [lia | vm_compute; discriminate]).
Qed.

(** ** More on the leaderboard rank *)

Lemma flt_irrefl (x : float64) : flt x x = false.
Proof.
  unfold flt, fcompare. destruct x as [s m|s|]; auto.
  - rewrite (proj1 (Qeq_alt _ _) (Qeq_refl _)). reflexivity.
  - rewrite eqb_reflx. reflexivity.
Qed.

Lemma flt_trans (x y z : float64) :
  flt x y = true -> flt y z = true -> flt x z = true.
Proof.
  unfold flt, fcompare.
  destruct x as [s m|s|], y as [t n|t|], z as [u k|u|];
    try discriminate; try (destruct s, t, u; simpl; congruence);
    try (destruct s, t; simpl; congruence);
    try (destruct t, u; simpl; congruence);
    try (destruct s, u; simpl; congruence);
    try (destruct s; simpl; congruence);
    try (destruct t; simpl; congruence);
    try (destruct u; simpl; congruence).
  destruct (Qcompare_spec (F2Q (Fin s m)) (F2Q (Fin t n))) as [E|L|G];
    try discriminate.
  destruct (Qcompare_spec (F2Q (Fin t n)) (F2Q (Fin u k))) as [E'|L'|G'];
    try discriminate.
  intros _ _.
  rewrite (proj1 (Qlt_alt _ _) (Qlt_trans _ _ _ L L')). reflexivity.
Qed.

(** Two doubles that compare equal compare alike with any third. *)
Lemma flt_feq_l (x x' y : float64) :
  feq x x' = true -> flt x y = flt x' y.
Proof.
  unfold feq, flt, fcompare.
  destruct x as [s m|s|], x' as [t n|t|]; try discriminate;
    try (destruct s; discriminate); try (destruct t; discriminate).
  - destruct (Qcompare_spec (F2Q (Fin s m)) (F2Q (Fin t n))) as [E|L|G];
      try discriminate.
    intros _. destruct y as [u k|u|]; auto.
    rewrite (Qcompare_comp _ _ E _ _ (Qeq_refl (F2Q (Fin u k)))).
    reflexivity.
  - destruct s, t; simpl; try discriminate; reflexivity.
Qed.

(** With [user_id] a key, the subquery yields the row's own column. *)
Lemma select_total_earned_member (user_progress : list progress_row)
    (r : progress_row) :
  List.NoDup (map user_id user_progress) -> In r user_progress ->
  select_total_earned user_progress (user_id r) = total_earned r.
Proof.
  unfold select_total_earned.
  induction user_progress as [|r0 rest IH]; intros Hnd Hin; [contradiction|].
  simpl in Hnd. apply NoDup_cons_iff in Hnd as [Hfresh Hnd].
  simpl. destruct (Z.eqb_spec (user_id r0) (user_id r)) as [E|N].
  - destruct Hin as [->|Hin]; [reflexivity|].
    exfalso. apply Hfresh. rewrite E. apply in_map. exact Hin.
  - destruct Hin as [->|Hin]; [congruence|]. apply IH; auto.
Qed.

Lemma rows_above_le (user_progress : list progress_row)
    (x : option float64) :
  (length (List.filter
             (fun r => sql_true (sql_gt (total_earned r) x))
             user_progress) <= length user_progress)%nat.
Proof.
  induction user_progress as [|r rest IH]; simpl; auto.
  destruct (sql_true _); simpl; lia.
Qed.

(** Counting under a weaker condition that some row meets alone counts
    strictly more rows. *)
Lemma filter_length_lt {A : Type} (p q : A -> bool) (l : list A) (a : A) :
  (forall b, p b = true -> q b = true) ->
  In a l -> p a = false -> q a = true ->
  (length (List.filter p l) < length (List.filter q l))%nat.
Proof.
  intros Hpq Hin Hp Hq.
  assert (Hle : forall l', (length (List.filter p l') <=
                            length (List.filter q l'))%nat).
  { induction l' as [|b l' IH]; simpl; auto.
    destruct (p b) eqn:Pb.
    - rewrite (Hpq b Pb). simpl. lia.
    - destruct (q b); simpl; lia. }
  induction l as [|b l IH]; [contradiction|].
  simpl. destruct Hin as [->|Hin].
  - rewrite Hp, Hq. simpl. specialize (Hle l). lia.
  - specialize (IH Hin). destruct (p b) eqn:Pb.
    + rewrite (Hpq b Pb). simpl. lia.
    + destruct (q b); simpl; lia.
Qed.

(** X1: two recorded players whose [total_earned] compare equal get the
    same rank. *)
Theorem tied_players_share_rank (user_progress : list progress_row)
    (r1 r2 : progress_row) (x y : float64) :
  List.NoDup (map user_id user_progress) ->
  In r1 user_progress -> In r2 user_progress ->
  total_earned r1 = Some x -> total_earned r2 = Some y ->
  feq x y = true ->
  get_user_rank user_progress (user_id r1) =
  get_user_rank user_progress (user_id r2).
Proof.
  intros Hnd H1 H2 E1 E2 Heq.
  rewrite !get_user_rank_some.
  rewrite (select_total_earned_member _ _ Hnd H1), E1.
  rewrite (select_total_earned_member _ _ Hnd H2), E2.
  do 4 f_equal. apply filter_ext. intros r.
  destruct (total_earned r) as [z|]; simpl; [|reflexivity].
  rewrite (flt_feq_l x y z Heq). reflexivity.
Qed.

Lemma tied_players_share_rank_witness :
  get_user_rank
    [ {| user_id := 1; total_earned := Some (literal 100 0) |};
      {| user_id := 2; total_earned := Some (literal 50 0) |};
      {| user_id := 3; total_earned := Some (literal 50 0) |} ] 2 =
  get_user_rank
    [ {| user_id := 1; total_earned := Some (literal 100 0) |};
      {| user_id := 2; total_earned := Some (literal 50 0) |};
      {| user_id := 3; total_earned := Some (literal 50 0) |} ] 3.
Proof.
  apply (tied_players_share_rank
           [ {| user_id := 1; total_earned := Some (literal 100 0) |};
             {| user_id := 2; total_earned := Some (literal 50 0) |};
             {| user_id := 3; total_earned := Some (literal 50 0) |} ]
           {| user_id := 2; total_earned := Some (literal 50 0) |}
           {| user_id := 3; total_earned := Some (literal 50 0) |}
           (literal 50 0) (literal 50 0)).
  - repeat constructor; simpl; intuition lia.
  - simpl. auto.
  - simpl. auto.
  - exact eq_refl.
  - exact eq_refl.
  - vm_compute. reflexivity.
Defined.

(** X2: a recorded player who earned strictly more than another is ranked
    strictly better. *)
Theorem more_earned_ranks_better (user_progress : list progress_row)
    (r1 r2 : progress_row) (x y : float64) (k1 k2 : Z) :
  List.NoDup (map user_id user_progress) ->
  In r1 user_progress -> In r2 user_progress ->
  total_earned r1 = Some x -> total_earned r2 = Some y ->
  flt y x = true ->
  get_user_rank user_progress (user_id r1) = Some k1 ->
  get_user_rank user_progress (user_id r2) = Some k2 ->
  k1 < k2.
Proof.
  intros Hnd H1 H2 E1 E2 Hlt.
  rewrite !get_user_rank_some.
  rewrite (select_total_earned_member _ _ Hnd H1), E1.
  rewrite (select_total_earned_member _ _ Hnd H2), E2.
  intros K1 K2. apply (f_equal (fun o => default 0 o)) in K1, K2.
  simpl in K1, K2. subst k1 k2.
  assert (Hl := filter_length_lt
                  (fun r => sql_true (sql_gt (total_earned r) (Some x)))
                  (fun r => sql_true (sql_gt (total_earned r) (Some y)))
                  user_progress r1).
  cbv beta in Hl. rewrite E1 in Hl. simpl in Hl.
  rewrite flt_irrefl, Hlt in Hl.
  specialize (Hl ltac:(intros b; destruct (total_earned b) as [z|]; simpl;
                       [|discriminate];
                       destruct (flt x z) eqn:Hz; [|discriminate];
                       intros _; rewrite (flt_trans _ _ _ Hlt Hz); reflexivity)
                 H1 eq_refl eq_refl).
  lia.
Qed.

Lemma more_earned_ranks_better_witness : 1 < 2.
Proof.
  apply (more_earned_ranks_better
           [ {| user_id := 1; total_earned := Some (literal 100 0) |};
             {| user_id := 2; total_earned := Some (literal 50 0) |} ]
           {| user_id := 1; total_earned := Some (literal 100 0) |}
           {| user_id := 2; total_earned := Some (literal 50 0) |}
           (literal 100 0) (literal 50 0) 1 2).
  - repeat constructor; simpl; intuition lia.
  - simpl. auto.
  - simpl. auto.
  - exact eq_refl.
  - exact eq_refl.
  - vm_compute. reflexivity.
  - vm_compute. reflexivity.
  - vm_compute. reflexivity.
Defined.

(** X3: the rank is at least 1 and at most one more than the number of
    rows; for a recorded player whose [total_earned] is not NULL it is at
    most the number of rows. *)
Theorem rank_bounds (user_progress : list progress_row) (uid : Z) :
  exists k,
    get_user_rank user_progress uid = Some k /\
    1 <= k <= Z.of_nat (length user_progress) + 1 /\
    (forall r x,
       List.NoDup (map user_id user_progress) ->
       In r user_progress -> user_id r = uid -> total_earned r = Some x ->
       k <= Z.of_nat (length user_progress)).
Proof.
  rewrite get_user_rank_some. eexists. split; [reflexivity|]. split.
  - pose proof (rows_above_le user_progress
                  (select_total_earned user_progress uid)). lia.
  - intros r x Hnd Hin <- Ex.
    rewrite (select_total_earned_member _ _ Hnd Hin), Ex.
    assert (Hl := filter_length_lt
                    (fun r => sql_true (sql_gt (total_earned r) (Some x)))
                    (fun _ => true) user_progress r
                    (fun _ _ => eq_refl) Hin).
    cbv beta in Hl. rewrite Ex in Hl. simpl in Hl. rewrite flt_irrefl in Hl.
    specialize (Hl eq_refl eq_refl).
    rewrite (forallb_filter_id (fun _ => true) user_progress) in Hl.
    + lia.
    + apply forallb_forall. auto.
Qed.

Lemma rank_bounds_witness :
  exists k,
    get_user_rank
      [ {| user_id := 1; total_earned := Some (literal 100 0) |};
        {| user_id := 2; total_earned := Some (literal 50 0) |} ] 2 =
      Some k /\ k <= 2.
Proof.
  destruct (rank_bounds
              [ {| user_id := 1; total_earned := Some (literal 100 0) |};
                {| user_id := 2; total_earned := Some (literal 50 0) |} ] 2)
    as (k & E & _ & H).
  exists k. split; [exact E|].
  apply (H {| user_id := 2; total_earned := Some (literal 50 0) |}
           (literal 50 0)).
  - repeat constructor; simpl; intuition lia.
  - simpl. auto.
  - exact eq_refl.
  - exact eq_refl.
Defined.

(** X4: a recorded player whose [total_earned] is NULL is ranked 1, like a
    player without a record. *)
Theorem null_total_ranks_first (user_progress : list progress_row)
    (r : progress_row) :
  List.NoDup (map user_id user_progress) -> In r user_progress ->
  total_earned r = None ->
  get_user_rank user_progress (user_id r) = Some 1.
Proof.
  intros Hnd Hin E.
  rewrite get_user_rank_some, (select_total_earned_member _ _ Hnd Hin), E.
  rewrite nothing_above_null. reflexivity.
Qed.

Lemma null_total_ranks_first_witness :
  get_user_rank
    [ {| user_id := 1; total_earned := Some (literal 100 0) |};
      {| user_id := 2; total_earned := None |} ] 2 = Some 1.
Proof.
  apply (null_total_ranks_first
           [ {| user_id := 1; total_earned := Some (literal 100 0) |};
             {| user_id := 2; total_earned := None |} ]
           {| user_id := 2; total_earned := None |}).
  - repeat constructor; simpl; intuition lia.
  - simpl. auto.
  - exact eq_refl.
Defined.

(** ** Magnitude bounds *)

Lemma two_pow_spec (neg : bool) (e : Z) :
  0 <= e <= 1023 ->
  valid (two_pow neg e) = true /\
  (F2Q (two_pow neg e) == inject_Z (signed neg (2 ^ e)))%Q.
Proof.
  intros He. unfold two_pow, valid.
  assert (Hp : 0 < 2 ^ (e + 1074)) by (apply Z.pow_pos_nonneg; lia).
  rewrite Z2N.id by lia. split.
  - apply andb_true_intro. split.
    + apply Z.ltb_lt. unfold overflow_threshold.
      apply Z.pow_lt_mono_r; lia.
    + apply Z.eqb_eq.
      replace (2 ^ (e + 1074)) with (2 ^ 52 * 2 ^ (e + 1022))
        by (rewrite <- Z.pow_add_r by lia; f_equal; lia).
      apply round_mag_exact; [lia | split; [|] | intros _; lia].
      * vm_compute. discriminate.
      * vm_compute. discriminate.
  - unfold F2Q. rewrite Z2N.id by lia.
    unfold Qeq, inject_Z. cbn [Qnum Qden]. change (Zpos scale) with (2 ^ 1074).
    rewrite Z.pow_add_r by lia. destruct neg; unfold signed; ring.
Qed.

(** A result whose exact value is within [2^e] in magnitude is finite and
    within [2^e]. *)
Lemma round_Q_within (z : bool) (q : Q) (e : Z) :
  0 <= e <= 1023 ->
  (- inject_Z (2 ^ e) <= q)%Q -> (q <= inject_Z (2 ^ e))%Q ->
  exists s m, round_Q z q = Fin s m /\
              (- inject_Z (2 ^ e) <= F2Q (Fin s m))%Q /\
              (F2Q (Fin s m) <= inject_Z (2 ^ e))%Q.
Proof.
  intros He Hlo Hhi.
  destruct (two_pow_spec false e He) as [Vp Ep].
  destruct (two_pow_spec true e He) as [Vn En].
  unfold signed in Ep, En. rewrite inject_Z_opp in En.
  assert (Hlo' : (F2Q (two_pow true e) <= q)%Q) by (rewrite En; exact Hlo).
  assert (Hhi' : (q <= F2Q (two_pow false e))%Q) by (rewrite Ep; exact Hhi).
  destruct (round_Q_between z q (two_pow true e) (two_pow false e)
              Vn Vp eq_refl eq_refl Hlo' Hhi') as (s & m & R & A & B).
  exists s, m. rewrite En in A. rewrite Ep in B. auto.
Qed.

Lemma pow2_le_Q (a b : Z) :
  0 <= a <= b -> (inject_Z (2 ^ a) <= inject_Z (2 ^ b))%Q.
Proof. intros H. rewrite <- Zle_Qle. apply Z.pow_le_mono_r; lia. Qed.

Lemma pow2_pos_Q (a : Z) : 0 <= a -> (0 < inject_Z (2 ^ a))%Q.
Proof. apply inject_pow2_pos. Qed.

Lemma pow2_double_Q (a : Z) :
  0 <= a -> (inject_Z (2 ^ (a + 1)) == 2 * inject_Z (2 ^ a))%Q.
Proof.
  intros H. rewrite Z.pow_add_r by lia. rewrite inject_Z_mult.
  change (inject_Z (2 ^ 1)) with 2%Q. ring.
Qed.

Lemma F2Q_abs (s : bool) (m : N) :
  (Qabs (F2Q (Fin s m)) == Qmake (Z.of_N m) scale)%Q.
Proof. destruct s; unfold Qeq, Qabs, F2Q, signed; simpl; lia. Qed.

Lemma F2Q_sign_neg (m : N) : (F2Q (Fin true m) <= 0)%Q.
Proof. unfold F2Q, Qle; simpl. lia. Qed.

Lemma RNE_nonneg (q : Q) : (0 <= q)%Q -> 0 <= RNE q.
Proof. intros H. rewrite <- (RNE_Z 0). apply RNE_mono. exact H. Qed.

Lemma RNE_near (q : Q) :
  (inject_Z (RNE q) <= q + 1)%Q /\ (q - 1 <= inject_Z (RNE q))%Q.
Proof.
  destruct (Qfloor_bounds q) as [Hlo Hhi].
  rewrite inject_Z_plus in Hhi. change (inject_Z 1) with 1%Q in Hhi.
  destruct (RNE_cases q) as [[-> _]|[-> _]].
  - split; lra.
  - rewrite inject_Z_plus. change (inject_Z 1) with 1%Q. split; lra.
Qed.

(** ** More on the minigame reward *)

Lemma per_point_range (game_type : string) :
  is_finite (Spec.per_point game_type) = true /\
  (0 <= F2Q (Spec.per_point game_type))%Q /\
  (F2Q (Spec.per_point game_type) <= 1)%Q.
Proof.
  unfold Spec.per_point.
  destruct (String.eqb game_type "burger_flip");
    [|destruct (String.eqb game_type "speed_tap");
      [|destruct (String.eqb game_type "memory")]];
    (split; [vm_compute; reflexivity|split; vm_compute; discriminate]).
Qed.

(** The count of hundredths that [round(x, 2)] keeps grows with [x]. *)
Lemma hundredths_mono (s1 s2 : bool) (m1 m2 : N) :
  (F2Q (Fin s1 m1) <= F2Q (Fin s2 m2))%Q ->
  signed s1 (RNE (Qabs (F2Q (Fin s1 m1)) * 100)) <=
  signed s2 (RNE (Qabs (F2Q (Fin s2 m2)) * 100)).
Proof.
  intros H.
  assert (N1 : 0 <= RNE (Qabs (F2Q (Fin s1 m1)) * 100)).
  { apply RNE_nonneg. pose proof (Qabs_nonneg (F2Q (Fin s1 m1))). lra. }
  assert (N2 : 0 <= RNE (Qabs (F2Q (Fin s2 m2)) * 100)).
  { apply RNE_nonneg. pose proof (Qabs_nonneg (F2Q (Fin s2 m2))). lra. }
  assert (A1 := F2Q_abs s1 m1). assert (A2 := F2Q_abs s2 m2).
  destruct s1, s2; unfold signed at 1 2.
  - assert (RNE (Qabs (F2Q (Fin true m2)) * 100) <=
            RNE (Qabs (F2Q (Fin true m1)) * 100)); [|lia].
    apply RNE_mono. rewrite A1, A2.
    unfold F2Q, signed, Qle in *; simpl in *. nia.
  - lia.
  - assert (E1 : (Qabs (F2Q (Fin false m1)) * 100 == inject_Z 0)%Q).
    { rewrite A1. unfold F2Q, signed, Qle, Qeq in *; simpl in *. nia. }
    assert (E2 : (Qabs (F2Q (Fin true m2)) * 100 == inject_Z 0)%Q).
    { rewrite A2. unfold F2Q, signed, Qle, Qeq in *; simpl in *. nia. }
    rewrite (RNE_comp _ _ E1), (RNE_comp _ _ E2), RNE_Z. lia.
  - apply RNE_mono. rewrite A1, A2.
    unfold F2Q, signed, Qle in *; simpl in *. nia.
Qed.

Lemma hundredths_near (s : bool) (m : N) :
  (F2Q (Fin s m) - (1 # 100) <=
   inject_Z (signed s (RNE (Qabs (F2Q (Fin s m)) * 100))) / 100)%Q /\
  (inject_Z (signed s (RNE (Qabs (F2Q (Fin s m)) * 100))) / 100 <=
   F2Q (Fin s m) + (1 # 100))%Q.
Proof.
  destruct (RNE_near (Qabs (F2Q (Fin s m)) * 100)) as [Hup Hdn].
  destruct s; unfold signed at 1 2.
  - assert (E : (Qabs (F2Q (Fin true m)) == - F2Q (Fin true m))%Q)
      by (apply Qabs_neg, F2Q_sign_neg).
    rewrite inject_Z_opp.
    split; apply Qle_shift_div_l || apply Qle_shift_div_r;
      try reflexivity; lra.
  - assert (E : (Qabs (F2Q (Fin false m)) == F2Q (Fin false m))%Q)
      by (apply Qabs_pos, F2Q_nonneg_of_sign).
    split; apply Qle_shift_div_l || apply Qle_shift_div_r;
      try reflexivity; lra.
Qed.

(** [round(x, 2)] returns for a double within [2^1001] and is monotone. *)
Lemma float_round2_mono (s1 s2 : bool) (m1 m2 : N) :
  (- inject_Z (2 ^ 1001) <= F2Q (Fin s1 m1))%Q ->
  (F2Q (Fin s1 m1) <= F2Q (Fin s2 m2))%Q ->
  (F2Q (Fin s2 m2) <= inject_Z (2 ^ 1001))%Q ->
  exists r1 r2,
    float_round2 (Fin s1 m1) = Ok r1 /\ float_round2 (Fin s2 m2) = Ok r2 /\
    is_finite r1 = true /\ is_finite r2 = true /\
    (F2Q r1 <= F2Q r2)%Q.
Proof.
  intros Hlo Hle Hhi.
  pose proof (hundredths_mono s1 s2 m1 m2 Hle) as Hg.
  destruct (hundredths_near s1 m1) as [L1 U1].
  destruct (hundredths_near s2 m2) as [L2 U2].
  set (g1 := signed s1 (RNE (Qabs (F2Q (Fin s1 m1)) * 100))) in *.
  set (g2 := signed s2 (RNE (Qabs (F2Q (Fin s2 m2)) * 100))) in *.
  assert (Hd := pow2_double_Q 1001 ltac:(lia)).
  change (1001 + 1) with 1002 in Hd.
  assert (Hp := pow2_pos_Q 1001 ltac:(lia)).
  assert (H1 : (1 <= inject_Z (2 ^ 1001))%Q).
  { change 1%Q with (inject_Z (2 ^ 0)). apply pow2_le_Q. lia. }
  destruct (round_Q_within s1 (inject_Z g1 / 100) 1002 ltac:(lia))
    as (t1 & k1 & R1 & _); [lra | lra |].
  destruct (round_Q_within s2 (inject_Z g2 / 100) 1002 ltac:(lia))
    as (t2 & k2 & R2 & _); [lra | lra |].
  exists (Fin t1 k1), (Fin t2 k2).
  unfold float_round2. fold g1 g2. rewrite R1, R2.
  repeat split; auto.
  apply (round_Q_le _ _ _ _ _ _ R1 R2); auto.
  apply Qmult_le_compat_r; [|vm_compute; discriminate].
  rewrite <- Zle_Qle. exact Hg.
Qed.

Lemma F2Q_15 : (F2Q (literal 15 1) == 3 # 2)%Q.
Proof. vm_compute. reflexivity. Qed.

Lemma py_round2_float (x : float64) :
  py_round2 (PyFloat x) = (r <- float_round2 x ;; Ok (PyFloat r)).
Proof. reflexivity. Qed.

(** The reward before [round]: a finite double within [2^1001], growing
    with the score. *)
Lemma reward_before_round (game_type : string) (s1 s2 : Z) :
  - 2 ^ 1000 <= s1 -> s1 <= s2 -> s2 <= 2 ^ 1000 ->
  exists (x1 x2 : float64) (t1 t2 : bool) (k1 k2 : N),
    int_to_float s1 = Ok x1 /\ int_to_float s2 = Ok x2 /\
    (if 50 <? s1
     then fmul (fmul x1 (Spec.per_point game_type)) (literal 15 1)
     else fmul x1 (Spec.per_point game_type)) = Fin t1 k1 /\
    (if 50 <? s2
     then fmul (fmul x2 (Spec.per_point game_type)) (literal 15 1)
     else fmul x2 (Spec.per_point game_type)) = Fin t2 k2 /\
    (- inject_Z (2 ^ 1001) <= F2Q (Fin t1 k1))%Q /\
    (F2Q (Fin t1 k1) <= F2Q (Fin t2 k2))%Q /\
    (F2Q (Fin t2 k2) <= inject_Z (2 ^ 1001))%Q.
Proof.
  intros Hlo Hle Hhi.
  destruct (per_point_range game_type) as (Fm & Hm0 & Hm1).
  destruct (Spec.per_point game_type) as [sm mm| |] eqn:Em;
    [|discriminate Fm|discriminate Fm].
  assert (Hp := pow2_pos_Q 1000 ltac:(lia)).
  assert (Hd := pow2_double_Q 1000 ltac:(lia)).
  change (1000 + 1) with 1001 in Hd.
  assert (B : forall s, - 2 ^ 1000 <= s <= 2 ^ 1000 ->
            (- inject_Z (2 ^ 1000) <= inject_Z s <= inject_Z (2 ^ 1000))%Q).
  { intros s [A1 A2]. rewrite <- inject_Z_opp, <- !Zle_Qle. lia. }
  destruct (B s1 ltac:(lia)) as [B1 B1'].
  destruct (B s2 ltac:(lia)) as [B2 B2'].
  destruct (round_Q_within false (inject_Z s1) 1000 ltac:(lia) B1 B1')
    as (a1 & n1 & R1 & X1 & X1').
  destruct (round_Q_within false (inject_Z s2) 1000 ltac:(lia) B2 B2')
    as (a2 & n2 & R2 & X2 & X2').
  assert (Hx : (F2Q (Fin a1 n1) <= F2Q (Fin a2 n2))%Q).
  { apply (round_Q_le _ _ _ _ _ _ R1 R2); auto. rewrite <- Zle_Qle. lia. }
  assert (P : forall a n,
            (- inject_Z (2 ^ 1000) <= F2Q (Fin a n))%Q ->
            (F2Q (Fin a n) <= inject_Z (2 ^ 1000))%Q ->
            (- inject_Z (2 ^ 1000) <= F2Q (Fin a n) * F2Q (Fin sm mm) /\
             F2Q (Fin a n) * F2Q (Fin sm mm) <= inject_Z (2 ^ 1000))%Q).
  { intros a n A1 A2. split; nra. }
  destruct (P a1 n1 X1 X1') as [P1 P1'].
  destruct (P a2 n2 X2 X2') as [P2 P2'].
  destruct (round_Q_within (xorb a1 sm) _ 1000 ltac:(lia) P1 P1')
    as (b1 & j1 & Y1 & Y1lo & Y1hi).
  destruct (round_Q_within (xorb a2 sm) _ 1000 ltac:(lia) P2 P2')
    as (b2 & j2 & Y2 & Y2lo & Y2hi).
  assert (Hy : (F2Q (Fin b1 j1) <= F2Q (Fin b2 j2))%Q).
  { apply (round_Q_le _ _ _ _ _ _ Y1 Y2); auto.
    apply Qmult_le_compat_r; auto. }
  assert (T : forall b j,
            (- inject_Z (2 ^ 1000) <= F2Q (Fin b j))%Q ->
            (F2Q (Fin b j) <= inject_Z (2 ^ 1000))%Q ->
            (- inject_Z (2 ^ 1001) <= F2Q (Fin b j) * F2Q (literal 15 1) /\
             F2Q (Fin b j) * F2Q (literal 15 1) <= inject_Z (2 ^ 1001))%Q).
  { intros b j A1 A2. rewrite F2Q_15. split; lra. }
  destruct (T b1 j1 Y1lo Y1hi) as [T1 T1'].
  destruct (T b2 j2 Y2lo Y2hi) as [T2 T2'].
  assert (E15 : exists s15 m15, literal 15 1 = Fin s15 m15).
  { assert (F : is_finite (literal 15 1) = true) by (vm_compute; reflexivity).
    destruct (literal 15 1) as [s15 m15| |];
      [eauto | discriminate F | discriminate F]. }
  destruct E15 as (s15 & m15 & E15).
  assert (Q15 := F2Q_15). rewrite E15 in *.
  destruct (round_Q_within (xorb b1 s15) _ 1001 ltac:(lia) T1 T1')
    as (c1 & i1 & Z1 & Z1lo & Z1hi).
  destruct (round_Q_within (xorb b2 s15) _ 1001 ltac:(lia) T2 T2')
    as (c2 & i2 & Z2 & Z2lo & Z2hi).
  exists (Fin a1 n1), (Fin a2 n2).
  assert (I1 : int_to_float s1 = Ok (Fin a1 n1))
    by (unfold int_to_float; rewrite R1; reflexivity).
  assert (I2 : int_to_float s2 = Ok (Fin a2 n2))
    by (unfold int_to_float; rewrite R2; reflexivity).
  assert (M1 : fmul (Fin a1 n1) (Fin sm mm) = Fin b1 j1) by exact Y1.
  assert (M2 : fmul (Fin a2 n2) (Fin sm mm) = Fin b2 j2) by exact Y2.
  assert (K1 : fmul (Fin b1 j1) (Fin s15 m15) = Fin c1 i1) by exact Z1.
  assert (K2 : fmul (Fin b2 j2) (Fin s15 m15) = Fin c2 i2) by exact Z2.
  rewrite M1, M2, K1, K2.
  destruct (Z.ltb_spec 50 s1) as [G1|G1];
    destruct (Z.ltb_spec 50 s2) as [G2|G2].
  - exists c1, c2, i1, i2. repeat split; auto.
    apply (round_Q_le _ _ _ _ _ _ Z1 Z2); auto.
    apply Qmult_le_compat_r; auto. rewrite Q15. lra.
  - lia.
  - exists b1, c2, j1, i2.
    split; [exact I1|]. split; [exact I2|]. split; [reflexivity|].
    split; [reflexivity|]. split; [lra|]. split; [|exact Z2hi].
    + apply Qle_trans with (F2Q (Fin b2 j2)); [exact Hy|].
      assert (V2 : valid (Fin b2 j2) = true)
        by (rewrite <- Y2; apply round_Q_valid).
      assert (Hx2 : (0 <= F2Q (Fin a2 n2))%Q).
      { assert (Hq : (0 <= inject_Z s2)%Q)
          by (change 0%Q with (inject_Z 0); rewrite <- Zle_Qle; lia).
        rewrite (round_Q_sign_nonneg _ _ _ Hq R2).
        apply F2Q_nonneg_of_sign. }
      assert (Hy2 : (0 <= F2Q (Fin b2 j2))%Q).
      { destruct zero_valid as [_ Ez]. rewrite <- Ez.
        apply (round_Q_le false (xorb a2 sm) 0 _ _ _ round_Q_zero Y2); auto.
        apply Qmult_le_0_compat; auto. }
      apply F2Q_le_ext; auto. rewrite <- Z2.
      apply round_Q_lower; auto. rewrite Q15. lra.
  - exists b1, b2, j1, j2. repeat split; auto; lra.
Qed.

Lemma reward_of_float_score (w : World) (score : Z) (game_type : string)
    (x : float64) :
  int_to_float score = Ok x ->
  calculate_minigame_reward score game_type w =
  (r <- float_round2
          (if 50 <? score
           then fmul (fmul x (Spec.per_point game_type)) (literal 15 1)
           else fmul x (Spec.per_point game_type)) ;;
   Ok (PyFloat r)).
Proof.
  intros I. destruct (Z.ltb_spec 50 score) as [H|H].
  - rewrite (reward_above_50 w score game_type H).
    rewrite num_mul_int_float, I. reflexivity.
  - rewrite (reward_up_to_50 w score game_type H).
    rewrite num_mul_int_float, I. reflexivity.
Qed.

Lemma reward_in_range (w : World) (game_type : string) (s1 s2 : Z) :
  - 2 ^ 1000 <= s1 -> s1 <= s2 -> s2 <= 2 ^ 1000 ->
  exists r1 r2 : float64,
    calculate_minigame_reward s1 game_type w = Ok (PyFloat r1) /\
    calculate_minigame_reward s2 game_type w = Ok (PyFloat r2) /\
    is_finite r1 = true /\ is_finite r2 = true /\
    (F2Q r1 <= F2Q r2)%Q.
Proof.
  intros Hlo Hle Hhi.
  destruct (reward_before_round game_type s1 s2 Hlo Hle Hhi)
    as (x1 & x2 & t1 & t2 & k1 & k2 & I1 & I2 & E1 & E2 & L & M & U).
  destruct (float_round2_mono t1 t2 k1 k2 L M U)
    as (r1 & r2 & R1 & R2 & F1 & F2 & Hr).
  exists r1, r2.
  split; [|split; [|split; [exact F1|split; [exact F2|exact Hr]]]].
  - rewrite (reward_of_float_score w s1 game_type x1 I1), E1, R1.
    reflexivity.
  - rewrite (reward_of_float_score w s2 game_type x2 I2), E2, R2.
    reflexivity.
Qed.

Lemma reward_of_zero (w : World) (game_type : string) :
  exists r : float64,
    calculate_minigame_reward 0 game_type w = Ok (PyFloat r) /\
    (F2Q r == 0)%Q.
Proof.
  rewrite (reward_up_to_50 w 0 game_type ltac:(lia)).
  unfold Spec.per_point.
  destruct (String.eqb game_type "burger_flip");
    [eexists; split; vm_compute; reflexivity|].
  destruct (String.eqb game_type "speed_tap");
    [eexists; split; vm_compute; reflexivity|].
  destruct (String.eqb game_type "memory");
    eexists; split; vm_compute; reflexivity.
Qed.

(** X5: for scores of magnitude at most 2^1000 the reward is returned, is a
    finite float, and never decreases when the score grows; a score of at
    least 0 is never paid a negative reward and a score of at most 0 never
    a positive one. *)
Theorem reward_monotone_in_score (w : World) (game_type : string)
    (s1 s2 : Z) :
  - 2 ^ 1000 <= s1 -> s1 <= s2 -> s2 <= 2 ^ 1000 ->
  exists r1 r2 : float64,
    calculate_minigame_reward s1 game_type w = Ok (PyFloat r1) /\
    calculate_minigame_reward s2 game_type w = Ok (PyFloat r2) /\
    is_finite r1 = true /\ is_finite r2 = true /\
    (F2Q r1 <= F2Q r2)%Q /\
    (0 <= s1 -> (0 <= F2Q r1)%Q) /\
    (s2 <= 0 -> (F2Q r2 <= 0)%Q).
Proof.
  intros Hlo Hle Hhi.
  assert (P : 0 < 2 ^ 1000) by (apply Z.pow_pos_nonneg; lia).
  destruct (reward_in_range w game_type s1 s2 Hlo Hle Hhi)
    as (r1 & r2 & E1 & E2 & F1 & F2 & Hr).
  exists r1, r2.
  split; [exact E1|]. split; [exact E2|]. split; [exact F1|].
  split; [exact F2|]. split; [exact Hr|]. split.
  - intros H0.
    destruct (reward_in_range w game_type 0 s1 ltac:(lia) H0 ltac:(lia))
      as (z & r1' & Ez & E1' & _ & _ & Hz).
    destruct (reward_of_zero w game_type) as (z' & Ez' & Q0).
    rewrite Ez in Ez'. rewrite E1 in E1'.
    assert (z = z') by congruence. assert (r1 = r1') by congruence.
    subst z' r1'. rewrite <- Q0. exact Hz.
  - intros H0.
    destruct (reward_in_range w game_type s2 0 ltac:(lia) H0 ltac:(lia))
      as (r2' & z & E2' & Ez & _ & _ & Hz).
    destruct (reward_of_zero w game_type) as (z' & Ez' & Q0).
    rewrite Ez in Ez'. rewrite E2 in E2'.
    assert (z = z') by congruence. assert (r2 = r2') by congruence.
    subst z' r2'. rewrite <- Q0. exact Hz.
Qed.

Lemma reward_monotone_in_score_witness :
  exists r1 r2 : float64,
    calculate_minigame_reward 50 "memory" (Build_World 0 default_settings)
      = Ok (PyFloat r1) /\
    calculate_minigame_reward 51 "memory" (Build_World 0 default_settings)
      = Ok (PyFloat r2) /\
    (F2Q r1 <= F2Q r2)%Q.
Proof.
  assert (H1 : - 2 ^ 1000 <= 50) by (vm_compute; discriminate).
  assert (H2 : 50 <= 51) by lia.
  assert (H3 : 51 <= 2 ^ 1000) by (vm_compute; discriminate).
  destruct (reward_monotone_in_score (Build_World 0 default_settings)
              "memory" 50 51 H1 H2 H3)
    as (r1 & r2 & E1 & E2 & _ & _ & Hr & _).
  exists r1, r2. split; [exact E1|]. split; [exact E2|exact Hr].
Defined.

(** ** Overflow *)

(** An exact result of magnitude [2^1024] or more rounds to an infinity. *)
Lemma round_Q_overflow (z : bool) (q : Q) :
  (inject_Z (2 ^ 1024) <= Qabs q)%Q -> round_Q z q = Inf (Qneg q z).
Proof.
  intros H. unfold round_Q.
  assert (K : round_mag (inject_Z (2 ^ 52 * 2 ^ 2046)) = 2 ^ 52 * 2 ^ 2046).
  { apply round_mag_exact; [lia | split; [|] | intros _; lia].
    - vm_compute. discriminate.
    - vm_compute. discriminate. }
  assert (T : overflow_threshold = 2 ^ 52 * 2 ^ 2046)
    by (vm_compute; reflexivity).
  assert (L : (inject_Z (2 ^ 52 * 2 ^ 2046) <=
               Qabs q * inject_Z (Zpos scale))%Q).
  { assert (E : (inject_Z (2 ^ 52 * 2 ^ 2046) ==
                 inject_Z (2 ^ 1024) * inject_Z (Zpos scale))%Q).
    { rewrite <- inject_Z_mult. vm_compute. reflexivity. }
    rewrite E. apply Qmult_le_compat_r; [exact H|].
    unfold Qle; cbn [Qnum Qden inject_Z]. lia. }
  pose proof (round_mag_mono _ _ L) as M. rewrite K in M.
  destruct (Z.leb_spec overflow_threshold
              (round_mag (Qabs q * inject_Z (Zpos scale)))) as [G|G];
    [reflexivity | lia].
Qed.

Lemma int_to_float_overflow (n : Z) :
  2 ^ 1024 <= Z.abs n -> int_to_float n = Raise OverflowError.
Proof.
  intros H. unfold int_to_float. rewrite round_Q_overflow; [reflexivity|].
  assert (E : (Qabs (inject_Z n) == inject_Z (Z.abs n))%Q)
    by (unfold Qabs, inject_Z; reflexivity).
  rewrite E, <- Zle_Qle. exact H.
Qed.

Lemma reward_overflow_helper (w : World) (score : Z) (game_type : string) :
  2 ^ 1024 <= Z.abs score ->
  calculate_minigame_reward score game_type w = Raise OverflowError.
Proof.
  intros H. unfold calculate_minigame_reward, lift.
  rewrite num_mul_int_float, (int_to_float_overflow score H). reflexivity.
Qed.

(** X6: a score of magnitude [2^1024] or more cannot be converted to a
    float for the multiplication, and the reward computation raises
    OverflowError instead of returning. *)
Theorem reward_overflows_on_huge_score (w : World) (score : Z)
    (game_type : string) :
  2 ^ 1024 <= Z.abs score ->
  calculate_minigame_reward score game_type w = Raise OverflowError.
Proof.
  exact (reward_overflow_helper w score game_type).
Qed.

Lemma reward_overflows_on_huge_score_witness :
  calculate_minigame_reward (2 ^ 1024) "memory"
    {| clock := 0; settings := default_settings |} = Raise OverflowError.
Proof.
  apply reward_overflows_on_huge_score. vm_compute. discriminate.
Defined.

(** X7: with a library accurate to one unit in the last place, the cost
    computation raises OverflowError, whatever the base cost is, when the
    exact power [multiplier ** level] lessened by the tolerance still
    reaches [2^1024]. *)
Theorem upgrade_cost_overflows {L : Libm} (w : World) (base_cost : pynum)
    (m : float64) (n : Z) :
  pow_accurate L ->
  valid m = true -> is_finite m = true -> (1 < F2Q m)%Q ->
  0 <= n <= 2 ^ 53 ->
  (inject_Z (2 ^ 1024) <= Qpower (F2Q m) n * (1 - pow_tolerance))%Q ->
  calculate_upgrade_cost base_cost n (PyFloat m) w = Raise OverflowError.
Proof.
  intros A Vm Fm Hm Hn Hp.
  assert (Hn1 : 1 <= n).
  { destruct (Z.eq_dec n 0) as [->|N0]; [|lia]. exfalso.
    change (Qpower (F2Q m) 0) with 1%Q in Hp. revert Hp.
    vm_compute. intros Hp. apply Hp. reflexivity. }
  unfold calculate_upgrade_cost, lift, py_pow.
  rewrite (float_pow_int_gt1 m n A Vm Fm Hm Hn1).
  destruct (int_to_float_exact n Hn) as (k & Ei & Ek & _).
  pose proof (pow_accurate_at m _ n A Vm Fm Hm Hn1 Ei) as HA.
  cbv zeta in HA. rewrite (exact_power_of_level m n k Ek) in HA.
  destruct HA as (Vr & Nr & [Lo _] & _).
  rewrite Ei. cbn [bind]. cbv zeta.
  unfold pow_low in Lo. rewrite round_Q_overflow in Lo.
  2:{ rewrite Qabs_pos; [exact Hp|].
      apply Qle_trans with (inject_Z (2 ^ 1024)); [|exact Hp].
      vm_compute. discriminate. }
  destruct (fst (libm_pow m (Fin false k))) as [s j|s|];
    [exfalso | reflexivity | reflexivity].
  pose proof (bounded_ext s j (valid_bounded _ Vr)) as B.
  unfold Qneg in Lo.
  destruct (Qcompare_spec (Qpower (F2Q m) n * (1 - pow_tolerance)) 0)
    as [E|Lt0|G].
  - rewrite E in Hp. revert Hp. vm_compute. intros Hp. apply Hp. reflexivity.
  - assert (P : (0 < inject_Z (2 ^ 1024))%Q) by reflexivity. lra.
  - change (ext (Inf false)) with overflow_threshold in Lo. lia.
Qed.

Lemma upgrade_cost_overflows_witness :
  calculate_upgrade_cost (L := correctly_rounded) (PyInt 50) 1025
    (PyFloat (literal 2 0))
    {| clock := 0; settings := default_settings |} = Raise OverflowError.
Proof.
  apply upgrade_cost_overflows.
  - exact correctly_rounded_accurate.
  - vm_compute. reflexivity.
  - vm_compute. reflexivity.
  - vm_compute. reflexivity.
  - split; [lia | vm_compute; discriminate].
  - vm_compute. discriminate.
Defined.

(** ** Cost over several levels *)

Lemma upgrade_cost_down {L : Libm} (w : World) (b m : float64) (k : nat) :
  pow_accurate L ->
  is_finite b = true -> (0 < F2Q b)%Q ->
  valid m = true -> is_finite m = true ->
  (1 + 3 * pow_tolerance <= F2Q m)%Q ->
  forall (i c' : Z), 0 <= i ->
    calculate_upgrade_cost (PyFloat b) (i + Z.of_nat k) (PyFloat m) w = Ok c' ->
    exists c, calculate_upgrade_cost (PyFloat b) i (PyFloat m) w = Ok c /\
              c <= c'.
Proof.
  intros A Fb Hb Vm Fm Hm. induction k as [|k IH]; intros i c' Hi Hc'.
  - replace (i + Z.of_nat 0) with i in Hc' by lia.
    exists c'. split; [exact Hc' | lia].
  - replace (i + Z.of_nat (S k)) with (i + Z.of_nat k + 1) in Hc' by lia.
    destruct (upgrade_cost_step w b m (i + Z.of_nat k) c' A Fb Hb Vm Fm Hm
                ltac:(lia) Hc') as (c'' & Hc'' & Hle).
    destruct (IH i c'' Hi Hc'') as (c & Hc & Hle').
    exists c. split; [exact Hc | lia].
Qed.

(** X8: with a library accurate to one unit in the last place, a base cost
    above 0 and a multiplier of at least [1 + 3 * 2^-52], whenever the cost
    at a level is returned the cost at every lower level is returned too
    and is no larger; and no cost is below 1. *)
Theorem upgrade_cost_monotone_in_level {L : Libm} (w : World)
    (b m : float64) (i j c' : Z) :
  pow_accurate L ->
  valid b = true -> is_finite b = true -> (0 < F2Q b)%Q ->
  valid m = true -> is_finite m = true ->
  (1 + 3 * pow_tolerance <= F2Q m)%Q -> 0 <= i <= j ->
  calculate_upgrade_cost (PyFloat b) j (PyFloat m) w = Ok c' ->
  exists c, calculate_upgrade_cost (PyFloat b) i (PyFloat m) w = Ok c /\
            1 <= c /\ c <= c'.
Proof.
  intros A Vb Fb Hb Vm Fm Hm Hij Hc'.
  replace j with (i + Z.of_nat (Z.to_nat (j - i))) in Hc' by lia.
  destruct (upgrade_cost_down w b m _ A Fb Hb Vm Fm Hm i c' (proj1 Hij) Hc')
    as (c & Hc & Hle).
  exists c. split; [exact Hc|]. split; [|exact Hle].
  assert (Hc0 := Hc).
  replace i with (0 + Z.of_nat (Z.to_nat i)) in Hc0 by lia.
  destruct (upgrade_cost_down w b m _ A Fb Hb Vm Fm Hm 0 c ltac:(lia) Hc0)
    as (c0 & E0 & Hle0).
  rewrite (upgrade_cost_level_0_float b (PyFloat m) w Vb Fb) in E0.
  apply Ok_inj in E0. subst c0.
  assert (0 < Qceiling (F2Q b)); [|lia].
  rewrite Zlt_Qlt. apply Qlt_le_trans with (F2Q b); [exact Hb|].
  apply Qle_ceiling.
Qed.

Lemma upgrade_cost_monotone_in_level_witness :
  exists c,
    calculate_upgrade_cost (L := correctly_rounded) (PyFloat (literal 50 0)) 1
      default_multiplier {| clock := 0; settings := default_settings |} =
      Ok c /\
    1 <= c /\ c <= 101.
Proof.
  apply (upgrade_cost_monotone_in_level (L := correctly_rounded)
           {| clock := 0; settings := default_settings |}
           (literal 50 0) (literal 115 2) 1 5 101).
  - exact correctly_rounded_accurate.
  - vm_compute. reflexivity.
  - vm_compute. reflexivity.
  - vm_compute. reflexivity.
  - vm_compute. reflexivity.
  - vm_compute. reflexivity.
  - vm_compute. discriminate.
  - lia.
  - vm_compute. reflexivity.
Defined.

(** ** The cap on offline income *)

(** X9: with a finite rate [r >= 0], whatever the order of the clock and
    the last collection, the call returns, the hours it reports are at most
    [max_hours], and the income is at most [r * max_hours]. *)
Theorem offline_income_never_exceeds_cap
    (r : float64) (last_collected now : datetime) (max_hours : Z)
    (st : Settings) :
  is_finite r = true -> (0 <= F2Q r)%Q ->
  valid_datetime last_collected = true -> valid_datetime now = true ->
  - 2 ^ 1023 <= max_hours <= 2 ^ 1023 ->
  exists (income cap : float64) (hours : pynum),
    calculate_offline_income (PyFloat r) last_collected (Some max_hours)
      {| clock := now; settings := st |} = Ok (PyFloat income, hours) /\
    (num_Q hours <= inject_Z max_hours)%Q /\
    int_to_float max_hours = Ok cap /\
    fle income (fmul r cap) = true.
Proof.
  intros Fr Hr V0 V1 [Hlo Hhi].
  destruct (elapsed_hours_eq last_collected now V0 V1)
    as (_ & _ & e & _ & _ & E & Fe & Ve).
  destruct e as [s m| |]; [|discriminate Fe|discriminate Fe].
  pose proof (elapsed_below_2_1023 _ _ _ V0 V1 E) as Hb.
  destruct (offline_income_float r last_collected max_hours
              {| clock := now; settings := st |} s m Hlo E Hb)
    as (c & Fc & Hca & Hcb & _ & C).
  destruct (int_to_float_finite max_hours (conj Hlo Hhi))
    as (t & n & Ei & Er).
  exists (fmul r c), (Fin t n), (py_min (PyFloat (Fin s m)) (PyInt max_hours)).
  split; [exact C|]. split.
  { rewrite py_min_value. apply Q.le_min_r. }
  split; [exact Ei|].
  destruct c as [sc mc| |]; [|discriminate Fc|discriminate Fc].
  apply fmul_mono; [exact Fr | exact Hr |].
  destruct (Qlt_le_dec (inject_Z max_hours) (F2Q (Fin s m))) as [A|A].
  - rewrite <- (Hcb A), Er. apply Qle_refl.
  - rewrite (Hca A). apply F2Q_le_ext; [reflexivity | reflexivity |].
    rewrite <- Er. apply round_Q_lower; [exact Ve | reflexivity | exact A].
Qed.

Lemma offline_income_never_exceeds_cap_witness :
  exists (income cap : float64) (hours : pynum),
    calculate_offline_income (PyFloat (literal 10 0)) 0 (Some 24)
      {| clock := 360000000000; settings := default_settings |} =
      Ok (PyFloat income, hours) /\
    (num_Q hours <= inject_Z 24)%Q /\
    int_to_float 24 = Ok cap /\
    fle income (fmul (literal 10 0) cap) = true.
Proof.
  apply (offline_income_never_exceeds_cap (literal 10 0) 0 360000000000 24
           default_settings).
  - vm_compute. reflexivity.
  - vm_compute. discriminate.
  - vm_compute. reflexivity.
  - vm_compute. reflexivity.
  - split; vm_compute; discriminate.
Defined.

(** ** Order of Python numbers and achievements *)

Lemma num_le_Q (a b : pynum) :
  has_value a = true -> has_value b = true ->
  (num_le a b = true <-> (num_Q a <= num_Q b)%Q).
Proof.
  destruct a as [m|[s j| |]], b as [n|[t k| |]]; intros Ha Hb;
    try discriminate Ha; try discriminate Hb;
    unfold num_le, num_compare, int_float_compare, fcompare, num_Q.
  - rewrite <- Zle_Qle.
    destruct (Z.compare_spec m n) as [E|L|G]; split; intros H;
      try reflexivity; try discriminate H; lia.
  - destruct (Qcompare_spec (inject_Z m) (F2Q (Fin t k))) as [E|L|G];
      split; intros H; try reflexivity; try discriminate H; lra.
  - cbn [fmap option_fmap option_map].
    destruct (Qcompare_spec (inject_Z n) (F2Q (Fin s j))) as [E|L|G];
      cbn [CompOpp]; split; intros H;
      try reflexivity; try discriminate H; lra.
  - destruct (Qcompare_spec (F2Q (Fin s j)) (F2Q (Fin t k))) as [E|L|G];
      split; intros H; try reflexivity; try discriminate H; lra.
Qed.

Lemma num_le_inf_r (a : pynum) (s : bool) :
  num_le a (PyFloat (Inf s)) = true ->
  s = false \/ a = PyFloat (Inf true).
Proof.
  destruct s; [|left; reflexivity]. intros H. right.
  destruct a as [m|[t k|[|]|]]; try discriminate H. reflexivity.
Qed.

Lemma num_le_inf_l (b : pynum) (s : bool) :
  num_le (PyFloat (Inf s)) b = true ->
  s = true \/ b = PyFloat (Inf false).
Proof.
  destruct s; [left; reflexivity|]. intros H. right.
  destruct b as [m|[t k|[|]|]]; try discriminate H. reflexivity.
Qed.

Lemma num_le_not_nan (a b : pynum) :
  num_le a b = true -> a <> PyFloat NaN /\ b <> PyFloat NaN.
Proof.
  intros H. split; intros ->.
  - destruct b as [n|[t k|t|]]; discriminate H.
  - destruct a as [n|[t k|t|]]; discriminate H.
Qed.

Lemma num_le_top (a : pynum) :
  a <> PyFloat NaN -> num_le a (PyFloat (Inf false)) = true.
Proof. destruct a as [n|[t k|[|]|]]; intros N; try reflexivity; congruence. Qed.

Lemma num_le_bottom (b : pynum) :
  b <> PyFloat NaN -> num_le (PyFloat (Inf true)) b = true.
Proof. destruct b as [n|[t k|[|]|]]; intros N; try reflexivity; congruence. Qed.

Lemma has_value_cases (a : pynum) :
  has_value a = true \/ (exists s, a = PyFloat (Inf s)) \/ a = PyFloat NaN.
Proof.
  destruct a as [n|[t k|t|]]; [left; reflexivity | left; reflexivity | |].
  - right. left. exists t. reflexivity.
  - right. right. reflexivity.
Qed.

(** [<=] on Python numbers is transitive, ints and floats mixed. *)
Lemma num_le_trans (a b c : pynum) :
  num_le a b = true -> num_le b c = true -> num_le a c = true.
Proof.
  intros Hab Hbc.
  destruct (num_le_not_nan _ _ Hab) as [Na Nb].
  destruct (num_le_not_nan _ _ Hbc) as [_ Nc].
  destruct (has_value_cases c) as [Vc|[[s ->]| ->]]; [| |congruence].
  2:{ destruct (num_le_inf_r _ _ Hbc) as [->| ->].
      - apply num_le_top. exact Na.
      - destruct (num_le_inf_r _ _ Hab) as [E| ->]; [discriminate E|].
        exact Hbc. }
  destruct (has_value_cases a) as [Va|[[s ->]| ->]]; [| |congruence].
  2:{ destruct (num_le_inf_l _ _ Hab) as [->| ->].
      - apply num_le_bottom. exact Nc.
      - destruct (num_le_inf_l _ _ Hbc) as [E| ->]; [discriminate E|].
        exact Hab. }
  destruct (has_value_cases b) as [Vb|[[s ->]| ->]]; [| |congruence].
  - apply (num_le_Q a c Va Vc).
    apply Qle_trans with (num_Q b);
      [apply (num_le_Q a b Va Vb) | apply (num_le_Q b c Vb Vc)]; assumption.
  - destruct (num_le_inf_r _ _ Hab) as [->| ->]; [|discriminate Va].
    destruct (num_le_inf_l _ _ Hbc) as [E| ->];
      [discriminate E | discriminate Vc].
Qed.

(** X10: an achievement that is reached stays reached when the progress
    value it looks at grows: if the check answers [True] on one progress
    record, it answers [True] on every record whose value under the
    achievement's condition type is at least as large. *)
Theorem achievement_stays_reached (progress progress' : gmap string pynum)
    (a : Achievement) (w : World) :
  check_achievement_progress progress a w = Ok true ->
  num_le (dict_get progress (condition_type a) (PyInt 0))
         (dict_get progress' (condition_type a) (PyInt 0)) = true ->
  check_achievement_progress progress' a w = Ok true.
Proof.
  unfold check_achievement_progress, eret, num_ge.
  destruct (String.eqb_spec (condition_type a) "total_earned") as [E|N1].
  { rewrite E. intros H Hle. apply Ok_inj in H.
    rewrite (num_le_trans _ _ _ H Hle). reflexivity. }
  destruct (String.eqb_spec (condition_type a) "upgrades_count") as [E|N2].
  { rewrite E. intros H Hle. apply Ok_inj in H.
    rewrite (num_le_trans _ _ _ H Hle). reflexivity. }
  destruct (String.eqb (condition_type a) "guests_served");
    intros H; apply Ok_inj in H; discriminate H.
Qed.

Lemma achievement_stays_reached_witness :
  check_achievement_progress
    (<["total_earned" := PyFloat (literal 15005 1)]> ∅)
    {| condition_type := "total_earned"; condition_value := PyInt 1000 |}
    {| clock := 0; settings := default_settings |} = Ok true.
Proof.
  apply (achievement_stays_reached
           (<["total_earned" := PyInt 1000]> ∅)
           (<["total_earned" := PyFloat (literal 15005 1)]> ∅)).
  - vm_compute. reflexivity.
  - vm_compute. reflexivity.
Defined.

(** ** Order of the upgrades *)

Lemma int_weighted_sum_perm (bonus : string)
    (u1 u2 : list (gmap string pynum)) :
  Permutation u1 u2 ->
  Spec.int_weighted_sum bonus u1 = Spec.int_weighted_sum bonus u2.
Proof.
  intros P. induction P as [|x l l' _ IH|x y l|l l' l'' _ IH1 _ IH2];
    cbn [Spec.int_weighted_sum]; lia.
Qed.

Lemma guests_total_int (w : World) (base_income : pynum)
    (upgrades : list (gmap string pynum)) (income guests : pynum) :
  Forall (fun u =>
            Spec.is_int (dict_get u "level" (PyInt 0)) = true /\
            Spec.is_int (dict_get u "guests_bonus" (PyInt 0)) = true)
         upgrades ->
  calculate_total_income base_income upgrades w = Ok (income, guests) ->
  guests = PyInt (INITIAL_GUESTS_PER_HOUR (settings w) +
                  Spec.int_weighted_sum "guests_bonus" upgrades).
Proof.
  intros Hint Hok.
  unfold calculate_total_income, ebind, lift, eret, setting in Hok.
  rewrite total_income_loop_sums in Hok.
  rewrite (weighted_sum_from_int "guests_bonus" upgrades 0 Hint) in Hok.
  destruct (Spec.weighted_sum_from (PyInt 0) "income_bonus" upgrades)
    as [si|e]; [|discriminate Hok].
  cbn [bind fst snd] in Hok.
  destruct (num_add base_income si) as [t|e]; [|discriminate Hok].
  cbn [bind num_add] in Hok. apply Ok_inj in Hok.
  injection Hok as _ <-. rewrite Z.add_0_l. reflexivity.
Qed.

(** X11: with int levels and int guest bonuses the guests total does not
    depend on the order in which the upgrades are listed; the income total
    of float bonuses does: 0.1, 0.2, 0.3 at level 1 add up to more than
    the same three taken in the reverse order. *)
Theorem guests_total_ignores_order (w : World) (base_income : pynum)
    (u1 u2 : list (gmap string pynum)) (i1 g1 i2 g2 : pynum) :
  Permutation u1 u2 ->
  Forall (fun u =>
            Spec.is_int (dict_get u "level" (PyInt 0)) = true /\
            Spec.is_int (dict_get u "guests_bonus" (PyInt 0)) = true) u1 ->
  calculate_total_income base_income u1 w = Ok (i1, g1) ->
  calculate_total_income base_income u2 w = Ok (i2, g2) ->
  g1 = g2 /\
  (let owned (tenths : Z) : gmap string pynum :=
     <["level" := PyInt 1]>
       (<["income_bonus" := PyFloat (literal tenths 1)]> ∅) in
   let x := fadd (fadd (literal 1 1) (literal 2 1)) (literal 3 1) in
   let y := fadd (fadd (literal 3 1) (literal 2 1)) (literal 1 1) in
   let g := PyInt (INITIAL_GUESTS_PER_HOUR (settings w) + 0) in
   calculate_total_income (PyInt 0) [owned 1; owned 2; owned 3] w
     = Ok (PyFloat x, g) /\
   calculate_total_income (PyInt 0) [owned 3; owned 2; owned 1] w
     = Ok (PyFloat y, g) /\
   flt y x = true).
Proof.
  intros P Hint H1 H2. split.
  - assert (Hint' : Forall (fun u =>
              Spec.is_int (dict_get u "level" (PyInt 0)) = true /\
              Spec.is_int (dict_get u "guests_bonus" (PyInt 0)) = true) u2).
    { exact (Permutation_Forall P Hint). }
    rewrite (guests_total_int w base_income u1 i1 g1 Hint H1).
    rewrite (guests_total_int w base_income u2 i2 g2 Hint' H2).
    rewrite (int_weighted_sum_perm "guests_bonus" u1 u2 P). reflexivity.
  - split; [vm_compute; reflexivity|].
    split; vm_compute; reflexivity.
Qed.

Lemma guests_total_ignores_order_witness :
  PyInt 5 = PyInt 5.
Proof.
  pose (a := <["level" := PyInt 2]> (<["guests_bonus" := PyInt 1]> ∅)
             : gmap string pynum).
  pose (b := <["level" := PyInt 1]> (<["guests_bonus" := PyInt 1]> ∅)
             : gmap string pynum).
  refine (proj1 (guests_total_ignores_order
                   {| clock := 0; settings := default_settings |} (PyInt 10)
                   [a; b] [b; a] (PyInt 10) (PyInt 5) (PyInt 10) (PyInt 5)
                   _ _ _ _)).
  - apply perm_swap.
  - repeat constructor.
  - vm_compute. reflexivity.
  - vm_compute. reflexivity.
Defined.

(** ** Formatting *)

Lemma num_truediv_float_int (x y : float64) (n : Z) :
  int_to_float n = Ok y -> is_zero y = false ->
  num_truediv (PyFloat x) (PyInt n) = Ok (fdiv x y).
Proof.
  intros E Z0. unfold num_truediv, to_float. rewrite E. cbn [bind].
  rewrite Z0. reflexivity.
Qed.

Lemma divisors_of_format_number :
  int_to_float 1000 = Ok (literal 1000 0) /\
  int_to_float 1000000 = Ok (literal 1000000 0) /\
  int_to_float 1000000000 = Ok (literal 1000000000 0) /\
  is_zero (literal 1000 0) = false /\
  is_zero (literal 1000000 0) = false /\
  is_zero (literal 1000000000 0) = false.
Proof.
  split; [vm_compute; reflexivity|]. split; [vm_compute; reflexivity|].
  split; [vm_compute; reflexivity|]. split; [vm_compute; reflexivity|].
  split; vm_compute; reflexivity.
Qed.

(** X12: on a float [format_number] never raises: it returns a text for
    every double, the one of the last branch for a NaN, which no comparison
    holds for (["nanB"]), ["infB"] for plus infinity and ["-inf"] for minus
    infinity. *)
Theorem format_number_returns_on_floats (w : World) :
  (forall x : float64, exists text, format_number (PyFloat x) w = Ok text) /\
  format_number (PyFloat NaN) w = Ok "nanB" /\
  format_number (PyFloat (Inf false)) w = Ok "infB" /\
  format_number (PyFloat (Inf true)) w = Ok "-inf".
Proof.
  destruct divisors_of_format_number as (E3 & E6 & E9 & Z3 & Z6 & Z9).
  split.
  - intros x. unfold format_number, lift.
    rewrite (num_truediv_float_int x _ _ E3 Z3).
    rewrite (num_truediv_float_int x _ _ E6 Z6).
    rewrite (num_truediv_float_int x _ _ E9 Z9).
    destruct (num_lt (PyFloat x) (PyInt 1000)).
    { eexists. reflexivity. }
    destruct (num_lt (PyFloat x) (PyInt 1000000)).
    { eexists. reflexivity. }
    destruct (num_lt (PyFloat x) (PyInt 1000000000)).
    { eexists. reflexivity. }
    eexists. reflexivity.
  - split; [vm_compute; reflexivity|].
    split; vm_compute; reflexivity.
Qed.

Lemma int_truediv_overflow (m n : Z) :
  0 < n -> 2 ^ 1024 * n <= Z.abs m ->
  int_truediv m n = Raise OverflowError.
Proof.
  intros Hn H. unfold int_truediv.
  destruct (Z.eqb_spec n 0) as [E|_]; [lia|].
  rewrite round_Q_overflow; [reflexivity|].
  assert (Hq : (0 < inject_Z n)%Q)
    by (change 0%Q with (inject_Z 0); rewrite <- Zlt_Qlt; exact Hn).
  assert (E : (Qabs (inject_Z m / inject_Z n) ==
               inject_Z (Z.abs m) / inject_Z n)%Q).
  { unfold Qdiv. rewrite Qabs_Qmult.
    rewrite (Qabs_pos (/ inject_Z n)) by (apply Qlt_le_weak, Qinv_lt_0_compat; exact Hq).
    reflexivity. }
  rewrite E. apply Qle_shift_div_l; [exact Hq|].
  rewrite <- inject_Z_mult, <- Zle_Qle. exact H.
Qed.

(** X13: on an int too large for a float [format_number] raises
    OverflowError: below [-2^1024] in the conversion of the first branch,
    from [10^9 * 2^1024] on in the division of the last one. *)
Theorem format_number_overflows_on_huge_ints (w : World) (n : Z) :
  n <= - 2 ^ 1024 \/ 1000000000 * 2 ^ 1024 <= n ->
  format_number (PyInt n) w = Raise OverflowError.
Proof.
  assert (P : 0 < 2 ^ 1024) by (apply Z.pow_pos_nonneg; lia).
  intros [H|H]; unfold format_number, lift.
  - assert (L : num_lt (PyInt n) (PyInt 1000) = true).
    { unfold num_lt, num_compare.
      destruct (Z.compare_spec n 1000) as [E|L|G]; [lia | reflexivity | lia]. }
    rewrite L. unfold format_fixed, to_float.
    rewrite int_to_float_overflow by lia. reflexivity.
  - assert (L : forall k, k <= 1000000000 -> num_lt (PyInt n) (PyInt k) = false).
    { intros k Hk. unfold num_lt, num_compare.
      destruct (Z.compare_spec n k) as [E|L|G]; [reflexivity | lia | reflexivity]. }
    rewrite !L by lia. unfold num_truediv.
    rewrite int_truediv_overflow by lia. reflexivity.
Qed.

Lemma format_number_overflows_on_huge_ints_witness :
  format_number (PyInt (- 2 ^ 1024))
    {| clock := 0; settings := default_settings |} = Raise OverflowError.
Proof.
  apply format_number_overflows_on_huge_ints. left. apply Z.le_refl.
Defined.

(** ** Hours and minutes *)

Lemma time_constants :
  valid below_one = true /\
  int_to_float 60 = Ok sixty /\
  round_Q false (F2Q below_one * F2Q sixty) = below_sixty /\
  int_to_float 1 = Ok one /\
  fmul zero sixty = zero.
Proof.
  split; [vm_compute; reflexivity|]. split; [vm_compute; reflexivity|].
  split; [vm_compute; reflexivity|]. split; vm_compute; reflexivity.
Qed.

Lemma F2Q_ge_Z (s : bool) (m : N) (n : Z) :
  (inject_Z n <= F2Q (Fin s m))%Q <-> n * 2 ^ 1074 <= signed s (Z.of_N m).
Proof.
  unfold F2Q, Qle, inject_Z. cbn [Qnum Qden].
  change (Zpos scale) with (2 ^ 1074). lia.
Qed.

Lemma F2Q_lt_Z (s : bool) (m : N) (n : Z) :
  (F2Q (Fin s m) < inject_Z n)%Q <-> signed s (Z.of_N m) < n * 2 ^ 1074.
Proof.
  unfold F2Q, Qlt, inject_Z. cbn [Qnum Qden].
  change (Zpos scale) with (2 ^ 1074). lia.
Qed.

(** A double of at least [2^a] units is a multiple of [2^(a-52)] units. *)
Lemma valid_granular (s : bool) (m : N) (a : Z) :
  valid (Fin s m) = true -> 0 <= a -> 2 ^ (52 + a) <= Z.of_N m ->
  exists k, Z.of_N m = k * 2 ^ a.
Proof.
  intros V Ha Hm. cbn [valid] in V. apply andb_prop in V as [_ Hr].
  apply Z.eqb_eq in Hr. unfold round_mag, ulp_exp in Hr.
  rewrite Qfloor_Z in Hr.
  assert (Hp : 0 < 2 ^ (52 + a)) by (apply Z.pow_pos_nonneg; lia).
  assert (Hl : 52 + a <= Z.log2 (Z.of_N m))
    by (apply Z.log2_le_pow2; lia).
  remember (Z.max 0 (Z.log2 (Z.of_N m) - 52)) as e eqn:Ee.
  exists (RNE (inject_Z (Z.of_N m) / inject_Z (2 ^ e)) * 2 ^ (e - a)).
  rewrite <- Z.mul_assoc, <- Z.pow_add_r by lia.
  replace (e - a + a) with e by lia. symmetry. exact Hr.
Qed.

(** A double below 1 is at most [1 - 2^-53]. *)
Lemma at_most_below_one (m : N) :
  valid (Fin false m) = true -> Z.of_N m < 2 ^ 1074 ->
  Z.of_N m <= 2 ^ 1074 - 2 ^ 1021.
Proof.
  intros V H.
  assert (E : 2 ^ 1074 = 2 ^ 53 * 2 ^ 1021) by (vm_compute; reflexivity).
  assert (P : 0 < 2 ^ 1021) by (apply Z.pow_pos_nonneg; lia).
  destruct (Z.lt_ge_cases (Z.of_N m) (2 ^ (52 + 1021))) as [L|G].
  - assert (E' : 2 ^ (52 + 1021) = 2 ^ 52 * 2 ^ 1021)
      by (vm_compute; reflexivity).
    assert (2 ^ 53 = 2 * 2 ^ 52) by (vm_compute; reflexivity).
    assert (0 < 2 ^ 52) by (vm_compute; reflexivity). nia.
  - destruct (valid_granular false m 1021 V ltac:(lia) G) as [k Hk].
    rewrite Hk in *. nia.
Qed.

Lemma py_int_finite (s : bool) (m : N) :
  py_int (PyFloat (Fin s m)) = Ok (signed s (Z.of_N m / 2 ^ 1074)).
Proof. reflexivity. Qed.

(** [int(r * 60)] for a fraction [r] of an hour is a count of minutes
    between 0 and 59. *)
Lemma minutes_of_fraction (sr : bool) (mr : N) :
  (0 <= F2Q (Fin sr mr))%Q -> Z.of_N mr <= 2 ^ 1074 - 2 ^ 1021 ->
  exists minutes,
    (m <- num_mul (PyFloat (Fin sr mr)) (PyInt 60) ;; py_int m) = Ok minutes /\
    0 <= minutes <= 59 /\
    minutes = Qfloor (F2Q (fmul (Fin sr mr) sixty)).
Proof.
  intros H0 Hle.
  destruct time_constants as (Vp & E60 & Ehi & _ & _).
  assert (P : 0 < 2 ^ 1021) by (apply Z.pow_pos_nonneg; lia).
  assert (S0 : (0 <= F2Q sixty)%Q) by apply F2Q_nonneg_of_sign.
  assert (Hq0 : (0 <= F2Q (Fin sr mr) * F2Q sixty)%Q)
    by (apply Qmult_le_0_compat; assumption).
  assert (Hr : (F2Q (Fin sr mr) <= F2Q below_one)%Q).
  { unfold below_one. rewrite !F2Q_ext. apply Qle_same_den.
    cbn [ext]. rewrite Z2N.id by lia.
    destruct sr; unfold signed; lia. }
  assert (Hq : (F2Q (Fin sr mr) * F2Q sixty <= F2Q below_one * F2Q sixty)%Q)
    by (apply Qmult_le_compat_r; assumption).
  destruct (round_Q_finite_below (xorb sr false) false _ _ false
              (Z.to_N (60 * 2 ^ 1074 - 2 ^ 1027)) Hq0 Hq Ehi)
    as (t & k & R & Rlo & Rhi).
  assert (M : fmul (Fin sr mr) sixty = Fin t k) by exact R.
  assert (K : 0 <= signed t (Z.of_N k) < 60 * 2 ^ 1074).
  { split.
    - apply (F2Q_ge_Z t k 0). exact Rlo.
    - rewrite !F2Q_ext in Rhi. apply Qle_same_den in Rhi.
      cbn [ext] in Rhi.
      assert (P' : 0 < 2 ^ 1027) by (apply Z.pow_pos_nonneg; lia).
      assert (P'' : 2 ^ 1027 < 2 ^ 1074) by (apply Z.pow_lt_mono_r; lia).
      rewrite Z2N.id in Rhi by lia. unfold signed at 2 in Rhi. lia. }
  assert (P74 : 0 < 2 ^ 1074) by (apply Z.pow_pos_nonneg; lia).
  exists (signed t (Z.of_N k / 2 ^ 1074)).
  split; [|split].
  - unfold num_mul, to_float. rewrite E60. cbn [bind]. rewrite M.
    apply py_int_finite.
  - destruct t; unfold signed in *.
    + assert (Z.of_N k = 0) by lia. rewrite H. rewrite Z.div_0_l by lia. lia.
    + split; [apply Z.div_pos; lia|].
      assert (Z.of_N k / 2 ^ 1074 < 60); [|lia].
      apply Z.div_lt_upper_bound; lia.
  - rewrite M. unfold F2Q, Qfloor. change (Zpos scale) with (2 ^ 1074).
    destruct t; unfold signed in *; [|reflexivity].
    assert (Z.of_N k = 0) by lia. rewrite H. reflexivity.
Qed.

Lemma F2Q_minus_Z (m : N) (n : Z) :
  (F2Q (Fin false m) + - inject_Z n ==
   Qmake (Z.of_N m - n * 2 ^ 1074) scale)%Q.
Proof.
  unfold F2Q, Qplus, Qopp, inject_Z, Qeq, signed. cbn [Qnum Qden].
  rewrite Pos2Z.inj_mul. change (Zpos scale) with (2 ^ 1074). ring.
Qed.

Lemma F2Q_negated (k : N) : (F2Q (Fin true k) == - F2Q (Fin false k))%Q.
Proof. unfold F2Q, Qopp, Qeq, signed. cbn [Qnum Qden]. reflexivity. Qed.

Lemma not_below_one (m : N) :
  (1 <= F2Q (Fin false m))%Q ->
  num_lt (PyFloat (Fin false m)) (PyInt 1) = false.
Proof.
  intros H. unfold num_lt, num_compare, int_float_compare.
  cbn [fmap option_fmap option_map].
  destruct (Qcompare_spec (inject_Z 1) (F2Q (Fin false m))) as [E|L|G];
    cbn [CompOpp]; try reflexivity.
  exfalso. change (inject_Z 1) with 1%Q in G. lra.
Qed.

(** The fractional part of a double of at least 1, as [hours - int(hours)]
    computes it, is a double from 0 to [1 - 2^-53]. *)
Lemma fraction_of_hours (m : N) :
  valid (Fin false m) = true -> 2 ^ 1074 <= Z.of_N m ->
  exists (sr : bool) (mr : N),
    num_sub (PyFloat (Fin false m)) (PyInt (Z.of_N m / 2 ^ 1074)) =
      Ok (PyFloat (Fin sr mr)) /\
    (0 <= F2Q (Fin sr mr))%Q /\ Z.of_N mr <= 2 ^ 1074 - 2 ^ 1021.
Proof.
  intros V Hm.
  destruct time_constants as (Vp & _ & _ & _ & _).
  destruct zero_valid as (Vz & Ez).
  assert (P74 : 0 < 2 ^ 1074) by (apply Z.pow_pos_nonneg; lia).
  assert (P21 : 0 < 2 ^ 1021) by (apply Z.pow_pos_nonneg; lia).
  assert (P22 : 0 < 2 ^ 1022) by (apply Z.pow_pos_nonneg; lia).
  assert (E74 : 2 ^ 1074 = 2 ^ 52 * 2 ^ 1022) by (vm_compute; reflexivity).
  assert (E22 : 2 ^ 1022 = 2 * 2 ^ 1021) by (vm_compute; reflexivity).
  assert (P52 : 0 < 2 ^ 52) by (vm_compute; reflexivity).
  pose proof (Z.mul_div_le (Z.of_N m) (2 ^ 1074) P74) as Dlo.
  pose proof (Z.mul_succ_div_gt (Z.of_N m) (2 ^ 1074) P74) as Dhi.
  remember (Z.of_N m / 2 ^ 1074) as full eqn:Ef.
  assert (F1 : 1 <= full) by nia.
  destruct (Z.lt_ge_cases (Z.of_N m) (2 ^ (52 + 1074))) as [L|G].
  - assert (E126 : 2 ^ (52 + 1074) = 2 ^ 52 * 2 ^ 1074)
      by (vm_compute; reflexivity).
    assert (E53 : 2 ^ 53 = 2 * 2 ^ 52) by (vm_compute; reflexivity).
    assert (F2 : 0 <= full <= 2 ^ 53) by nia.
    destruct (int_to_float_exact full F2) as (my & Ei & Ey & Vy).
    assert (Q : (F2Q (Fin false m) + F2Q (fneg (Fin false my)) ==
                 Qmake (Z.of_N m - full * 2 ^ 1074) scale)%Q).
    { cbn [fneg negb]. rewrite F2Q_negated, Ey. apply F2Q_minus_Z. }
    destruct (valid_granular false m 1022 V ltac:(lia)
                ltac:(replace (52 + 1022) with 1074 by lia; exact Hm))
      as [k Hk].
    assert (R : 0 <= Z.of_N m - full * 2 ^ 1074 <= 2 ^ 1074 - 2 ^ 1021).
    { split; [lia|]. rewrite Hk in *. nia. }
    destruct (round_Q_between false
                (F2Q (Fin false m) + F2Q (fneg (Fin false my)))
                zero below_one Vz Vp eq_refl eq_refl)
      as (sr & mr & Er & Rlo & Rhi).
    { rewrite Q, Ez. unfold Qle. cbn [Qnum Qden]. lia. }
    { rewrite Q. unfold below_one. rewrite F2Q_ext. apply Qle_same_den.
      cbn [ext signed]. rewrite Z2N.id by lia. lia. }
    exists sr, mr. split; [|split].
    + unfold num_sub, to_float. rewrite Ei. cbn [bind].
      unfold fsub, fadd. cbn [fneg negb andb] in *. rewrite Er. reflexivity.
    + rewrite Ez in Rlo. exact Rlo.
    + unfold below_one in Rhi. rewrite !F2Q_ext in Rhi.
      apply Qle_same_den in Rhi. cbn [ext] in Rhi.
      rewrite Z2N.id in Rhi by lia. unfold signed at 2 in Rhi.
      rewrite Ez in Rlo. apply (F2Q_ge_Z sr mr 0) in Rlo.
      destruct sr; unfold signed in *; lia.
  - destruct (valid_granular false m 1074 V ltac:(lia) G) as [k Hk].
    assert (Fk : full = k).
    { rewrite Ef, Hk. apply Z.div_mul. lia. }
    assert (Ek : (inject_Z full == F2Q (Fin false m))%Q).
    { unfold F2Q, inject_Z, Qeq, signed. cbn [Qnum Qden].
      change (Zpos scale) with (2 ^ 1074). lia. }
    assert (Ei : int_to_float full = Ok (Fin false m)).
    { unfold int_to_float.
      rewrite (round_Q_comp _ _ _ Ek), (round_Q_exact false m V).
      reflexivity. }
    exists false, 0%N. split; [|split].
    + unfold num_sub, to_float. rewrite Ei. cbn [bind].
      unfold fsub, fadd. cbn [fneg negb andb].
      assert (Q0 : (F2Q (Fin false m) + F2Q (Fin true m) == 0)%Q)
        by (rewrite F2Q_negated; ring).
      rewrite (round_Q_comp _ _ _ Q0), round_Q_zero. reflexivity.
    + apply F2Q_nonneg_of_sign.
    + change (Z.of_N 0) with 0. lia.
Qed.

(** X14: for a double of at least one hour [format_time] returns, the
    hours shown being the whole part of the argument and the minutes, shown
    unless they are 0, being between 1 and 59: never 60. *)
Theorem format_time_hours_and_minutes (w : World) (s : bool) (m : N) :
  valid (Fin s m) = true -> (1 <= F2Q (Fin s m))%Q ->
  exists minutes,
    0 <= minutes <= 59 /\
    1 <= Qfloor (F2Q (Fin s m)) /\
    format_time (PyFloat (Fin s m)) w =
    Ok (let full_hours := Qfloor (F2Q (Fin s m)) in
        if minutes =? 0 then str_int full_hours +:+ "ч"
        else str_int full_hours +:+ "ч " +:+ str_int minutes +:+ "м").
Proof.
  intros V H1.
  assert (Hs : s = false).
  { destruct s; [|reflexivity]. pose proof (F2Q_sign_neg m). exfalso. lra. }
  subst s.
  assert (Hm : 2 ^ 1074 <= Z.of_N m).
  { change 1%Q with (inject_Z 1) in H1. apply F2Q_ge_Z in H1.
    unfold signed in H1. lia. }
  assert (P74 : 0 < 2 ^ 1074) by (apply Z.pow_pos_nonneg; lia).
  destruct (fraction_of_hours m V Hm) as (sr & mr & Es & R0 & Rle).
  destruct (minutes_of_fraction sr mr R0 Rle) as (minutes & Em & Hmin & _).
  exists minutes. split; [exact Hmin|].
  assert (Ef : Qfloor (F2Q (Fin false m)) = Z.of_N m / 2 ^ 1074)
    by reflexivity.
  rewrite Ef. split.
  { pose proof (Z.mul_succ_div_gt (Z.of_N m) (2 ^ 1074) P74). nia. }
  unfold format_time, lift. rewrite (not_below_one m H1).
  rewrite py_int_finite. cbn [bind signed]. rewrite Es. cbn [bind].
  destruct (num_mul (PyFloat (Fin sr mr)) (PyInt 60)) as [mm|e];
    [|discriminate Em].
  cbn [bind] in *. rewrite Em. cbn [bind].
  destruct (minutes =? 0); reflexivity.
Qed.

Lemma format_time_hours_and_minutes_witness :
  exists minutes,
    0 <= minutes <= 59 /\
    1 <= Qfloor (F2Q (literal 25 1)) /\
    format_time (PyFloat (literal 25 1))
      {| clock := 0; settings := default_settings |} =
    Ok (let full_hours := Qfloor (F2Q (literal 25 1)) in
        if minutes =? 0 then str_int full_hours +:+ "ч"
        else str_int full_hours +:+ "ч " +:+ str_int minutes +:+ "м").
Proof.
  assert (E : literal 25 1 = Fin false (Z.to_N (5 * 2 ^ 1073)))
    by (vm_compute; reflexivity).
  rewrite E.
  apply (format_time_hours_and_minutes
           {| clock := 0; settings := default_settings |} false
           (Z.to_N (5 * 2 ^ 1073))).
  - vm_compute. reflexivity.
  - vm_compute. discriminate.
Defined.

Lemma is_below_one (s : bool) (m : N) :
  (F2Q (Fin s m) < 1)%Q ->
  num_lt (PyFloat (Fin s m)) (PyInt 1) = true.
Proof.
  intros H. unfold num_lt, num_compare, int_float_compare.
  cbn [fmap option_fmap option_map].
  destruct (Qcompare_spec (inject_Z 1) (F2Q (Fin s m))) as [E|L|G];
    cbn [CompOpp]; try reflexivity; exfalso;
    change (inject_Z 1) with 1%Q in *; lra.
Qed.

(** [int(x * 60)] for a negative [x] is not positive. *)
Lemma minutes_of_negative (s : bool) (m : N) :
  (- inject_Z (2 ^ 1000) <= F2Q (Fin s m))%Q -> (F2Q (Fin s m) <= 0)%Q ->
  exists minutes,
    (p <- num_mul (PyFloat (Fin s m)) (PyInt 60) ;; py_int p) = Ok minutes /\
    minutes <= 0.
Proof.
  intros Hlo Hhi.
  destruct time_constants as (_ & E60 & _ & _ & _).
  destruct zero_valid as (_ & Ez).
  assert (S60 : (F2Q sixty == 60)%Q) by (vm_compute; reflexivity).
  assert (P : (0 < inject_Z (2 ^ 1000))%Q) by (apply pow2_pos_Q; lia).
  assert (D : (inject_Z (2 ^ 1006) == 64 * inject_Z (2 ^ 1000))%Q).
  { rewrite <- (inject_Z_mult 64). apply inject_Z_injective.
    vm_compute. reflexivity. }
  destruct (round_Q_within (xorb s false) (F2Q (Fin s m) * F2Q sixty) 1006
              ltac:(lia)) as (t & k & R & _ & _).
  { rewrite S60, D. lra. }
  { rewrite S60, D. lra. }
  assert (M : fmul (Fin s m) sixty = Fin t k) by exact R.
  assert (N0 : (F2Q (Fin t k) <= F2Q zero)%Q).
  { apply (round_Q_le _ false _ 0 _ _ R round_Q_zero eq_refl eq_refl).
    rewrite S60. lra. }
  rewrite Ez in N0.
  assert (K : signed t (Z.of_N k) <= 0).
  { destruct (Z.le_gt_cases (signed t (Z.of_N k)) 0) as [A|A]; [exact A|].
    exfalso. assert (B : (inject_Z 1 <= F2Q (Fin t k) * inject_Z (2 ^ 1074))%Q).
    { unfold F2Q, Qle, Qmult, inject_Z. cbn [Qnum Qden].
      change (Zpos (scale * 1)) with (2 ^ 1074). nia. }
    assert (P74 : (0 < inject_Z (2 ^ 1074))%Q) by (apply pow2_pos_Q; lia).
    change (inject_Z 1) with 1%Q in B. nra. }
  assert (P74 : 0 < 2 ^ 1074) by (apply Z.pow_pos_nonneg; lia).
  exists (signed t (Z.of_N k / 2 ^ 1074)). split.
  - unfold num_mul, to_float. rewrite E60. cbn [bind]. rewrite M.
    apply py_int_finite.
  - destruct t; unfold signed in *.
    + pose proof (Z.div_pos (Z.of_N k) (2 ^ 1074) ltac:(lia) P74). lia.
    + assert (Z.of_N k = 0) by lia. rewrite H. rewrite Z.div_0_l by lia. lia.
Qed.

(** X15: below one hour [format_time] shows minutes only: from 0 to 59
    for a duration of at least 0, and a count that is not positive for a
    negative duration, which is not refused. *)
Theorem format_time_below_one_hour (w : World) (s : bool) (m : N) :
  valid (Fin s m) = true ->
  (- inject_Z (2 ^ 1000) <= F2Q (Fin s m))%Q -> (F2Q (Fin s m) < 1)%Q ->
  exists minutes,
    format_time (PyFloat (Fin s m)) w = Ok (str_int minutes +:+ "м") /\
    minutes <= 59 /\
    ((0 <= F2Q (Fin s m))%Q -> 0 <= minutes) /\
    ((F2Q (Fin s m) <= 0)%Q -> minutes <= 0).
Proof.
  intros V Hlo H1.
  unfold format_time, lift. rewrite (is_below_one s m H1).
  assert (P74 : 0 < 2 ^ 1074) by (apply Z.pow_pos_nonneg; lia).
  assert (P21 : 0 < 2 ^ 1021) by (apply Z.pow_pos_nonneg; lia).
  assert (L21 : 2 ^ 1021 < 2 ^ 1074) by (apply Z.pow_lt_mono_r; lia).
  destruct (Qlt_le_dec 0 (F2Q (Fin s m))) as [Pos|Neg].
  - assert (Hs : s = false).
    { destruct s; [|reflexivity]. pose proof (F2Q_sign_neg m).
      exfalso. lra. }
    subst s.
    assert (Hm : Z.of_N m < 2 ^ 1074).
    { change 1%Q with (inject_Z 1) in H1. apply F2Q_lt_Z in H1.
      unfold signed in H1. lia. }
    pose proof (at_most_below_one m V Hm) as Hle.
    destruct (minutes_of_fraction false m (Qlt_le_weak _ _ Pos) Hle)
      as (minutes & Em & Hmin & _).
    exists minutes. split; [|split; [lia|split; [lia|]]].
    + destruct (num_mul (PyFloat (Fin false m)) (PyInt 60)) as [p|e];
        [|discriminate Em].
      cbn [bind] in *. rewrite Em. reflexivity.
    + intros A. exfalso. lra.
  - destruct (minutes_of_negative s m Hlo Neg) as (minutes & Em & Hmin).
    assert (Z0 : (0 <= F2Q (Fin s m))%Q -> minutes = 0).
    { intros A.
      assert (M0 : Z.of_N m = 0).
      { assert (E : (F2Q (Fin s m) == 0)%Q) by (apply Qle_antisym; assumption).
        unfold F2Q, Qeq, signed in E. cbn [Qnum Qden] in E.
        destruct s; lia. }
      assert (Hle : Z.of_N m <= 2 ^ 1074 - 2 ^ 1021) by lia.
      destruct (minutes_of_fraction s m A Hle) as (k & Ek & Hk & Fk).
      rewrite Em in Ek. apply Ok_inj in Ek. subst k.
      assert (Em0 : m = 0%N) by lia. subst m.
      rewrite Fk. destruct s; vm_compute; reflexivity. }
    exists minutes. split; [|split; [lia|split]].
    + destruct (num_mul (PyFloat (Fin s m)) (PyInt 60)) as [p|e];
        [|discriminate Em].
      cbn [bind] in *. rewrite Em. reflexivity.
    + intros A. rewrite (Z0 A). lia.
    + intros _. exact Hmin.
Qed.

Lemma format_time_below_one_hour_witness :
  exists minutes,
    format_time (PyFloat (Fin true (Z.to_N (2 ^ 1073))))
      {| clock := 0; settings := default_settings |} =
      Ok (str_int minutes +:+ "м") /\
    minutes <= 0.
Proof.
  destruct (format_time_below_one_hour
              {| clock := 0; settings := default_settings |} true
              (Z.to_N (2 ^ 1073))) as (minutes & E & _ & _ & H).
  - vm_compute. reflexivity.
  - vm_compute. discriminate.
  - vm_compute. reflexivity.
  - exists minutes. split; [exact E|]. apply H. vm_compute. discriminate.
Defined.

(** X16: [format_time] refuses the doubles that are no numbers of hours:
    ValueError on a NaN, OverflowError on either infinity. *)
Theorem format_time_refuses_non_finite (w : World) (x : float64) :
  is_finite x = false ->
  format_time (PyFloat x) w =
  Raise (match x with NaN => ValueError | _ => OverflowError end).
Proof.
  destruct x as [s m|[|]|]; intros H; [discriminate H | | |];
    vm_compute; reflexivity.
Qed.

Lemma format_time_refuses_non_finite_witness :
  format_time (PyFloat NaN) {| clock := 0; settings := default_settings |} =
  Raise ValueError.
Proof.
  apply (format_time_refuses_non_finite
           {| clock := 0; settings := default_settings |} NaN).
  reflexivity.
Defined.

(** ** Amounts just below a thousand *)

(** From the half above an odd integer up to the next integer, rounding
    gives that next integer. *)
Lemma RNE_upper_half (q : Q) (f : Z) :
  Z.odd f = true ->
  (inject_Z f + (1 # 2) <= q)%Q -> (q <= inject_Z f + 1)%Q ->
  RNE q = f + 1.
Proof.
  intros Hodd Hlo Hhi.
  destruct (Qle_lt_or_eq _ _ Hhi) as [Hlt|Heq].
  - assert (Hf : Qfloor q = f).
    { destruct (Qfloor_bounds q) as [B1 B2].
      assert (A1 : f <= Qfloor q).
      { rewrite <- (Qfloor_Z f). apply Qfloor_resp_le. lra. }
      assert (A2 : Qfloor q < f + 1).
      { rewrite Zlt_Qlt, inject_Z_plus. change (inject_Z 1) with 1%Q. lra. }
      lia. }
    unfold RNE. rewrite Hf.
    destruct (Qcompare_spec (q - inject_Z f) (1 # 2)) as [E|L|G].
    + rewrite <- Z.negb_odd, Hodd. reflexivity.
    + exfalso. lra.
    + reflexivity.
  - assert (E : (q == inject_Z (f + 1))%Q).
    { rewrite Heq, inject_Z_plus. reflexivity. }
    rewrite (RNE_comp _ _ E). apply RNE_Z.
Qed.

Lemma edge_constants :
  int_to_float 1000 = Ok (literal 1000 0) /\
  (F2Q (literal 1000 0) == 1000)%Q /\
  valid (literal 1000 0) = true /\
  valid (Fin false (Z.to_N (4095798 * 2 ^ 1062))) = true /\
  (F2Q (Fin false (Z.to_N (4095798 * 2 ^ 1062))) == 4095798 # 4096)%Q.
Proof.
  split; [vm_compute; reflexivity|]. split; [vm_compute; reflexivity|].
  split; [vm_compute; reflexivity|]. split; vm_compute; reflexivity.
Qed.

Lemma num_lt_float_int (s : bool) (m : N) (n : Z) :
  num_lt (PyFloat (Fin s m)) (PyInt n) =
  match Qcompare (inject_Z n) (F2Q (Fin s m)) with Gt => true | _ => false end.
Proof.
  unfold num_lt, num_compare, int_float_compare.
  cbn [fmap option_fmap option_map].
  destruct (Qcompare (inject_Z n) (F2Q (Fin s m))); reflexivity.
Qed.

Lemma num_lt_float_int_true (s : bool) (m : N) (n : Z) :
  (F2Q (Fin s m) < inject_Z n)%Q ->
  num_lt (PyFloat (Fin s m)) (PyInt n) = true.
Proof.
  intros H. rewrite num_lt_float_int.
  destruct (Qcompare_spec (inject_Z n) (F2Q (Fin s m))) as [E|L|G];
    [exfalso; lra | exfalso; lra | reflexivity].
Qed.

Lemma num_lt_float_int_false (s : bool) (m : N) (n : Z) :
  (inject_Z n <= F2Q (Fin s m))%Q ->
  num_lt (PyFloat (Fin s m)) (PyInt n) = false.
Proof.
  intros H. rewrite num_lt_float_int.
  destruct (Qcompare_spec (inject_Z n) (F2Q (Fin s m))) as [E|L|G];
    [reflexivity | reflexivity | exfalso; lra].
Qed.

Lemma positive_sign (s : bool) (m : N) :
  (0 < F2Q (Fin s m))%Q -> s = false.
Proof.
  intros H. destruct s; [|reflexivity].
  pose proof (F2Q_sign_neg m). exfalso. lra.
Qed.

(** X23: an amount from 999.995 up to, but not including, 1000 is shown
    as ["1000.00"], without the suffix of the thousands; an amount from
    999951 up to, but not including, a million is shown as ["1000.0K"],
    not in millions. *)
Theorem format_number_just_below_a_threshold (w : World) (s : bool) (m : N) :
  ((999995 # 1000 <= F2Q (Fin s m))%Q -> (F2Q (Fin s m) < 1000)%Q ->
   format_number (PyFloat (Fin s m)) w = Ok "1000.00") /\
  ((999951 <= F2Q (Fin s m))%Q -> (F2Q (Fin s m) < 1000000)%Q ->
   format_number (PyFloat (Fin s m)) w = Ok "1000.0K").
Proof.
  destruct edge_constants as (E3 & Q3 & V3 & Vlo & Qlo).
  split.
  - intros Hlo Hhi.
    assert (Hs : s = false) by (apply (positive_sign s m); lra). subst s.
    unfold format_number, lift.
    rewrite (num_lt_float_int_true false m 1000)
      by (change (inject_Z 1000) with 1000%Q; exact Hhi).
    unfold format_fixed, to_float, float_format_fixed. cbn [bind].
    change (10 ^ Z.of_nat 2) with 100. change (inject_Z 100) with 100%Q.
    assert (R : RNE (Qabs (F2Q (Fin false m)) * 100) = 99999 + 1).
    { apply RNE_upper_half; [reflexivity | |];
        rewrite Qabs_pos by lra; change (inject_Z 99999) with 99999%Q; lra. }
    rewrite R. vm_compute. reflexivity.
  - intros Hlo Hhi.
    assert (Hs : s = false) by (apply (positive_sign s m); lra). subst s.
    unfold format_number, lift.
    rewrite (num_lt_float_int_false false m 1000)
      by (change (inject_Z 1000) with 1000%Q; lra).
    rewrite (num_lt_float_int_true false m 1000000)
      by (change (inject_Z 1000000) with 1000000%Q; exact Hhi).
    unfold num_truediv, to_float. rewrite E3. cbn [bind].
    assert (Z3 : is_zero (literal 1000 0) = false) by (vm_compute; reflexivity).
    rewrite Z3.
    assert (F3 : exists m3, literal 1000 0 = Fin false m3).
    { eexists. vm_compute. reflexivity. }
    destruct F3 as [m3 F3]. rewrite F3 in *.
    destruct (round_Q_between (xorb false false)
                (F2Q (Fin false m) / F2Q (Fin false m3))
                (Fin false (Z.to_N (4095798 * 2 ^ 1062))) (Fin false m3)
                Vlo V3 eq_refl eq_refl)
      as (sq & mq & Eq & Blo & Bhi).
    { rewrite Qlo, Q3. apply Qle_shift_div_l; [reflexivity|]. lra. }
    { rewrite Q3. apply Qle_shift_div_r; [reflexivity|]. lra. }
    assert (D : fdiv (Fin false m) (Fin false m3) = Fin sq mq) by exact Eq.
    rewrite D. rewrite Qlo in Blo. rewrite Q3 in Bhi.
    assert (Hsq : sq = false) by (apply (positive_sign sq mq); lra).
    subst sq. unfold float_format_fixed. cbn [bind].
    change (10 ^ Z.of_nat 1) with 10. change (inject_Z 10) with 10%Q.
    assert (R : RNE (Qabs (F2Q (Fin false mq)) * 10) = 9999 + 1).
    { apply RNE_upper_half; [reflexivity | |];
        rewrite Qabs_pos by lra; change (inject_Z 9999) with 9999%Q; lra. }
    rewrite R. vm_compute. reflexivity.
Qed.

Lemma format_number_just_below_a_threshold_witness :
  format_number (PyFloat (literal 999996 3))
    {| clock := 0; settings := default_settings |} = Ok "1000.00".
Proof.
  assert (E : exists m, literal 999996 3 = Fin false m).
  { eexists. vm_compute. reflexivity. }
  destruct E as [m E].
  assert (Hlo : (999995 # 1000 <= F2Q (literal 999996 3))%Q)
    by (vm_compute; discriminate).
  assert (Hhi : (F2Q (literal 999996 3) < 1000)%Q)
    by (vm_compute; reflexivity).
  rewrite E in *.
  exact (proj1 (format_number_just_below_a_threshold
                  {| clock := 0; settings := default_settings |} false m)
           Hlo Hhi).
Defined.

(** ** Income and guests when the upgrades grow *)

Lemma ext_le_threshold (x : float64) :
  x <> NaN -> bounded x = true -> ext x <= overflow_threshold.
Proof.
  pose proof threshold_pos as Ht.
  destruct x as [s m|s|]; intros Hn Hb; [| |congruence].
  - pose proof (bounded_ext s m Hb). lia.
  - destruct s; simpl; lia.
Qed.

Lemma nonneg_float_cases (x : float64) :
  nonneg_float x -> (exists s m, x = Fin s m) \/ x = Inf false.
Proof.
  pose proof threshold_pos as Ht.
  intros (Hn & _ & _ & H0). destruct x as [s m|[|]|]; [| | |congruence].
  - left. eauto.
  - simpl in H0. lia.
  - right. reflexivity.
Qed.

Lemma nonneg_float_round (z : bool) (q : Q) :
  (0 <= q)%Q -> nonneg_float (round_Q z q).
Proof.
  intros Hq. split; [apply round_Q_not_nan|].
  split; [apply round_Q_bounded|]. split; [apply round_Q_valid|].
  pose proof (ext_round_Q_mono false z 0 q Hq) as H.
  rewrite round_Q_zero in H. exact H.
Qed.

Lemma nonneg_float_inf : nonneg_float (Inf false).
Proof.
  split; [discriminate|]. split; [reflexivity|]. split; [reflexivity|].
  vm_compute. discriminate.
Qed.

Lemma nonneg_float_zero : nonneg_float zero.
Proof.
  split; [discriminate|]. split; [vm_compute; reflexivity|].
  split; [vm_compute; reflexivity|]. vm_compute. discriminate.
Qed.

Lemma nonneg_float_F2Q (s : bool) (m : N) :
  nonneg_float (Fin s m) -> (0 <= F2Q (Fin s m))%Q.
Proof.
  intros (_ & _ & _ & H0). rewrite F2Q_ext. unfold Qle. cbn [Qnum Qden]. lia.
Qed.

Lemma inf_above (x y : float64) :
  nonneg_float y -> ext (Inf false) <= ext y -> y = Inf false.
Proof.
  intros Hy H. destruct (nonneg_float_cases y Hy) as [(s & m & ->)| ->];
    [|reflexivity].
  destruct Hy as (_ & Hb & _ & _). pose proof (bounded_ext s m Hb).
  simpl in H. simpl in H0. lia.
Qed.

(** Addition of such doubles is monotone in both arguments. *)
Lemma fadd_nonneg_mono (a a' d d' : float64) :
  nonneg_float a -> nonneg_float a' -> nonneg_float d -> nonneg_float d' ->
  ext a <= ext a' -> ext d <= ext d' ->
  nonneg_float (fadd a d) /\ nonneg_float (fadd a' d') /\
  ext (fadd a d) <= ext (fadd a' d').
Proof.
  intros Ha Ha' Hd Hd' Hle1 Hle2.
  assert (G : forall x y, nonneg_float x -> nonneg_float y ->
                          nonneg_float (fadd x y)).
  { intros x y Hx Hy.
    destruct (nonneg_float_cases x Hx) as [(s & m & ->)| ->];
      destruct (nonneg_float_cases y Hy) as [(t & n & ->)| ->];
      try apply nonneg_float_inf.
    unfold fadd. apply nonneg_float_round.
    pose proof (nonneg_float_F2Q _ _ Hx). pose proof (nonneg_float_F2Q _ _ Hy).
    lra. }
  split; [apply G; assumption|]. split; [apply G; assumption|].
  pose proof (G a d Ha Hd) as (Hn & Hb & _ & _).
  destruct (nonneg_float_cases a' Ha') as [(s' & m' & ->)| ->];
    destruct (nonneg_float_cases d' Hd') as [(t' & n' & ->)| ->];
    try (apply ext_le_threshold; assumption).
  destruct (nonneg_float_cases a Ha) as [(s & m & ->)| ->].
  2:{ pose proof (inf_above (Inf false) _ Ha' Hle1) as E. discriminate E. }
  destruct (nonneg_float_cases d Hd) as [(t & n & ->)| ->].
  2:{ pose proof (inf_above (Inf false) _ Hd' Hle2) as E. discriminate E. }
  unfold fadd. apply ext_round_Q_mono.
  apply (F2Q_le_ext (Fin s m) (Fin s' m') eq_refl eq_refl) in Hle1.
  apply (F2Q_le_ext (Fin t n) (Fin t' n') eq_refl eq_refl) in Hle2.
  lra.
Qed.

(** Adding such a double never gives less. *)
Lemma fadd_nonneg_grow (a d : float64) :
  nonneg_float a -> nonneg_float d -> ext a <= ext (fadd a d).
Proof.
  intros Ha Hd.
  assert (Hz := nonneg_float_zero).
  destruct (fadd_nonneg_mono a a zero d Ha Ha Hz Hd (Z.le_refl _))
    as (_ & _ & H).
  { destruct Hd as (_ & _ & _ & H0). exact H0. }
  assert (E : ext (fadd a zero) = ext a).
  { destruct (nonneg_float_cases a Ha) as [(s & m & ->)| ->]; [|reflexivity].
    unfold fadd, zero.
    assert (Q : (F2Q (Fin s m) + F2Q (Fin false 0) == F2Q (Fin s m))%Q).
    { destruct zero_valid as [_ Ez]. unfold zero in Ez. rewrite Ez. ring. }
    rewrite (round_Q_comp _ _ _ Q). rewrite !ext_round_Q.
    destruct Ha as (_ & Hb & Hv & H0).
    pose proof (ext_exact s m Hv) as X. rewrite ext_round_Q in X.
    assert (S0 : signed (Qneg (F2Q (Fin s m)) (s && false))
                   (Z.min overflow_threshold
                      (round_mag (Qabs (F2Q (Fin s m)) *
                                  inject_Z (Zpos scale)))) =
                 signed (Qneg (F2Q (Fin s m)) s)
                   (Z.min overflow_threshold
                      (round_mag (Qabs (F2Q (Fin s m)) *
                                  inject_Z (Zpos scale))))).
    { unfold Qneg. destruct (Qcompare_spec (F2Q (Fin s m)) 0) as [E|L|G];
        try reflexivity.
      assert (M0 : round_mag (Qabs (F2Q (Fin s m)) * inject_Z (Zpos scale))
                   = 0).
      { rewrite (round_mag_comp _ 0); [reflexivity|]. rewrite E. reflexivity. }
      rewrite M0. pose proof threshold_pos. rewrite Z.min_r by lia.
      destruct s; reflexivity. }
    rewrite S0. exact X. }
  lia.
Qed.

Lemma fadd_zero_ext (s : bool) (m : N) :
  valid (Fin s m) = true -> ext (fadd (Fin s m) zero) = ext (Fin s m).
Proof.
  intros Hv. unfold fadd, zero.
  assert (Q : (F2Q (Fin s m) + F2Q (Fin false 0) == F2Q (Fin s m))%Q).
  { destruct zero_valid as [_ Ez]. unfold zero in Ez. rewrite Ez. ring. }
  rewrite (round_Q_comp _ _ _ Q). rewrite ext_round_Q.
  pose proof (ext_exact s m Hv) as X. rewrite ext_round_Q in X.
  rewrite <- X. unfold Qneg.
  destruct (Qcompare_spec (F2Q (Fin s m)) 0) as [E|L|G]; try reflexivity.
  assert (M0 : round_mag (Qabs (F2Q (Fin s m)) * inject_Z (Zpos scale)) = 0).
  { rewrite (round_mag_comp _ 0); [reflexivity|]. rewrite E. reflexivity. }
  rewrite M0. pose proof threshold_pos. rewrite Z.min_r by lia.
  destruct s; reflexivity.
Qed.

(** Adding to a finite double is monotone in what is added. *)
Lemma fadd_mono_right (sc : bool) (mc : N) (t t' : float64) :
  nonneg_float t -> nonneg_float t' -> ext t <= ext t' ->
  fadd (Fin sc mc) t <> NaN /\ bounded (fadd (Fin sc mc) t) = true /\
  fadd (Fin sc mc) t' <> NaN /\ bounded (fadd (Fin sc mc) t') = true /\
  ext (fadd (Fin sc mc) t) <= ext (fadd (Fin sc mc) t').
Proof.
  intros Ht Ht' Hle.
  assert (G : forall y, nonneg_float y ->
                fadd (Fin sc mc) y <> NaN /\
                bounded (fadd (Fin sc mc) y) = true).
  { intros y Hy. destruct (nonneg_float_cases y Hy) as [(s & m & ->)| ->].
    - split; [apply round_Q_not_nan | apply round_Q_bounded].
    - split; [discriminate | reflexivity]. }
  destruct (G t Ht) as [N1 B1]. destruct (G t' Ht') as [N2 B2].
  split; [exact N1|]. split; [exact B1|]. split; [exact N2|].
  split; [exact B2|].
  destruct (nonneg_float_cases t' Ht') as [(s' & m' & ->)| ->].
  2:{ apply ext_le_threshold; assumption. }
  destruct (nonneg_float_cases t Ht) as [(s & m & ->)| ->].
  2:{ pose proof (inf_above (Inf false) _ Ht' Hle) as E. discriminate E. }
  unfold fadd. apply ext_round_Q_mono.
  apply (F2Q_le_ext (Fin s m) (Fin s' m') eq_refl eq_refl) in Hle. lra.
Qed.

Lemma num_le_floats (x y : float64) :
  x <> NaN -> bounded x = true -> y <> NaN -> bounded y = true ->
  ext x <= ext y -> num_le (PyFloat x) (PyFloat y) = true.
Proof.
  intros Nx Bx Ny By H. change (fle x y = true).
  rewrite (fle_ext x y Bx By Nx Ny). apply Z.leb_le. exact H.
Qed.

(** What one upgrade adds to the income at two levels. *)
Lemma contribution_mono (f : float64) (n n' : Z) :
  is_finite f = true -> (0 <= F2Q f)%Q ->
  0 <= n -> n <= n' -> n' <= 2 ^ 1023 ->
  exists d d' : float64,
    num_mul (PyFloat f) (PyInt n) = Ok (PyFloat d) /\
    num_mul (PyFloat f) (PyInt n') = Ok (PyFloat d') /\
    nonneg_float d /\ nonneg_float d' /\ ext d <= ext d'.
Proof.
  intros Ff Hf H0 Hle Hhi.
  assert (P : 0 < 2 ^ 1023) by (apply Z.pow_pos_nonneg; lia).
  destruct (int_to_float_finite n ltac:(lia)) as (s & m & Ei & Er).
  destruct (int_to_float_finite n' ltac:(lia)) as (s' & m' & Ei' & Er').
  assert (Q0 : forall k, 0 <= k -> (0 <= inject_Z k)%Q).
  { intros k Hk. change 0%Q with (inject_Z 0). rewrite <- Zle_Qle. exact Hk. }
  assert (Hs : s = false) by exact (round_Q_sign_nonneg _ _ _ (Q0 n H0) Er).
  assert (Hs' : s' = false)
    by exact (round_Q_sign_nonneg _ _ _ (Q0 n' ltac:(lia)) Er').
  subst s s'.
  assert (Hy : (F2Q (Fin false m) <= F2Q (Fin false m'))%Q).
  { apply (round_Q_le _ _ _ _ _ _ Er Er' eq_refl eq_refl).
    rewrite <- Zle_Qle. exact Hle. }
  destruct f as [sf mf| |]; [|discriminate Ff|discriminate Ff].
  exists (fmul (Fin sf mf) (Fin false m)), (fmul (Fin sf mf) (Fin false m')).
  split; [unfold num_mul, to_float; rewrite Ei; reflexivity|].
  split; [unfold num_mul, to_float; rewrite Ei'; reflexivity|].
  pose proof (F2Q_nonneg_of_sign m) as Hm.
  pose proof (F2Q_nonneg_of_sign m') as Hm'.
  split; [apply nonneg_float_round, Qmult_le_0_compat; assumption|].
  split; [apply nonneg_float_round, Qmult_le_0_compat; assumption|].
  unfold fmul. apply ext_round_Q_mono.
  rewrite !(Qmult_comm (F2Q (Fin sf mf))).
  apply Qmult_le_compat_r; assumption.
Qed.

Lemma acc_le_step (ti ti' : pynum) (d d' : float64) :
  acc_le ti ti' -> nonneg_float d -> nonneg_float d' -> ext d <= ext d' ->
  exists t t' : float64,
    num_add ti (PyFloat d) = Ok (PyFloat t) /\
    num_add ti' (PyFloat d') = Ok (PyFloat t') /\
    acc_le (PyFloat t) (PyFloat t').
Proof.
  intros Hacc Hd Hd' Hle.
  assert (Hz := nonneg_float_zero).
  assert (E0 : num_add (PyInt 0) (PyFloat d) = Ok (PyFloat (fadd zero d)))
    by (unfold num_add, to_float; rewrite int_to_float_0; reflexivity).
  assert (E0' : num_add (PyInt 0) (PyFloat d') = Ok (PyFloat (fadd zero d')))
    by (unfold num_add, to_float; rewrite int_to_float_0; reflexivity).
  destruct Hacc as [|t' Ht'|t t' Ht Ht' Htt].
  - destruct (fadd_nonneg_mono zero zero d d' Hz Hz Hd Hd' (Z.le_refl _) Hle)
      as (A & B & C).
    exists (fadd zero d), (fadd zero d').
    split; [exact E0|]. split; [exact E0'|]. apply acc_both; assumption.
  - assert (H0 : ext zero <= ext t') by (destruct Ht' as (_ & _ & _ & H); exact H).
    destruct (fadd_nonneg_mono zero t' d d' Hz Ht' Hd Hd' H0 Hle)
      as (A & B & C).
    exists (fadd zero d), (fadd t' d').
    split; [exact E0|]. split; [reflexivity|]. apply acc_both; assumption.
  - destruct (fadd_nonneg_mono t t' d d' Ht Ht' Hd Hd' Htt Hle) as (A & B & C).
    exists (fadd t d), (fadd t' d').
    split; [reflexivity|]. split; [reflexivity|]. apply acc_both; assumption.
Qed.

Lemma acc_le_skip (ti ti' : pynum) (d' : float64) :
  acc_le ti ti' -> nonneg_float d' ->
  exists t' : float64,
    num_add ti' (PyFloat d') = Ok (PyFloat t') /\ acc_le ti (PyFloat t').
Proof.
  intros Hacc Hd'.
  assert (Hz := nonneg_float_zero).
  assert (G : forall x y, nonneg_float x -> nonneg_float y ->
                          nonneg_float (fadd x y)).
  { intros x y Hx Hy.
    destruct (fadd_nonneg_mono x x y y Hx Hx Hy Hy (Z.le_refl _) (Z.le_refl _))
      as (A & _). exact A. }
  destruct Hacc as [|t' Ht'|t t' Ht Ht' Htt].
  - exists (fadd zero d'). split.
    + unfold num_add, to_float. rewrite int_to_float_0. reflexivity.
    + apply acc_ahead. apply G; assumption.
  - exists (fadd t' d'). split; [reflexivity|].
    apply acc_ahead. apply G; assumption.
  - exists (fadd t' d'). split; [reflexivity|].
    apply acc_both; [exact Ht | apply G; assumption |].
    pose proof (fadd_nonneg_grow t' d' Ht' Hd'). lia.
Qed.

(** The loop on two lists of upgrades of which the second has grown. *)
Lemma total_income_loop_grows (u u' : list (gmap string pynum)) :
  grows u u' ->
  forall (ti ti' : pynum) (g g' : Z),
    acc_le ti ti' -> g <= g' ->
    exists (i i' : pynum) (G G' : Z),
      total_income_loop u ti (PyInt g) = Ok (i, PyInt G) /\
      total_income_loop u' ti' (PyInt g') = Ok (i', PyInt G') /\
      acc_le i i' /\ G <= G'.
Proof.
  intros H. induction H as [|r r' n n' f gb rest rest' Hr Hr' Hn _ IH
                             |r' n' f gb rest rest' Hr' _ IH];
    intros ti ti' g g' Hacc Hg.
  - exists ti, ti', g, g'. split; [reflexivity|]. split; [reflexivity|].
    split; assumption.
  - destruct Hr as (L & Ln & B & Fb & Hb & Gb & Hgb).
    destruct Hr' as (L' & Ln' & B' & _ & _ & Gb' & _).
    destruct (contribution_mono f n n' Fb Hb (proj1 Ln) Hn (proj2 Ln'))
      as (d & d' & D & D' & Nd & Nd' & Hd).
    destruct (acc_le_step ti ti' d d' Hacc Nd Nd' Hd) as (t & t' & T & T' & Ht).
    destruct (IH (PyFloat t) (PyFloat t') (g + gb * n) (g' + gb * n') Ht
                ltac:(nia)) as (i & i' & G & G' & E & E' & Hi & HG).
    exists i, i', G, G'.
    split; [|split; [|split; assumption]].
    + cbn [total_income_loop]. rewrite L, B, Gb, D. cbn [bind].
      rewrite T. cbn [bind num_mul num_add]. exact E.
    + cbn [total_income_loop]. rewrite L', B', Gb', D'. cbn [bind].
      rewrite T'. cbn [bind num_mul num_add]. exact E'.
  - destruct Hr' as (L' & Ln' & B' & Fb & Hb & Gb' & Hgb).
    destruct (contribution_mono f n' n' Fb Hb (proj1 Ln') (Z.le_refl _)
                (proj2 Ln')) as (_ & d' & _ & D' & _ & Nd' & _).
    destruct (acc_le_skip ti ti' d' Hacc Nd') as (t' & T' & Ht).
    destruct (IH ti (PyFloat t') g (g' + gb * n') Ht ltac:(nia))
      as (i & i' & G & G' & E & E' & Hi & HG).
    exists i, i', G, G'.
    split; [exact E|]. split; [|split; assumption].
    cbn [total_income_loop]. rewrite L', B', Gb', D'. cbn [bind].
    rewrite T'. cbn [bind num_mul num_add]. exact E'.
Qed.

(** The base income plus the two accumulated bonuses. *)
Lemma base_plus_bonus (base ti ti' : pynum) :
  base_income_ok base -> acc_le ti ti' ->
  exists i i' : pynum,
    num_add base ti = Ok i /\ num_add base ti' = Ok i' /\
    num_le i i' = true.
Proof.
  intros Hbase Hacc.
  assert (Hz := nonneg_float_zero).
  assert (F : forall sc mc,
            valid (Fin sc mc) = true ->
            forall a a', acc_le a a' ->
            exists r r' : float64,
              (y <- to_float a ;; Ok (PyFloat (fadd (Fin sc mc) y))) =
                Ok (PyFloat r) /\
              (y <- to_float a' ;; Ok (PyFloat (fadd (Fin sc mc) y))) =
                Ok (PyFloat r') /\
              num_le (PyFloat r) (PyFloat r') = true /\
              (a = PyInt 0 -> ext (Fin sc mc) <= ext r') /\
              r' <> NaN).
  { intros sc mc Vc a a' Ha.
    destruct Ha as [|t' Ht'|t t' Ht Ht' Htt].
    - destruct (fadd_mono_right sc mc zero zero Hz Hz (Z.le_refl _))
        as (N1 & B1 & _ & _ & Hle).
      exists (fadd (Fin sc mc) zero), (fadd (Fin sc mc) zero).
      cbn [to_float]. rewrite int_to_float_0. cbn [bind].
      split; [reflexivity|]. split; [reflexivity|].
      split; [apply num_le_floats; assumption|]. split; [|exact N1].
      intros _. rewrite (fadd_zero_ext sc mc Vc). lia.
    - assert (H0 : ext zero <= ext t')
        by (destruct Ht' as (_ & _ & _ & H); exact H).
      destruct (fadd_mono_right sc mc zero t' Hz Ht' H0)
        as (N1 & B1 & N2 & B2 & Hle).
      exists (fadd (Fin sc mc) zero), (fadd (Fin sc mc) t').
      cbn [to_float]. rewrite int_to_float_0. cbn [bind].
      split; [reflexivity|]. split; [reflexivity|].
      split; [apply num_le_floats; assumption|]. split; [|exact N2].
      intros _. rewrite <- (fadd_zero_ext sc mc Vc). exact Hle.
    - destruct (fadd_mono_right sc mc t t' Ht Ht' Htt)
        as (N1 & B1 & N2 & B2 & Hle).
      exists (fadd (Fin sc mc) t), (fadd (Fin sc mc) t').
      cbn [to_float bind].
      split; [reflexivity|]. split; [reflexivity|].
      split; [apply num_le_floats; assumption|]. split; [|exact N2].
      intros E. discriminate E. }
  destruct base as [b|x].
  - cbn [base_income_ok] in Hbase.
    destruct (int_to_float_exact b Hbase) as (mb & Eb & Qb & Vb).
    destruct (F false mb Vb ti ti' Hacc) as (r & r' & R & R' & Hle & Hlow & Nr').
    destruct Hacc as [|t' Ht'|t t' Ht Ht' Htt].
    + exists (PyInt (b + 0)), (PyInt (b + 0)).
      split; [reflexivity|]. split; [reflexivity|].
      unfold num_le, num_compare. rewrite Z.compare_refl. reflexivity.
    + exists (PyInt (b + 0)), (PyFloat r').
      split; [reflexivity|]. split.
      { unfold num_add, to_float. rewrite Eb. cbn [bind].
        cbn [to_float bind] in R'. exact R'. }
      specialize (Hlow eq_refl).
      unfold num_le, num_compare, int_float_compare.
      destruct r' as [sr mr|[|]|]; [| |reflexivity|congruence].
      * apply (F2Q_le_ext (Fin false mb) (Fin sr mr) eq_refl eq_refl) in Hlow.
        rewrite Z.add_0_r.
        destruct (Qcompare_spec (inject_Z b) (F2Q (Fin sr mr))) as [E|L|G];
          [reflexivity | reflexivity | exfalso; lra].
      * exfalso. pose proof threshold_pos. simpl in Hlow.
        assert (0 <= signed false (Z.of_N mb)) by (unfold signed; lia). lia.
    + exists (PyFloat r), (PyFloat r').
      split.
      { unfold num_add, to_float. rewrite Eb. cbn [bind].
        cbn [to_float bind] in R. exact R. }
      split; [|exact Hle].
      unfold num_add, to_float. rewrite Eb. cbn [bind].
      cbn [to_float bind] in R'. exact R'.
  - cbn [base_income_ok] in Hbase. destruct Hbase as [Fx Vx].
    destruct x as [sx mx| |]; [|discriminate Fx|discriminate Fx].
    destruct (F sx mx Vx ti ti' Hacc) as (r & r' & R & R' & Hle & _ & _).
    exists (PyFloat r), (PyFloat r').
    split; [|split; [|exact Hle]].
    + destruct ti; exact R.
    + destruct ti'; exact R'.
Qed.

(** X24: when levels are raised or kept and upgrades are added, with
    income bonuses that are floats of at least 0 and guests bonuses that
    are ints of at least 0, the totals are returned before and after, and
    neither the income per hour nor the guests per hour gets smaller. *)
Theorem totals_never_fall_when_upgrades_grow
    (w : World) (base_income : pynum) (u u' : list (gmap string pynum)) :
  base_income_ok base_income -> grows u u' ->
  exists (income income' : pynum) (guests guests' : Z),
    calculate_total_income base_income u w = Ok (income, PyInt guests) /\
    calculate_total_income base_income u' w = Ok (income', PyInt guests') /\
    num_le income income' = true /\ guests <= guests'.
Proof.
  intros Hbase Hg.
  destruct (total_income_loop_grows u u' Hg (PyInt 0) (PyInt 0) 0 0
              acc_start (Z.le_refl _))
    as (t & t' & G & G' & E & E' & Hacc & HG).
  destruct (base_plus_bonus base_income t t' Hbase Hacc)
    as (i & i' & I & I' & Hle).
  exists i, i', (INITIAL_GUESTS_PER_HOUR (settings w) + G),
    (INITIAL_GUESTS_PER_HOUR (settings w) + G').
  split; [|split; [|split; [exact Hle | lia]]].
  - unfold calculate_total_income, ebind, lift, eret, setting.
    rewrite E. cbn [bind fst snd]. rewrite I. reflexivity.
  - unfold calculate_total_income, ebind, lift, eret, setting.
    rewrite E'. cbn [bind fst snd]. rewrite I'. reflexivity.
Qed.

Lemma totals_never_fall_when_upgrades_grow_witness :
  let grill (level : Z) : gmap string pynum :=
    <["level" := PyInt level]>
      (<["income_bonus" := PyFloat (literal 10 1)]>
      (<["guests_bonus" := PyInt 0]> ∅)) in
  let cashier : gmap string pynum :=
    <["level" := PyInt 1]>
      (<["income_bonus" := PyFloat (literal 5 1)]>
      (<["guests_bonus" := PyInt 2]> ∅)) in
  exists (income income' : pynum) (guests guests' : Z),
    calculate_total_income (PyInt 10) [grill 1]
      {| clock := 0; settings := default_settings |} =
      Ok (income, PyInt guests) /\
    calculate_total_income (PyInt 10) [cashier; grill 2]
      {| clock := 0; settings := default_settings |} =
      Ok (income', PyInt guests') /\
    num_le income income' = true /\ guests <= guests'.
Proof.
  intros grill cashier.
  apply (totals_never_fall_when_upgrades_grow
           {| clock := 0; settings := default_settings |} (PyInt 10)
           [grill 1] [cashier; grill 2]).
  - split; [lia | vm_compute; discriminate].
  - apply (grows_new cashier 1 (literal 5 1) 2).
    { split; [reflexivity|]. split; [split; [lia | vm_compute; discriminate]|].
      split; [reflexivity|]. split; [vm_compute; reflexivity|].
      split; [vm_compute; discriminate|]. split; [reflexivity | lia]. }
    apply (grows_level (grill 1) (grill 2) 1 2 (literal 10 1) 0).
    + split; [reflexivity|]. split; [split; [lia | vm_compute; discriminate]|].
      split; [reflexivity|]. split; [vm_compute; reflexivity|].
      split; [vm_compute; discriminate|]. split; [reflexivity | lia].
    + split; [reflexivity|]. split; [split; [lia | vm_compute; discriminate]|].
      split; [reflexivity|]. split; [vm_compute; reflexivity|].
      split; [vm_compute; discriminate|]. split; [reflexivity | lia].
    + lia.
    + apply grows_nil.
Defined.

(** ** The Web App handlers *)

Import WebApp.

Lemma elapsed_hours_self (t : datetime) : elapsed_hours t t = Ok zero.
Proof.
  unfold elapsed_hours, total_seconds_between. rewrite Z.sub_diag.
  vm_compute. reflexivity.
Qed.

Lemma elapsed_not_positive (t0 t1 : datetime) (e : float64) :
  valid_datetime t0 = true -> valid_datetime t1 = true -> t1 <= t0 ->
  elapsed_hours t0 t1 = Ok e -> (F2Q e <= 0)%Q.
Proof.
  intros V0 V1 Hle He.
  destruct zero_valid as [_ Ez]. rewrite <- Ez.
  exact (elapsed_hours_mono t0 t1 t0 e zero V0 V1 V0 Hle He
           (elapsed_hours_self t0)).
Qed.

(** An income that is not positive is below the threshold [0.01]. *)
Lemma income_below_threshold (r : float64) (s : bool) (m : N) :
  is_finite r = true -> (0 <= F2Q r)%Q -> (F2Q (Fin s m) <= 0)%Q ->
  num_lt (PyFloat (fmul r (Fin s m))) (PyFloat (literal 1 2)) = true.
Proof.
  intros Fr Hr He.
  change (flt (fmul r (Fin s m)) (literal 1 2) = true).
  pose proof (fmul_nonpos r (Fin s m) Fr eq_refl Hr He) as Hle.
  destruct r as [sr mr| |]; [|discriminate Fr|discriminate Fr].
  assert (B : bounded (fmul (Fin sr mr) (Fin s m)) = true)
    by apply round_Q_bounded.
  assert (N : fmul (Fin sr mr) (Fin s m) <> NaN) by apply round_Q_not_nan.
  assert (B1 : bounded (literal 1 2) = true) by (vm_compute; reflexivity).
  assert (N1 : literal 1 2 <> NaN) by apply round_Q_not_nan.
  assert (Bz : bounded zero = true) by (vm_compute; reflexivity).
  assert (Nz : zero <> NaN) by (intros H; discriminate H).
  rewrite (fle_ext _ _ B Bz N Nz) in Hle. apply Z.leb_le in Hle.
  rewrite (flt_ext _ _ B B1 N N1). apply Z.ltb_lt.
  assert (P : ext zero < ext (literal 1 2)) by (vm_compute; reflexivity).
  lia.
Qed.

Section HandlerProperties.
Context {S : Type} {db : Db S} {L : Libm}.

(** X17: for a player whose last collection is not before the clock, with a
    finite rate of at least 0, the collect-income handler answers that there
    is nothing to collect and leaves the database as it was: the income of
    a future timestamp, which is not positive, is never credited. *)
Theorem collect_income_ignores_future_timestamp
    (s : S) (w : World) (user_id : Z) (p : Progress) (r : float64) :
  get_user_progress user_id s = Done (Some p) ->
  income_per_hour p = PyFloat r ->
  is_finite r = true -> (0 <= F2Q r)%Q ->
  valid_datetime (last_income_collected p) = true ->
  valid_datetime (clock w) = true ->
  clock w <= last_income_collected p ->
  0 <= OFFLINE_INCOME_MAX_HOURS (settings w) ->
  collect_income user_id s w =
  (s, Done (json_response
              [("collected", JNumber (PyInt 0));
               ("message", JString "No income to collect yet")] 200)).
Proof.
  intros Hget Hrate Fr Hr V0 V1 Hle Hmax.
  destruct (elapsed_hours_eq (last_income_collected p) (clock w) V0 V1)
    as (_ & _ & e & _ & _ & E & Fe & _).
  pose proof (elapsed_not_positive _ _ _ V0 V1 Hle E) as Hneg.
  destruct e as [se me| |]; [|discriminate Fe|discriminate Fe].
  assert (Hq : (0 <= inject_Z (OFFLINE_INCOME_MAX_HOURS (settings w)))%Q).
  { change 0%Q with (inject_Z 0). rewrite <- Zle_Qle. exact Hmax. }
  assert (C : calculate_offline_income (income_per_hour p)
                (last_income_collected p) None w =
              Ok (PyFloat (fmul r (Fin se me)), PyFloat (Fin se me))).
  { rewrite offline_income_default_cap, Hrate.
    rewrite (offline_income_unfold _ _ _ w _ E).
    destruct (py_min_cases se me (OFFLINE_INCOME_MAX_HOURS (settings w)))
      as [[H _]|[_ ->]]; [exfalso; lra | reflexivity]. }
  unfold collect_income, hbind, query, engine. rewrite Hget, C.
  cbn [fst snd]. rewrite (income_below_threshold r se me Fr Hr Hneg).
  reflexivity.
Qed.


Lemma reward_of_minus_one (w : World) (game_type : string) :
  exists r : float64,
    calculate_minigame_reward (-1) game_type w = Ok (PyFloat r) /\
    is_finite r = true /\ (F2Q r < 0)%Q.
Proof.
  rewrite (reward_up_to_50 w (-1) game_type ltac:(lia)).
  unfold Spec.per_point.
  destruct (String.eqb game_type "burger_flip");
    [eexists; split; [vm_compute; reflexivity|split; vm_compute; reflexivity]|].
  destruct (String.eqb game_type "speed_tap");
    [eexists; split; [vm_compute; reflexivity|split; vm_compute; reflexivity]|].
  destruct (String.eqb game_type "memory");
    eexists; (split; [vm_compute; reflexivity|split; vm_compute; reflexivity]).
Qed.

(** X18: the minigame handler does not check the sign of the score: for a
    negative score the reward is a negative number, and it is that number
    which is stored with the attempt, added to the balance and to the total
    earned ([update_total] is [True]), and reported. *)
Theorem minigame_negative_score_is_debited
    (s : S) (w : World) (user_id : Z) (game_type : string) (score : Z) :
  missing_text (Some game_type) = false ->
  - 2 ^ 1000 <= score -> score <= -1 ->
  exists r : float64,
    calculate_minigame_reward score game_type w = Ok (PyFloat r) /\
    is_finite r = true /\ (F2Q r < 0)%Q /\
    forall (s1 s2 : S) (flag : bool) (p : Progress),
      save_minigame_attempt user_id game_type score (PyFloat r) s =
        (s1, Done tt) ->
      update_balance user_id (PyFloat r) true s1 = (s2, Done flag) ->
      get_user_progress user_id s2 = Done (Some p) ->
      save_minigame_result user_id (Some game_type) (Some score) s w =
      (s2, Done (json_response
                   [("score", JNumber (PyInt score));
                    ("reward", JNumber (PyFloat r));
                    ("new_balance", JNumber (balance p))] 200)).
Proof.
  intros Hg Hlo Hhi.
  assert (P : 0 < 2 ^ 1000) by (apply Z.pow_pos_nonneg; lia).
  destruct (reward_in_range w game_type score (-1) Hlo Hhi ltac:(lia))
    as (r & r' & E & E' & F & _ & Hle).
  destruct (reward_of_minus_one w game_type) as (r'' & E'' & _ & Hneg).
  rewrite E' in E''. apply Ok_inj in E''.
  assert (r' = r'') by congruence. subst r''.
  exists r. split; [exact E|]. split; [exact F|]. split; [lra|].
  intros s1 s2 flag p H1 H2 H3.
  unfold save_minigame_result. rewrite Hg.
  change (default 0 (Some score)) with score.
  change (default EmptyString (Some game_type)) with game_type.
  unfold hbind, engine, await, query. cbv zeta.
  rewrite E, H1, H2, H3. reflexivity.
Qed.

(** X19: the minigame handler answers 400 when the game type is absent or
    empty, and fails with OverflowError on a score of magnitude [2^1024]
    or more; in both cases before anything is written. *)
Theorem minigame_rejected_before_database
    (s : S) (w : World) (user_id : Z) :
  (forall (game_type : option string) (score : option Z),
     missing_text game_type = true ->
     save_minigame_result user_id game_type score s w =
     (s, Done (json_response
                 [("error", JString "game_type is required")] 400))) /\
  (forall (game_type : string) (score : Z),
     missing_text (Some game_type) = false ->
     2 ^ 1024 <= Z.abs score ->
     save_minigame_result user_id (Some game_type) (Some score) s w =
     (s, Failed (EngineError OverflowError))).
Proof.
  split.
  - intros game_type score H. unfold save_minigame_result. rewrite H.
    reflexivity.
  - intros game_type score Hg H. unfold save_minigame_result. rewrite Hg.
    change (default 0 (Some score)) with score.
    change (default EmptyString (Some game_type)) with game_type.
    unfold hbind, engine. cbv zeta.
    rewrite (reward_overflow_helper w score game_type H). reflexivity.
Qed.


(** Case analysis on the outcomes a handler goes through. *)
Ltac run_handler H :=
  repeat (cbv beta iota zeta in H;
          match type of H with
          | context [match ?x with _ => _ end] =>
              lazymatch x with
              | context [match _ with _ => _ end] => fail
              | _ => destruct x eqn:?; try discriminate H
              end
          end).

Ltac same_state H Hs :=
  injection H as <- <-;
  first [ reflexivity | exfalso; apply Hs; reflexivity ].

(** X20: a handler that answers with a status other than 200 (a 400 or a
    404) has written nothing: the database is as it was; and so it is when
    collect-income reports that there is nothing to collect. *)
Theorem rejections_leave_database_untouched
    (s s' : S) (w : World) (user_id : Z) (response : Response) :
  (collect_income user_id s w = (s', Done response) ->
   status response <> 200 \/
   body response =
     JObject [("collected", JNumber (PyInt 0));
              ("message", JString "No income to collect yet")] ->
   s' = s) /\
  (forall upgrade_id,
     purchase_upgrade user_id upgrade_id s w = (s', Done response) ->
     status response <> 200 -> s' = s) /\
  (forall game_type score,
     save_minigame_result user_id game_type score s w = (s', Done response) ->
     status response <> 200 -> s' = s).
Proof.
  split; [|split].
  - unfold collect_income, hbind, query, engine, await, hret, fail.
    intros H Hs. run_handler H.
    + injection H as <- <-. reflexivity.
    + injection H as <- <-. exfalso.
      destruct Hs as [Hs|Hs]; [apply Hs; reflexivity | discriminate Hs].
    + injection H as <- <-. reflexivity.
  - intros upgrade_id.
    unfold purchase_upgrade, hbind, query, engine, await, hret, fail.
    intros H Hs. run_handler H; same_state H Hs.
  - intros game_type score.
    unfold save_minigame_result, hbind, query, engine, await, hret, fail.
    intros H Hs. run_handler H; same_state H Hs.
Qed.

(** X21: for a player without a progress row collect-income answers 404,
    but purchase-upgrade, which reads the balance of the row without
    looking whether there is one, fails with TypeError once the upgrade is
    found and its cost computed; nothing is written. *)
Theorem purchase_for_unknown_player_fails
    (s : S) (w : World) (user_id upgrade_id : Z) (u : Upgrade)
    (level cost : Z) :
  missing_id (Some upgrade_id) = false ->
  get_user_progress user_id s = Done None ->
  fetch_upgrade upgrade_id s = Done (Some u) ->
  get_user_upgrade_level user_id upgrade_id s = Done level ->
  calculate_upgrade_cost (base_cost u) level (cost_multiplier u) w =
    Ok cost ->
  purchase_upgrade user_id (Some upgrade_id) s w = (s, Failed TypeError) /\
  collect_income user_id s w =
    (s, Done (json_response [("error", JString "User not found")] 404)).
Proof.
  intros Hid Hp Hu Hl Hc. split.
  - unfold purchase_upgrade. rewrite Hid.
    change (default 0 (Some upgrade_id)) with upgrade_id.
    unfold hbind, query, engine, fail. cbv zeta.
    rewrite Hp, Hu, Hl, Hc. reflexivity.
  - unfold collect_income, hbind, query, hret. rewrite Hp. reflexivity.
Qed.

Lemma not_below_means_covered (b : float64) (cost : Z) :
  b <> NaN -> num_lt (PyFloat b) (PyInt cost) = false ->
  num_le (PyInt cost) (PyFloat b) = true.
Proof.
  intros Hn. unfold num_lt, num_le, num_compare, int_float_compare.
  destruct b as [sb mb|[|]|]; cbn [fmap option_fmap option_map CompOpp];
    try congruence; try reflexivity.
  destruct (Qcompare (inject_Z cost) (F2Q (Fin sb mb)));
    cbn [CompOpp]; congruence.
Qed.

(** X22: a purchase that succeeds was covered: when the balance read is
    not a NaN, a response with status 200 means that the upgrade was found
    and that its cost, computed by the engine at the current level, is at
    most that balance. *)
Theorem purchase_is_covered_by_balance
    (s s' : S) (w : World) (user_id : Z) (upgrade_id : option Z)
    (p : Progress) (b : float64) (response : Response) :
  get_user_progress user_id s = Done (Some p) ->
  balance p = PyFloat b -> b <> NaN ->
  purchase_upgrade user_id upgrade_id s w = (s', Done response) ->
  status response = 200 ->
  exists (id : Z) (u : Upgrade) (level cost : Z),
    upgrade_id = Some id /\ id <> 0 /\
    fetch_upgrade id s = Done (Some u) /\
    get_user_upgrade_level user_id id s = Done level /\
    calculate_upgrade_cost (base_cost u) level (cost_multiplier u) w =
      Ok cost /\
    num_le (PyInt cost) (PyFloat b) = true.
Proof.
  intros Hp Hb Hn H Hs.
  unfold purchase_upgrade in H.
  destruct upgrade_id as [id|]; cbn [missing_id] in H;
    [|injection H as <- <-; discriminate Hs].
  destruct (Z.eqb_spec id 0) as [E0|N0];
    [injection H as <- <-; discriminate Hs|].
  change (default 0 (Some id)) with id in H.
  unfold hbind, query, engine, hret, fail in H. cbv zeta in H.
  rewrite Hp in H.
  destruct (fetch_upgrade id s) as [[u|]|e] eqn:Hu;
    [|injection H as <- <-; discriminate Hs|discriminate H].
  destruct (get_user_upgrade_level user_id id s) as [level|e] eqn:Hl;
    [|discriminate H].
  destruct (calculate_upgrade_cost (base_cost u) level (cost_multiplier u) w)
    as [cost|e] eqn:Hc; [|discriminate H].
  rewrite Hb in H.
  destruct (num_lt (PyFloat b) (PyInt cost)) eqn:Hlt;
    [injection H as <- <-; discriminate Hs|].
  exists id, u, level, cost.
  split; [reflexivity|]. split; [exact N0|]. split; [exact Hu|].
  split; [exact Hl|]. split; [exact Hc|].
  exact (not_below_means_covered b cost Hn Hlt).
Qed.

End HandlerProperties.

Lemma collect_income_ignores_future_timestamp_witness :
  @collect_income unit (example_db (Some example_progress) None 0) 7 tt
    {| clock := 0; settings := default_settings |} =
  (tt, Done (json_response
               [("collected", JNumber (PyInt 0));
                ("message", JString "No income to collect yet")] 200)).
Proof.
  apply (@collect_income_ignores_future_timestamp unit
           (example_db (Some example_progress) None 0) tt
           {| clock := 0; settings := default_settings |} 7
           example_progress (literal 10 0)).
  - reflexivity.
  - reflexivity.
  - vm_compute. reflexivity.
  - vm_compute. discriminate.
  - vm_compute. reflexivity.
  - vm_compute. reflexivity.
  - vm_compute. discriminate.
  - vm_compute. discriminate.
Defined.

Lemma minigame_negative_score_is_debited_witness :
  exists r : float64,
    (F2Q r < 0)%Q /\
    @save_minigame_result unit (example_db (Some example_progress) None 0)
      7 (Some "memory") (Some (-3)) tt
      {| clock := 0; settings := default_settings |} =
    (tt, Done (json_response
                 [("score", JNumber (PyInt (-3)));
                  ("reward", JNumber (PyFloat r));
                  ("new_balance", JNumber (PyFloat (literal 100 0)))] 200)).
Proof.
  destruct (@minigame_negative_score_is_debited unit
              (example_db (Some example_progress) None 0) tt
              {| clock := 0; settings := default_settings |} 7 "memory" (-3))
    as (r & _ & _ & Hneg & Hrun).
  - reflexivity.
  - vm_compute. discriminate.
  - lia.
  - exists r. split; [exact Hneg|].
    apply (Hrun tt tt true example_progress); reflexivity.
Defined.

Lemma minigame_rejected_before_database_witness :
  @save_minigame_result unit (example_db (Some example_progress) None 0)
    7 (Some "memory") (Some (2 ^ 1024)) tt
    {| clock := 0; settings := default_settings |} =
  (tt, Failed (EngineError OverflowError)).
Proof.
  apply (@minigame_rejected_before_database unit
           (example_db (Some example_progress) None 0) tt
           {| clock := 0; settings := default_settings |} 7).
  - reflexivity.
  - vm_compute. discriminate.
Defined.

Lemma rejections_leave_database_untouched_witness : tt = tt.
Proof.
  refine (proj1 (proj2 (@rejections_leave_database_untouched unit
                          (example_db None None 0) correctly_rounded tt tt
                          {| clock := 0; settings := default_settings |} 7
                          (json_response
                             [("error", JString "Upgrade not found")] 404)))
            (Some 1) _ _).
  - reflexivity.
  - vm_compute. discriminate.
Defined.

Lemma purchase_for_unknown_player_fails_witness :
  @purchase_upgrade unit (example_db None (Some example_upgrade) 0)
    correctly_rounded 7 (Some 1) tt {| clock := 0; settings := default_settings |} =
  (tt, Failed TypeError).
Proof.
  refine (proj1 (@purchase_for_unknown_player_fails unit
                   (example_db None (Some example_upgrade) 0)
                   correctly_rounded tt
                   {| clock := 0; settings := default_settings |} 7 1
                   example_upgrade 0 50 _ _ _ _ _)).
  - reflexivity.
  - reflexivity.
  - reflexivity.
  - reflexivity.
  - vm_compute. reflexivity.
Defined.

Lemma purchase_is_covered_by_balance_witness :
  exists cost : Z,
    calculate_upgrade_cost (L := correctly_rounded) (PyFloat (literal 50 0)) 0
      (PyFloat (literal 115 2))
      {| clock := 0; settings := default_settings |} = Ok cost /\
    num_le (PyInt cost) (PyFloat (literal 100 0)) = true.
Proof.
  destruct (@purchase_is_covered_by_balance unit
              (example_db (Some example_progress) (Some example_upgrade) 0)
              correctly_rounded tt tt {| clock := 0; settings := default_settings |} 7 (Some 1)
              example_progress (literal 100 0)
              (json_response
                 [("success", JBool true);
                  ("purchased",
                   JObject [("upgrade_id", JNumber (PyInt 1));
                            ("name", JString "grill");
                            ("new_level", JNumber (PyInt 1));
                            ("cost", JNumber (PyInt 50))]);
                  ("new_balance", JNumber (PyFloat (literal 100 0)));
                  ("new_income_per_hour", JNumber (PyFloat (literal 10 0)));
                  ("new_guests_per_hour", JNumber (PyInt 2))] 200))
    as (id & u & level & cost & _ & _ & Hu & Hl & Hc & Hle).
  - reflexivity.
  - reflexivity.
  - apply round_Q_not_nan.
  - vm_compute. reflexivity.
  - reflexivity.
  - exists cost.
    assert (Eu : u = example_upgrade).
    { cbn in Hu. injection Hu as <-. reflexivity. }
    assert (El : level = 0).
    { cbn in Hl. injection Hl as <-. reflexivity. }
    subst u level. split; [exact Hc | exact Hle].
Defined.
